(** * Agent definitions in markdown: the loader of
      [packages/core/src/agents/markdown-loader.ts], the commands
      [generate-agent] and [agent init] of [packages/cli/src/commands], and the
      planning tool of [packages/core/src/tools/mcp-sequential-thinking.ts]

    A shallow embedding of the loader that turns an "agent markdown" document
    into an [AgentDefinition], and of the commands and the tool that come
    with it, followed by the properties its specification states about the
    loader and by further properties of the code.

    Conventions of the embedding.
    - A JavaScript string is a Rocq [string]: a sequence of code units, here
      the code units below 256 (the Latin-1 range of UTF-16).
    - A JavaScript number is an IEEE-754 binary64 value, a primitive [float].
    - A value produced by [JSON.parse] is a [json] tree; [undefined] is the
      [None] of an [option].
    - A function that can throw returns a [Result]; [try]/[catch] is a match
      on it.
    - A validator built with the [zod] library is a [ZodType] descriptor,
      with the function that tells which values it accepts.
    - What the loader gets from its environment (the [JSON] and [Number]
      built-ins, [path.join], the constants of [config/models.js], the depth of
      the call stack) is a [Host] record the functions take as an argument;
      the file system is a [FileSystem] record, the log a list of warnings.
    - What a command gets from the process, the file system and the session
      with the model is a [Cli] record; what it does is a list of [Effect]s. *)

From Stdlib Require Import PrimFloat FloatOps SpecFloat ZArith Ascii String DecimalString.
From stdpp Require Import gmap strings list.

Open Scope string_scope.

(* ================================================================== *)
(** ** Exceptions *)

Inductive Exn :=
| Error (message : string)                       (* [new Error(message)] *)
| TypeError (message : string)                   (* raised by the engine *)
| RangeError (message : string)                  (* call stack exhausted *)
| SyntaxError (message : string)                 (* raised by [JSON.parse] *)
| SystemError (code : string) (message : string) (* a [node:fs] failure *).

(** [error instanceof Error ? error.message : String(error)]; every exception
    of the model is an [Error] instance. *)
Definition exn_message (e : Exn) : string :=
  match e with
  | Error m | TypeError m | RangeError m | SyntaxError m | SystemError _ m => m
  end.

(** [error.code] when ['code' in error]. *)
Definition exn_code (e : Exn) : option string :=
  match e with
  | SystemError code _ => Some code
  | _ => None
  end.

Inductive Result (A : Type) :=
| OK (a : A)
| Throw (e : Exn).
Arguments OK {A} a.
Arguments Throw {A} e.

#[global] Instance Result_ret : MRet Result := fun _ a => OK a.
#[global] Instance Result_bind : MBind Result := fun _ _ f m =>
  match m with OK a => f a | Throw e => Throw e end.

Definition succeeded {A} (r : Result A) : bool :=
  match r with OK _ => true | Throw _ => false end.

(** [value === label] for a value that is a string or [undefined]: a [case]
    of a [switch], or a comparison. *)
Definition isCase (value : option string) (label : string) : bool :=
  match value with
  | Some s => String.eqb s label
  | None => false
  end.

(** A [for ... of] loop whose body updates [acc] and may throw. *)
Fixpoint forOf {A S} (body : S -> A -> Result S) (items : list A) (acc : S)
    : Result S :=
  match items with
  | [] => OK acc
  | x :: rest =>
      match body acc x with
      | OK acc' => forOf body rest acc'
      | Throw e => Throw e
      end
  end.

(* ================================================================== *)
(** ** Strings *)

Module Str.

(** The double quote, which the messages of the loader contain. *)
Definition dq : string := String "034" EmptyString.

Definition code (c : ascii) : nat := nat_of_ascii c.

(** ECMAScript LineTerminator: LF, CR (LS and PS lie above the modelled range). *)
Definition isLineTerminator (c : ascii) : bool :=
  (code c =? 10)%nat || (code c =? 13)%nat.

(** ECMAScript WhiteSpace and LineTerminator, the class [\s] and what [trim]
    removes: TAB, LF, VT, FF, CR, SP, NBSP. *)
Definition isSpace (c : ascii) : bool :=
  ((9 <=? code c)%nat && (code c <=? 13)%nat) || (code c =? 32)%nat || (code c =? 160)%nat.

Fixpoint trimStart (s : string) : string :=
  match s with
  | String c r => if isSpace c then trimStart r else s
  | EmptyString => EmptyString
  end.

Fixpoint trimEnd (s : string) : string :=
  match s with
  | String c r =>
      match trimEnd r with
      | EmptyString => if isSpace c then EmptyString else String c EmptyString
      | r' => String c r'
      end
  | EmptyString => EmptyString
  end.

Definition trim (s : string) : string := trimEnd (trimStart s).

(** [toLowerCase] on one code unit: A-Z, and the Latin-1 capitals
    U+00C0..U+00DE except the multiplication sign U+00D7. *)
Definition lowerChar (c : ascii) : ascii :=
  let n := code c in
  if ((65 <=? n)%nat && (n <=? 90)%nat)
     || ((192 <=? n)%nat && (n <=? 222)%nat && negb (n =? 215)%nat)
  then ascii_of_nat (n + 32) else c.

Fixpoint toLowerCase (s : string) : string :=
  match s with
  | String c r => String (lowerChar c) (toLowerCase r)
  | EmptyString => EmptyString
  end.

Definition isEmpty (s : string) : bool :=
  match s with EmptyString => true | _ => false end.

(** [s.slice(from, to)] for [0 <= from] and [0 <= to]. *)
Definition slice (from to : nat) (s : string) : string :=
  substring from (to - from) s.

Definition startsWith (s p : string) : bool := String.prefix p s.

Definition endsWith (s suffix : string) : bool :=
  let n := String.length s in
  let k := String.length suffix in
  (k <=? n)%nat && String.eqb (substring (n - k) k s) suffix.

(** [s.split(sep)] for a one-character separator. *)
Fixpoint split (sep : ascii) (s : string) : list string :=
  match s with
  | EmptyString => [EmptyString]
  | String c r =>
      if Ascii.eqb c sep then EmptyString :: split sep r
      else match split sep r with
           | piece :: pieces => String c piece :: pieces
           | [] => [String c EmptyString]
           end
  end.

(** [parts.join(sep)]. *)
Fixpoint join (sep : string) (parts : list string) : string :=
  match parts with
  | [] => EmptyString
  | [p] => p
  | p :: rest => p ++ sep ++ join sep rest
  end.

End Str.

(* ================================================================== *)
(** ** Regular expressions

    The fragment of ECMAScript regular expressions the loader uses, matched
    by backtracking as the language specifies it: a matcher takes the current
    state and a continuation, and the first successful path wins.  Every
    quantifier of the loader's patterns applies to a character class, so a
    quantifier recurses on the rest of the input. *)

Module RegExp.

Record Flags := { ignoreCase : bool; multiline : bool }.

Inductive Regex :=
| Lit (c : ascii)                                         (* a literal *)
| Quant (cls : ascii -> bool) (min : nat) (greedy : bool) (* cls{min,} and cls{min,}? *)
| Seq (r1 r2 : Regex)
| Group (r : Regex)                                       (* the capture group *)
| Bol                                                     (* ^ *)
| Eol                                                     (* $ *)
| Eps                                                     (* the empty pattern *).

(** Character classes. *)
Definition dot (c : ascii) : bool := negb (Str.isLineTerminator c). (* .      *)
Definition space (c : ascii) : bool := Str.isSpace c.                (* \s     *)
Definition any (c : ascii) : bool := true.                           (* [\s\S] *)
Definition only (d : ascii) (c : ascii) : bool := Ascii.eqb c d.

Definition star cls := Quant cls 0 true.
Definition plus cls := Quant cls 1 true.
Definition lazy_star cls := Quant cls 0 false.
Definition lazy_plus cls := Quant cls 1 false.

(** The patterns [rs] one after the other. *)
Fixpoint cat (rs : list Regex) : Regex :=
  match rs with
  | [] => Eps
  | r :: rs' => Seq r (cat rs')
  end.

(** The characters of [s] as literals. *)
Fixpoint str (s : string) : Regex :=
  match s with
  | String c r => Seq (Lit c) (str r)
  | EmptyString => Eps
  end.

(** A position in the input: its index, the code unit before it, what is
    left of the input, and the text captured by the group so far. *)
Record State := {
  index : nat;
  prev : option ascii;
  rest : string;
  group : option string;
}.

Definition Cont := State -> option State.

(** Canonicalize of the [i] flag; the literals of the loader's patterns are
    ASCII, and no code unit outside ASCII canonicalizes to an ASCII one. *)
Definition canonicalize (c : ascii) : ascii :=
  let n := Str.code c in
  if (97 <=? n)%nat && (n <=? 122)%nat then ascii_of_nat (n - 32) else c.

Definition litMatches (fl : Flags) (pattern input : ascii) : bool :=
  if ignoreCase fl then Ascii.eqb (canonicalize pattern) (canonicalize input)
  else Ascii.eqb pattern input.

Definition atLineStart (fl : Flags) (x : State) : bool :=
  match prev x with
  | None => true
  | Some c => multiline fl && Str.isLineTerminator c
  end.

Definition atLineEnd (fl : Flags) (x : State) : bool :=
  match rest x with
  | EmptyString => true
  | String c _ => multiline fl && Str.isLineTerminator c
  end.

(** RepeatMatcher for a character class with no upper bound. *)
Fixpoint repeat (cls : ascii -> bool) (greedy : bool) (min : nat)
    (i : nat) (p : option ascii) (s : string) (g : option string)
    (k : Cont) : option State :=
  let here := {| index := i; prev := p; rest := s; group := g |} in
  let again :=
    match s with
    | String c s' =>
        if cls c then repeat cls greedy (Nat.pred min) (S i) (Some c) s' g k
        else None
    | EmptyString => None
    end in
  match min with
  | S _ => again
  | O =>
      if greedy
      then match again with Some y => Some y | None => k here end
      else match k here with Some y => Some y | None => again end
  end.

Fixpoint run (fl : Flags) (r : Regex) (x : State) (k : Cont) : option State :=
  match r with
  | Lit c =>
      match rest x with
      | String d s' =>
          if litMatches fl c d
          then k {| index := S (index x); prev := Some d; rest := s'; group := group x |}
          else None
      | EmptyString => None
      end
  | Quant cls min greedy =>
      repeat cls greedy min (index x) (prev x) (rest x) (group x) k
  | Seq r1 r2 => run fl r1 x (fun y => run fl r2 y k)
  | Group r1 =>
      run fl r1 x (fun y =>
        k {| index := index y; prev := prev y; rest := rest y;
             group := Some (substring 0 (index y - index x) (rest x)) |})
  | Bol => if atLineStart fl x then k x else None
  | Eol => if atLineEnd fl x then k x else None
  | Eps => k x
  end.

(** A match result: [match.index], [match[0]] and [match[1]]. *)
Record Match := {
  m_index : nat;
  m_text : string;
  m_group : option string;
}.

Definition m_end (m : Match) : nat := m_index m + String.length (m_text m).

(** One attempt at position [i]. *)
Definition attempt (fl : Flags) (r : Regex) (i : nat) (p : option ascii)
    (s : string) : option Match :=
  match run fl r {| index := i; prev := p; rest := s; group := None |} Some with
  | Some y => Some {| m_index := i;
                      m_text := substring 0 (index y - i) s;
                      m_group := group y |}
  | None => None
  end.

(** The first match at or after position [i]: what [exec] does on a regular
    expression whose [lastIndex] is [i]. *)
Fixpoint search (fl : Flags) (r : Regex) (i : nat) (p : option ascii)
    (s : string) : option Match :=
  match attempt fl r i p s with
  | Some m => Some m
  | None =>
      match s with
      | String c s' => search fl r (S i) (Some c) s'
      | EmptyString => None
      end
  end.

(** All matches of a global regular expression, left to right.  After a
    match the search resumes at its end, or one position further when the
    match is empty; [skip] counts the positions still inside the last match. *)
Fixpoint scan (fl : Flags) (r : Regex) (skip : nat) (i : nat) (p : option ascii)
    (s : string) : list Match :=
  match skip with
  | S n =>
      match s with
      | String c s' => scan fl r n (S i) (Some c) s'
      | EmptyString => []
      end
  | O =>
      match attempt fl r i p s with
      | Some m =>
          m :: match s with
               | String c s' =>
                   scan fl r (String.length (m_text m) - 1) (S i) (Some c) s'
               | EmptyString => []
               end
      | None =>
          match s with
          | String c s' => scan fl r 0 (S i) (Some c) s'
          | EmptyString => []
          end
      end
  end.

(** [s.match(re)] for a regular expression without the [g] flag. *)
Definition String_match (fl : Flags) (r : Regex) (s : string) : option Match :=
  search fl r 0 None s.

(** [[...s.matchAll(re)]] for a regular expression with the [g] flag. *)
Definition String_matchAll (fl : Flags) (r : Regex) (s : string) : list Match :=
  scan fl r 0 0 None s.

(** The input with the given matches replaced by [by_], copying from [from]. *)
Fixpoint splice (s : string) (from : nat) (ms : list Match) (by_ : string) : string :=
  match ms with
  | [] => Str.slice from (String.length s) s
  | m :: ms' => Str.slice from (m_index m) s ++ by_ ++ splice s (m_end m) ms' by_
  end.

(** [s.replace(re, by)] with the [g] flag: every match is replaced. *)
Definition String_replaceAll (fl : Flags) (r : Regex) (s by_ : string) : string :=
  splice s 0 (String_matchAll fl r s) by_.

(** [s.replace(re, by)] without the [g] flag: the first match is replaced. *)
Definition String_replace (fl : Flags) (r : Regex) (s by_ : string) : string :=
  match String_match fl r s with
  | Some m => splice s 0 [m] by_
  | None => s
  end.

End RegExp.


(* ================================================================== *)
(** ** JSON values and the JavaScript operations the loader applies to them *)

#[warnings="-register-all"]
Inductive json :=
| JNull
| JBool (b : bool)
| JNumber (n : float)
| JString (s : string)
| JArray (items : list json)
| JObject (fields : list (string * json)).

Module JS.

(** The own property [key] of an object, whose [fields] list its properties
    in enumeration order, each key once. *)
Fixpoint assoc (key : string) (fields : list (string * json)) : option json :=
  match fields with
  | [] => None
  | (k, v) :: rest => if String.eqb k key then Some v else assoc key rest
  end.

(** ToBoolean. *)
Definition truthy (v : json) : bool :=
  match v with
  | JNull => false
  | JBool b => b
  | JNumber n => negb (PrimFloat.eqb n 0 || PrimFloat.is_nan n)
  | JString s => negb (Str.isEmpty s)
  | JArray _ | JObject _ => true
  end.

(** [typeof v === 'object'], which holds of [null] as well. *)
Definition typeofObject (v : json) : bool :=
  match v with
  | JNull | JArray _ | JObject _ => true
  | _ => false
  end.

(** [typeof v === 'object' && v !== null]: an object or an array. *)
Definition isObject (v : json) : bool :=
  match v with
  | JArray _ | JObject _ => true
  | _ => false
  end.

(** [v.key] for a name that is neither an index nor [length] and that no
    prototype defines: the loader reads no other.  On [null] the read throws;
    on a primitive or an array it gives [undefined]. *)
Definition get (v : json) (key : string) : Result (option json) :=
  match v with
  | JNull =>
      Throw (TypeError ("Cannot read properties of null (reading '" ++ key ++ "')"))
  | JObject fields => OK (assoc key fields)
  | _ => OK None
  end.

(** [v[key]], under the same conditions, on a value that is not [null]. *)
Definition member (v : json) (key : string) : option json :=
  match v with
  | JObject fields => assoc key fields
  | _ => None
  end.

(** [v.length === 0]. *)
Definition lengthIsZero (v : json) : bool :=
  match v with
  | JArray items => match items with [] => true | _ => false end
  | JString s => Str.isEmpty s
  | JObject fields =>
      match assoc "length" fields with
      | Some (JNumber n) => PrimFloat.eqb n 0
      | _ => false
      end
  | _ => false
  end.

(** [v?.trim()], [v] being the result of a property read. *)
Definition optTrim (what : string) (v : option json) : Result (option string) :=
  match v with
  | None | Some JNull => OK None
  | Some (JString s) => OK (Some (Str.trim s))
  | Some _ => Throw (TypeError (what ++ "?.trim is not a function"))
  end.

(** [v?.toLowerCase()]. *)
Definition optToLowerCase (what : string) (v : option json) : Result (option string) :=
  match v with
  | None | Some JNull => OK None
  | Some (JString s) => OK (Some (Str.toLowerCase s))
  | Some _ => Throw (TypeError (what ++ "?.toLowerCase is not a function"))
  end.

(** [typeof v === 'number' ? v : undefined]. *)
Definition asNumber (v : option json) : option float :=
  match v with
  | Some (JNumber n) => Some n
  | _ => None
  end.

(** [a ?? b]. *)
Definition nullish (v : option json) (d : json) : json :=
  match v with
  | None | Some JNull => d
  | Some x => x
  end.

(** [!!s] for an optional string. *)
Definition nonEmpty (s : option string) : bool :=
  match s with
  | Some (String _ _) => true
  | _ => false
  end.

(** [a || b] where [a] is an optional string. *)
Definition orElse (a : option string) (b : string) : string :=
  match a with
  | Some (String c r) => String c r
  | _ => b
  end.

(** [Object.entries(v)] for an object or an array. *)
Definition Object_entries (v : json) : list (string * json) :=
  match v with
  | JObject fields => fields
  | JArray items =>
      imap (fun i x => (DecimalString.NilZero.string_of_uint (Nat.to_uint i), x)) items
  | _ => []
  end.

(** [Object.fromEntries(entries)]: a later entry replaces an earlier one of
    the same key. *)
Definition Object_fromEntries {V} (entries : list (string * V)) : gmap string V :=
  foldl (fun m kv => <[kv.1 := kv.2]> m) ∅ entries.

(** [obj[key] = value] on an object literal the code fills: the property is
    replaced where it is, or added last.  Assigning to [__proto__] sets the
    prototype and adds no property. *)
Fixpoint assign {V} (obj : list (string * V)) (key : string) (value : V)
    : list (string * V) :=
  match obj with
  | [] => [(key, value)]
  | (k, v) :: rest =>
      if String.eqb k key then (k, value) :: rest
      else (k, v) :: assign rest key value
  end.

Definition setProperty {V} (obj : list (string * V)) (key : string) (value : V)
    : list (string * V) :=
  if String.eqb key "__proto__" then obj else assign obj key value.

(** [Array.from(new Set(values))]: a set keeps its elements in insertion
    order, and adding an element it already has changes nothing. *)
Definition Set_add (seen : list string) (v : string) : list string :=
  if existsb (String.eqb v) seen then seen else app seen [v].

Definition dedupe (values : list string) : list string :=
  foldl Set_add [] values.

End JS.

(* ================================================================== *)
(** ** The host environment *)

Record Host := {
  (** [JSON.parse(text)]: the value, or the exception it throws. *)
  JSON_parse : string -> Result json;
  (** [Number.prototype.toString] without a radix. *)
  Number_toString : float -> string;
  (** [path.join(directory, name)]. *)
  path_join : string -> string -> string;
  (** The two constants imported from [../config/models.js]. *)
  DEFAULT_GEMINI_MODEL : string;
  DEFAULT_THINKING_MODE : float;
  (** How many nested calls of [jsonSchemaToZod] the call stack admits
      before the engine throws a [RangeError]. *)
  stack_depth : nat;
}.

(** ToString of a JSON value, and [Array.prototype.join] of an array of them
    (which prints [null] as the empty string).  An object that has an own
    [toString] property, which in JSON data is never callable, cannot be
    converted. *)
Fixpoint ToString (rt : Host) (v : json) : Result string :=
  match v with
  | JNull => OK "null"
  | JBool b => OK (if b then "true" else "false")
  | JNumber n => OK (Number_toString rt n)
  | JString s => OK s
  | JArray items =>
      parts ← (fix each (l : list json) : Result (list string) :=
                 match l with
                 | [] => OK []
                 | x :: l' =>
                     s ← match x with JNull => OK "" | _ => ToString rt x end;
                     ss ← each l';
                     OK (s :: ss)
                 end) items;
      OK (Str.join "," parts)
  | JObject fields =>
      match JS.assoc "toString" fields with
      | Some _ => Throw (TypeError "Cannot convert object to primitive value")
      | None => OK "[object Object]"
      end
  end.

(** [value?.toString()]. *)
Definition optToString (rt : Host) (v : json) : Result (option string) :=
  match v with
  | JNull => OK None
  | JObject fields =>
      match JS.assoc "toString" fields with
      | Some _ => Throw (TypeError "value?.toString is not a function")
      | None => OK (Some "[object Object]")
      end
  | _ => s ← ToString rt v; OK (Some s)
  end.

(* ================================================================== *)
(** ** Validators

    The descriptors the loader builds with the [zod] library, and which
    values a descriptor accepts ([schema.safeParse(value).success]). *)

#[warnings="-register-all"]
Inductive ZodType :=
| ZodString                                    (* z.string() *)
| ZodNumber (int : bool)                       (* z.number(), z.number().int() *)
| ZodBoolean                                   (* z.boolean() *)
| ZodAny                                       (* z.any() *)
| ZodArray (element : ZodType)                 (* z.array(element) *)
| ZodRecord (value : ZodType)                  (* z.record(value) *)
| ZodObject (shape : list (string * ZodType))  (* z.object(shape).passthrough() *)
| ZodOptional (inner : ZodType)                (* inner.optional() *).

Module Zod.

(** [Number.isInteger]. *)
Definition isInteger (n : float) : bool :=
  match Prim2SF n with
  | S754_zero _ => true
  | S754_finite _ m e =>
      (0 <=? e)%Z || (Z.land (Zpos m) (Z.ones (- e)) =? 0)%Z
  | _ => false
  end.

(** Whether the descriptor accepts the value, after zod 3; [None] is
    [undefined], what reading an absent property gives.  An object validator
    reads the properties of its shape in the value (own properties here: a
    key that names a member of [Object.prototype] is out of the model) and
    lets the others pass. *)
Fixpoint accepts (t : ZodType) (v : option json) : bool :=
  match t with
  | ZodAny => true
  | ZodOptional inner =>
      match v with None => true | Some _ => accepts inner v end
  | ZodString => match v with Some (JString _) => true | _ => false end
  | ZodBoolean => match v with Some (JBool _) => true | _ => false end
  | ZodNumber int =>
      match v with
      | Some (JNumber n) => negb (PrimFloat.is_nan n) && (negb int || isInteger n)
      | _ => false
      end
  | ZodArray element =>
      match v with
      | Some (JArray items) => forallb (fun x => accepts element (Some x)) items
      | _ => false
      end
  | ZodRecord value =>
      match v with
      | Some (JObject fields) => forallb (fun kv => accepts value (Some kv.2)) fields
      | _ => false
      end
  | ZodObject shape =>
      match v with
      | Some (JObject fields) =>
          (fix each (sh : list (string * ZodType)) : bool :=
             match sh with
             | [] => true
             | (key, field) :: sh' => accepts field (JS.assoc key fields) && each sh'
             end) shape
      | _ => false
      end
  end.

End Zod.

(* ================================================================== *)
(** ** The data model of the loader *)

Module AgentInputSpec.
Record t := {
  name : string;
  type : string;
  required : json;
  description : string;
}.
End AgentInputSpec.

Inductive OutputType := text | json_output.

Module AgentOutputSpec.
Record t := {
  name : string;
  type : OutputType;
  description : string;
  schema : option json;
}.
End AgentOutputSpec.

Module AgentModelSpec.
Record t := {
  model : option string;
  temperature : option float;
  top_p : option float;
  thinkingBudget : option float;
}.
End AgentModelSpec.

Module AgentRunConfigSpec.
Record t := {
  max_time_minutes : option float;
  max_turns : option float;
}.
End AgentRunConfigSpec.

Module ParsedAgentConfig.
Record t := {
  name : string;
  summary : option string;
  persona : option string;
  role : option string;
  guidelines : option (list string);
  inputs : option (list AgentInputSpec.t);
  output : option AgentOutputSpec.t;
  tools : option (list string);
  mcpServers : option (list string);
  model : option AgentModelSpec.t;
  runConfig : option AgentRunConfigSpec.t;
  query : option string;
  systemPrompt : option string;
}.
End ParsedAgentConfig.

(** The [AgentDefinition] of [./types.js], with the fields the loader fills. *)
Module InputConfig.
Record entry := {
  description : string;
  type : string;
  required : json;
}.
Record t := { inputs : gmap string entry }.
End InputConfig.

Module OutputConfig.
Record t := {
  outputName : string;
  description : string;
  schema : ZodType;
}.
End OutputConfig.

Module PromptConfig.
Record t := { systemPrompt : string; query : string }.
End PromptConfig.

Module ModelConfig.
Record t := { model : string; temp : float; top_p : float; thinkingBudget : float }.
End ModelConfig.

Module RunConfig.
Record t := { max_time_minutes : float; max_turns : float }.
End RunConfig.

Module ToolConfig.
Record t := { tools : list string }.
End ToolConfig.

(** The one post-processor the loader installs:
    [(value) => JSON.stringify(value, null, 2)]. *)
Inductive OutputProcessor := stringifyPretty.

Module AgentDefinition.
Record t := {
  name : string;
  displayName : string;
  description : string;
  promptConfig : PromptConfig.t;
  modelConfig : ModelConfig.t;
  runConfig : RunConfig.t;
  toolConfig : option ToolConfig.t;
  outputConfig : option OutputConfig.t;
  inputConfig : InputConfig.t;
  processOutput : option OutputProcessor;
}.
End AgentDefinition.

(** An entry of [readdir(directory, { withFileTypes: true })]. *)
Module Dirent.
Record t := { name : string; isFile : bool }.
End Dirent.

(** What [node:fs/promises] answers: [readdir(directory, {withFileTypes})]
    and [readFile(path, 'utf-8')], each the value or the rejection. *)
Record FileSystem := {
  readdir : string -> Result (list Dirent.t);
  readFile : string -> Result string;
}.

(* ================================================================== *)
(** ** Constants of the loader *)

Import RegExp.

Definition flags_gm : Flags := {| ignoreCase := false; multiline := true |}.
Definition flags_im : Flags := {| ignoreCase := true; multiline := true |}.
Definition flags_i : Flags := {| ignoreCase := true; multiline := false |}.
Definition flags_g : Flags := {| ignoreCase := false; multiline := false |}.
Definition flags_none : Flags := {| ignoreCase := false; multiline := false |}.

(** [/^##\s+(.+?)\s*$/gm] *)
Definition SECTION_HEADING_REGEX : Regex :=
  cat [Bol; str "##"; plus space; Group (lazy_plus dot); star space; Eol].

(** [/^#\s*Agent:\s*(.+)$/im] *)
Definition AGENT_NAME_REGEX : Regex :=
  cat [Bol; str "#"; star space; str "Agent:"; star space; Group (plus dot); Eol].

(** [/```json\s*([\s\S]*?)```/i] *)
Definition JSON_BLOCK_REGEX : Regex :=
  cat [str "```json"; star space; Group (lazy_star any); str "```"].

(** [/```[\s\S]*?```/g], of [getText]. *)
Definition FENCED_BLOCK_REGEX : Regex :=
  cat [str "```"; lazy_star any; str "```"].

(** [/^-+\s*/], of [extractGuidelines]. *)
Definition BULLET_REGEX : Regex :=
  cat [Bol; plus (only "-"); star space].

Definition DEFAULT_MAX_TIME_MINUTES : float := 5.
Definition DEFAULT_MAX_TURNS : float := 10.
#[warnings="-inexact-float"]
Definition DEFAULT_TEMPERATURE : float := 0.2.
#[warnings="-inexact-float"]
Definition DEFAULT_TOP_P : float := 0.9.

Definition ALLOWED_INPUT_TYPES : list string :=
  ["string"; "number"; "boolean"; "integer"; "string[]"; "number[]"].

Definition ALLOWED_INPUT_TYPES_has (type : string) : bool :=
  existsb (String.eqb type) ALLOWED_INPUT_TYPES.

(** [match[1]].  The capture group of each of the loader's patterns takes
    part in every match (lemmas [String_match_group] and
    [String_matchAll_group] below), so the read never gives [undefined]. *)
Definition match1 (m : Match) : string := default "" (m_group m).

(** [!section] for the result of [sections.get(key)]: absent or empty. *)
Definition noSection (section : option string) : bool :=
  match section with
  | Some (String _ _) => false
  | _ => true
  end.

(* ================================================================== *)
(** ** The loader: from a document to a [ParsedAgentConfig] *)

Definition missingHeader (source : string) : Exn :=
  Error ("Missing " ++ Str.dq ++ "# Agent: <name>" ++ Str.dq
         ++ " header in " ++ source ++ ".").

Definition emptyName (source : string) : Exn :=
  Error ("Agent name is empty in " ++ source ++ ".").

Definition extractAgentName (markdown source : string) : Result string :=
  match String_match flags_im AGENT_NAME_REGEX markdown with
  | None => Throw (missingHeader source)
  | Some m =>
      let name := Str.trim (match1 m) in
      if Str.isEmpty name then Throw (emptyName source) else OK name
  end.

(** The loop of [extractSections] over the heading matches; [sections.set]
    replaces an earlier section of the same heading. *)
Fixpoint collectSections (markdown : string) (matches : list Match)
    (sections : gmap string string) : gmap string string :=
  match matches with
  | [] => sections
  | m :: later =>
      let heading := Str.toLowerCase (Str.trim (match1 m)) in
      let start := m_index m + String.length (m_text m) in
      let end_ :=
        match later with
        | next :: _ => m_index next
        | [] => String.length markdown
        end in
      let content := Str.trim (Str.slice start end_ markdown) in
      collectSections markdown later (<[heading := content]> sections)
  end.

Definition extractSections (markdown : string) : gmap string string :=
  collectSections markdown
    (String_matchAll flags_gm SECTION_HEADING_REGEX markdown) ∅.

Definition getText (sections : gmap string string) (key : string) : option string :=
  let section := sections !! key in
  if noSection section then None
  else
    match Str.trim (String_replaceAll flags_g FENCED_BLOCK_REGEX (default "" section) "") with
    | EmptyString => None
    | stripped => Some stripped
    end.

Definition expectedJsonBlock (key source : string) : Exn :=
  Error ("Expected a JSON code block in " ++ Str.dq ++ key ++ Str.dq
         ++ " section of " ++ source ++ ".").

Definition invalidJson (key source message : string) : Exn :=
  Error ("Invalid JSON in " ++ Str.dq ++ key ++ Str.dq
         ++ " section of " ++ source ++ ": " ++ message).

Definition extractGuidelines (section : option string) : option (list string) :=
  if noSection section then None
  else
    let lines :=
      List.filter (fun line => negb (Str.isEmpty line))
        (map Str.trim (Str.split "010" (default "" section))) in
    let bullets :=
      List.filter (fun line => negb (Str.isEmpty line))
        (map (fun line => Str.trim (String_replace flags_none BULLET_REGEX line ""))
           (List.filter (fun line => Str.startsWith line "-") lines)) in
    match bullets, lines with
    | _ :: _, _ => Some bullets
    | [], _ :: _ => Some [Str.join " " lines]
    | [], [] => None
    end.

(** An entry of [parseInputs] after its [map]: [name] and [type] may be
    [undefined]. *)
Record SanitizedInput := {
  s_name : option string;
  s_type : option string;
  s_required : json;
  s_description : string;
}.

Definition sanitizeInput (input : json) : Result SanitizedInput :=
  name ← JS.get input "name" ≫= JS.optTrim "input.name";
  type ← JS.get input "type" ≫= JS.optTrim "input.type";
  required ← JS.get input "required";
  description ← JS.get input "description" ≫= JS.optTrim "input.description";
  OK {| s_name := name;
        s_type := Str.toLowerCase <$> type;
        s_required := JS.nullish required (JBool true);
        s_description := default "" description |}.

(** The cast [valid as AgentInputSpec[]], on entries that passed the filters. *)
Definition asAgentInputSpec (input : SanitizedInput) : AgentInputSpec.t :=
  {| AgentInputSpec.name := default "" (s_name input);
     AgentInputSpec.type := default "" (s_type input);
     AgentInputSpec.required := s_required input;
     AgentInputSpec.description := s_description input |}.

Definition parseInputs (inputs : option json) : Result (option (list AgentInputSpec.t)) :=
  match inputs with
  | None => OK None
  | Some inputs =>
      if negb (JS.truthy inputs) || JS.lengthIsZero inputs then OK None
      else
        match inputs with
        | JArray items =>
            mapped ← mapM sanitizeInput items;
            let sanitized :=
              List.filter (fun input => JS.nonEmpty (s_name input) && JS.nonEmpty (s_type input))
                mapped in
            let valid :=
              List.filter (fun input => ALLOWED_INPUT_TYPES_has (default "" (s_type input)))
                sanitized in
            match valid with
            | [] => OK None
            | _ => OK (Some (map asAgentInputSpec valid))
            end
        | _ => Throw (TypeError "inputs.map is not a function")
        end
  end.

Definition parseOutput (output : option json) : Result (option AgentOutputSpec.t) :=
  match output with
  | None => OK None
  | Some output =>
      if negb (JS.truthy output) then OK None
      else
        name ← JS.get output "name" ≫= JS.optTrim "output.name";
        type ← JS.get output "type" ≫= JS.optToLowerCase "output.type";
        description ← JS.get output "description" ≫= JS.optTrim "output.description";
        schema ← JS.get output "schema";
        OK (Some {| AgentOutputSpec.name := JS.orElse name "result";
                    AgentOutputSpec.type :=
                      if bool_decide (type = Some "json") then json_output else text;
                    AgentOutputSpec.description := JS.orElse description "";
                    AgentOutputSpec.schema := schema |})
  end.

Definition parseModel (model : option json) : Result (option AgentModelSpec.t) :=
  match model with
  | None => OK None
  | Some model =>
      if negb (JS.truthy model) then OK None
      else
        name ← JS.get model "model" ≫= JS.optTrim "model.model";
        OK (Some {| AgentModelSpec.model := name;
                    AgentModelSpec.temperature := JS.asNumber (JS.member model "temperature");
                    AgentModelSpec.top_p := JS.asNumber (JS.member model "top_p");
                    AgentModelSpec.thinkingBudget :=
                      JS.asNumber (JS.member model "thinkingBudget") |})
  end.

Definition parseRunConfig (run : option json) : option AgentRunConfigSpec.t :=
  match run with
  | None => None
  | Some run =>
      if negb (JS.truthy run) then None
      else
        Some {| AgentRunConfigSpec.max_time_minutes :=
                  JS.asNumber (JS.member run "max_time_minutes");
                AgentRunConfigSpec.max_turns :=
                  JS.asNumber (JS.member run "max_turns") |}
  end.

Section Loader.

Variable rt : Host.

(** The callback of [parseStringArray]: [value?.toString().trim()]. *)
Definition sanitizeString (value : json) : Result (option string) :=
  match optToString rt value with
  | OK (Some s) => OK (Some (Str.trim s))
  | OK None => OK None
  | Throw e => Throw e
  end.

Definition parseStringArray (values : option json) : Result (option (list string)) :=
  match values with
  | Some (JArray items) =>
      mapped ← mapM sanitizeString items;
      let sanitized : list string :=
        omap (fun value : option string => if JS.nonEmpty value then value else None)
          mapped in
      match sanitized with
      | [] => OK None
      | _ => OK (Some (JS.dedupe sanitized))
      end
  | _ => OK None
  end.

(** The closure [parseJsonSection] of [buildConfigFromSections]. *)
Definition parseJsonSection (sections : gmap string string) (source key : string)
    : Result (option json) :=
  let section := sections !! key in
  if noSection section then OK None
  else
    match String_match flags_i JSON_BLOCK_REGEX (default "" section) with
    | None => Throw (expectedJsonBlock key source)
    | Some m =>
        match JSON_parse rt (match1 m) with
        | OK value => OK (Some value)
        | Throw error => Throw (invalidJson key source (exn_message error))
        end
    end.

Definition buildConfigFromSections (name : string) (sections : gmap string string)
    (source : string) : Result ParsedAgentConfig.t :=
  let guidelines := extractGuidelines (sections !! "guidelines") in
  inputs ← parseJsonSection sections source "inputs" ≫= parseInputs;
  output ← parseJsonSection sections source "output" ≫= parseOutput;
  tools ← parseJsonSection sections source "tools" ≫= parseStringArray;
  mcpServers ← parseJsonSection sections source "mcp" ≫= parseStringArray;
  model ← parseJsonSection sections source "model" ≫= parseModel;
  run ← parseJsonSection sections source "run config";
  let runConfig := parseRunConfig run in
  OK {| ParsedAgentConfig.name := name;
        ParsedAgentConfig.summary :=
          match getText sections "summary" with
          | Some summary => Some summary
          | None => getText sections "role"
          end;
        ParsedAgentConfig.persona := getText sections "persona";
        ParsedAgentConfig.role := getText sections "role";
        ParsedAgentConfig.guidelines := guidelines;
        ParsedAgentConfig.inputs := inputs;
        ParsedAgentConfig.output := output;
        ParsedAgentConfig.tools := tools;
        ParsedAgentConfig.mcpServers := mcpServers;
        ParsedAgentConfig.model := model;
        ParsedAgentConfig.runConfig := runConfig;
        ParsedAgentConfig.query := getText sections "query";
        ParsedAgentConfig.systemPrompt := getText sections "system prompt" |}.

(* ================================================================== *)
(** ** The loader: from a [ParsedAgentConfig] to an [AgentDefinition] *)

Definition mapInputType (type : string) : string :=
  if String.eqb type "number" || String.eqb type "integer" then "number"
  else if String.eqb type "boolean" then "boolean"
  else if String.eqb type "string[]" then "string[]"
  else if String.eqb type "number[]" then "number[]"
  else "string".

Definition defaultInput : AgentInputSpec.t :=
  {| AgentInputSpec.name := "objective";
     AgentInputSpec.type := "string";
     AgentInputSpec.required := JBool true;
     AgentInputSpec.description := "Detailed description of the task to accomplish." |}.

Definition buildInputConfig (inputs : option (list AgentInputSpec.t)) : InputConfig.t :=
  let effectiveInputs :=
    match inputs with
    | Some (input :: more) => input :: more
    | _ => [defaultInput]
    end in
  let inputConfig :=
    JS.Object_fromEntries
      (map (fun input =>
              (AgentInputSpec.name input,
               {| InputConfig.description := AgentInputSpec.description input;
                  InputConfig.type := mapInputType (AgentInputSpec.type input);
                  InputConfig.required := AgentInputSpec.required input |}))
         effectiveInputs) in
  {| InputConfig.inputs := inputConfig |}.

(** [jsonSchemaToZod]; [depth] is the room left on the call stack, and a call
    that finds none throws the engine's [RangeError]. *)
Fixpoint jsonSchemaToZod (depth : nat) (schema : json) : Result ZodType :=
  match depth with
  | O => Throw (RangeError "Maximum call stack size exceeded")
  | S depth' =>
      let type :=
        match JS.member schema "type" with
        | Some (JString type) => Some type
        | _ => None
        end in
      if isCase type "string" then OK ZodString
      else if isCase type "number" then OK (ZodNumber false)
      else if isCase type "integer" then OK (ZodNumber true)
      else if isCase type "boolean" then OK ZodBoolean
      else if isCase type "array" then
        match JS.member schema "items" with
        | Some items =>
            if JS.isObject items then
              element ← jsonSchemaToZod depth' items;
              OK (ZodArray element)
            else OK (ZodArray ZodAny)
        | None => OK (ZodArray ZodAny)
        end
      else if isCase type "object" then
        let required :=
          match JS.member schema "required" with
          | Some (JArray names) => names
          | _ => []
          end in
        let required_has (key : string) :=
          existsb (fun name => match name with
                               | JString s => String.eqb s key
                               | _ => false
                               end) required in
        match JS.member schema "properties" with
        | Some properties =>
            if JS.isObject properties then
              shape ← forOf (fun (shape : list (string * ZodType)) (entry : string * json) =>
                         let (key, value) := entry in
                         propertySchema ←
                           (if JS.isObject value then jsonSchemaToZod depth' value
                            else OK ZodAny);
                         OK (JS.setProperty shape key
                               (if required_has key then propertySchema
                                else ZodOptional propertySchema)))
                       (JS.Object_entries properties) [];
              OK (ZodObject shape)
            else OK (ZodRecord ZodAny)
        | None => OK (ZodRecord ZodAny)
        end
      else OK ZodAny
  end.

Definition buildZodSchema (schema : option json) : ZodType :=
  match schema with
  | None => ZodAny
  | Some schema =>
      if negb (JS.truthy schema) || negb (JS.typeofObject schema) then ZodAny
      else
        match jsonSchemaToZod (stack_depth rt) schema with
        | OK compiled => compiled
        | Throw _error => ZodAny
        end
  end.

Definition buildOutputConfig (output : option AgentOutputSpec.t) : option OutputConfig.t :=
  match output with
  | None =>
      Some {| OutputConfig.outputName := "result";
              OutputConfig.description := "Final answer generated by the agent.";
              OutputConfig.schema := ZodString |}
  | Some output =>
      let schema :=
        match AgentOutputSpec.type output with
        | json_output => buildZodSchema (AgentOutputSpec.schema output)
        | text => ZodString
        end in
      Some {| OutputConfig.outputName := AgentOutputSpec.name output;
              OutputConfig.description :=
                JS.orElse (Some (AgentOutputSpec.description output))
                  match AgentOutputSpec.type output with
                  | json_output => "Structured JSON output generated by the agent."
                  | text => "Textual result generated by the agent."
                  end;
              OutputConfig.schema := schema |}
  end.

Definition buildModelConfig (model : option AgentModelSpec.t) : ModelConfig.t :=
  {| ModelConfig.model :=
       JS.orElse (model ≫= AgentModelSpec.model) (DEFAULT_GEMINI_MODEL rt);
     ModelConfig.temp := default DEFAULT_TEMPERATURE (model ≫= AgentModelSpec.temperature);
     ModelConfig.top_p := default DEFAULT_TOP_P (model ≫= AgentModelSpec.top_p);
     ModelConfig.thinkingBudget :=
       default (DEFAULT_THINKING_MODE rt) (model ≫= AgentModelSpec.thinkingBudget) |}.

(** [typeof v === 'number' && Number.isFinite(v) && v > 0 ? v : fallback],
    [v] being [undefined] when the field or the whole record is absent. *)
Definition positiveOr (v : option float) (fallback : float) : float :=
  match v with
  | Some n => if PrimFloat.is_finite n && PrimFloat.ltb 0 n then n else fallback
  | None => fallback
  end.

Definition buildRunConfig (runConfig : option AgentRunConfigSpec.t) : RunConfig.t :=
  let maxTime :=
    positiveOr (runConfig ≫= AgentRunConfigSpec.max_time_minutes) DEFAULT_MAX_TIME_MINUTES in
  let maxTurns :=
    positiveOr (runConfig ≫= AgentRunConfigSpec.max_turns) DEFAULT_MAX_TURNS in
  {| RunConfig.max_time_minutes := maxTime;
     RunConfig.max_turns := maxTurns |}.

Definition buildToolConfig (tools : option (list string)) : option ToolConfig.t :=
  match tools with
  | Some (tool :: more) => Some {| ToolConfig.tools := tool :: more |}
  | _ => None
  end.

Definition nl : string := String "010" EmptyString.

Definition buildSystemPrompt (config : ParsedAgentConfig.t) : string :=
  if JS.nonEmpty (ParsedAgentConfig.systemPrompt config)
  then Str.trim (default "" (ParsedAgentConfig.systemPrompt config))
  else
    let name := ParsedAgentConfig.name config in
    let opening :=
      if JS.nonEmpty (ParsedAgentConfig.role config)
         || JS.nonEmpty (ParsedAgentConfig.summary config)
      then "You are **" ++ name ++ "**, "
           ++ match ParsedAgentConfig.role config with
              | Some role => role
              | None => default "undefined" (ParsedAgentConfig.summary config)
              end ++ "."
      else "You are **" ++ name ++ "**, a specialized assistant." in
    let persona :=
      if JS.nonEmpty (ParsedAgentConfig.persona config)
      then ["Persona:" ++ nl ++ default "" (ParsedAgentConfig.persona config)]
      else [] in
    let guidelines :=
      match ParsedAgentConfig.guidelines config with
      | Some (line :: more) =>
          let list := Str.join nl (map (fun line => "- " ++ line) (line :: more)) in
          ["Follow these guidelines:" ++ nl ++ list]
      | _ => []
      end in
    let segments :=
      app [opening] (app persona (app guidelines
        ["Think step-by-step, justify your reasoning, and provide actionable, concrete outputs."])) in
    Str.trim (Str.join (nl ++ nl) segments).

Definition appendToolingContext (prompt : string) (tools mcpServers : option (list string))
    : string :=
  let forTools :=
    match tools with
    | Some (tool :: more) =>
        ["You can invoke the following tools when needed: "
         ++ Str.join ", " (tool :: more) ++ "."]
    | _ => []
    end in
  let forServers :=
    match mcpServers with
    | Some (server :: more) =>
        ["You have access to these MCP servers: " ++ Str.join ", " (server :: more)
         ++ ". Use them when they can provide better context or direct actions."]
    | _ => []
    end in
  match app forTools forServers with
  | [] => prompt
  | additions => Str.trim (prompt ++ nl ++ nl ++ Str.join nl additions)
  end.

Definition DEFAULT_QUERY : string :=
  "Use the provided inputs to accomplish the requested task with precision.".

Definition buildAgentDefinition (config : ParsedAgentConfig.t) (source : string)
    : AgentDefinition.t :=
  let inputs := buildInputConfig (ParsedAgentConfig.inputs config) in
  let expectsJsonOutput :=
    match ParsedAgentConfig.output config with
    | Some output =>
        match AgentOutputSpec.type output with json_output => true | text => false end
    | None => false
    end in
  let outputConfig := buildOutputConfig (ParsedAgentConfig.output config) in
  let modelConfig := buildModelConfig (ParsedAgentConfig.model config) in
  let runConfig := buildRunConfig (ParsedAgentConfig.runConfig config) in
  let toolConfig := buildToolConfig (ParsedAgentConfig.tools config) in
  let systemPrompt := buildSystemPrompt config in
  let finalPrompt :=
    appendToolingContext systemPrompt (ParsedAgentConfig.tools config)
      (ParsedAgentConfig.mcpServers config) in
  {| AgentDefinition.name := ParsedAgentConfig.name config;
     AgentDefinition.displayName := ParsedAgentConfig.name config;
     AgentDefinition.description :=
       JS.orElse (ParsedAgentConfig.summary config)
         (JS.orElse (ParsedAgentConfig.role config)
            ("Custom agent defined in " ++ source));
     AgentDefinition.promptConfig :=
       {| PromptConfig.systemPrompt := finalPrompt;
          PromptConfig.query := default DEFAULT_QUERY (ParsedAgentConfig.query config) |};
     AgentDefinition.modelConfig := modelConfig;
     AgentDefinition.runConfig := runConfig;
     AgentDefinition.toolConfig := toolConfig;
     AgentDefinition.outputConfig := outputConfig;
     AgentDefinition.inputConfig := inputs;
     AgentDefinition.processOutput :=
       if expectsJsonOutput then Some stringifyPretty else None |}.

(** [parseAgentMarkdown(markdown, source)]; a caller that passes no [source]
    gets ['agent markdown']. *)
Definition parseAgentMarkdown (markdown source : string) : Result AgentDefinition.t :=
  let sections := extractSections markdown in
  name ← extractAgentName markdown source;
  config ← buildConfigFromSections name sections source;
  OK (buildAgentDefinition config source).

(* ================================================================== *)
(** ** The directory loader *)

Variable fs : FileSystem.

(** The state of the loop: the [definitions] array and what [debugLogger.warn]
    has been given, both in order. *)
Definition LoadState : Type := list AgentDefinition.t * list string.

(** One iteration of the loop over the directory entries. *)
Definition loadEntry (directory : string) (state : LoadState) (entry : Dirent.t) : LoadState :=
  let (definitions, warnings) := state in
  if negb (Dirent.isFile entry) then state
  else if negb (Str.endsWith (Str.toLowerCase (Dirent.name entry)) ".agent.md") then state
  else
    let fullPath := path_join rt directory (Dirent.name entry) in
    match content ← readFile fs fullPath; parseAgentMarkdown content fullPath with
    | OK definition => (app definitions [definition], warnings)
    | Throw error =>
        let message := exn_message error in
        (definitions,
         app warnings
           ["[AgentRegistry] Failed to load agent from " ++ fullPath ++ ": " ++ message])
    end.

Definition loadAgentsFromDirectory (directory : string) : LoadState :=
  match readdir fs directory with
  | OK dirEntries => foldl (loadEntry directory) ([], []) dirEntries
  | Throw error =>
      if isCase (exn_code error) "ENOENT" then ([], [])
      else
        let message := exn_message error in
        ([], ["[AgentRegistry] Unable to read agents directory " ++ Str.dq ++ directory
              ++ Str.dq ++ ": " ++ message])
  end.

End Loader.

(* ================================================================== *)
(** ** A reference host

    An executable host for the worked examples: [JSON.parse] after the JSON
    grammar of ECMA-404, numbers converted to the nearest binary64 value;
    [Number.prototype.toString] after Number::toString of ECMA-262.  The
    theorems below hold for every host and do not depend on this one. *)

Module Reference.

Definition isDigit (c : ascii) : bool :=
  (48 <=? Str.code c)%nat && (Str.code c <=? 57)%nat.

(** JSON white space: TAB, LF, CR, SP. *)
Definition isJsonSpace (c : ascii) : bool :=
  let n := Str.code c in
  (n =? 9)%nat || (n =? 10)%nat || (n =? 13)%nat || (n =? 32)%nat.

Fixpoint skipSpace (s : string) : string :=
  match s with
  | String c r => if isJsonSpace c then skipSpace r else s
  | EmptyString => s
  end.

(** The decimal digits at the head of [s], accumulated onto [acc]; how many
    there were; the rest. *)
Fixpoint digits (acc : Z) (count : nat) (s : string) : Z * nat * string :=
  match s with
  | String c r =>
      if isDigit c then digits (acc * 10 + Z.of_nat (Str.code c - 48)) (S count) r
      else (acc, count, s)
  | EmptyString => (acc, count, s)
  end.

(** The binary64 value nearest to [m * 10^e] (ties to even), for [0 <= m]. *)
Definition decimalToFloat (negative : bool) (m e : Z) : float :=
  SF2Prim
    match m with
    | Zpos p =>
        if (0 <=? e)%Z
        then binary_normalize prec emax (cond_Zopp negative (m * 10 ^ e)) 0 negative
        else SFdiv prec emax (S754_finite negative p 0)
               (S754_finite false (Z.to_pos (10 ^ (- e))) 0)
    | _ => S754_zero negative
    end.

Definition number (s : string) : option (float * string) :=
  let (negative, s1) :=
    match s with
    | String "-" r => (true, r)
    | _ => (false, s)
    end in
  let '(int, intDigits, s2) := digits 0 0 s1 in
  let leadingZero :=
    match s1 with
    | String "0" _ => (1 <? intDigits)%nat
    | _ => false
    end in
  if (intDigits =? 0)%nat || leadingZero then None
  else
    let fraction :=
      match s2 with
      | String "." r =>
          let '(m, fracDigits, s3) := digits int 0 r in
          if (fracDigits =? 0)%nat then None else Some (m, fracDigits, s3)
      | _ => Some (int, 0%nat, s2)
      end in
    match fraction with
    | None => None
    | Some (m, fracDigits, s3) =>
        let exponent :=
          match s3 with
          | String c r =>
              if Ascii.eqb c "e" || Ascii.eqb c "E" then
                let (sign, r') :=
                  match r with
                  | String "-" t => ((-1)%Z, t)
                  | String "+" t => (1%Z, t)
                  | _ => (1%Z, r)
                  end in
                let '(e, expDigits, s4) := digits 0 0 r' in
                if (expDigits =? 0)%nat then None else Some ((sign * e)%Z, s4)
              else Some (0%Z, s3)
          | EmptyString => Some (0%Z, s3)
          end in
        match exponent with
        | None => None
        | Some (e, s4) =>
            Some (decimalToFloat negative m (e - Z.of_nat fracDigits), s4)
        end
    end.

Definition hexValue (c : ascii) : option nat :=
  let n := Str.code c in
  if isDigit c then Some (n - 48)
  else if (65 <=? n)%nat && (n <=? 70)%nat then Some (n - 55)
  else if (97 <=? n)%nat && (n <=? 102)%nat then Some (n - 87)
  else None.

(** The characters of a string literal after its opening quote.  An escape
    [\uXXXX] of a code unit above 255 has no counterpart in the modelled
    range and is refused. *)
Fixpoint stringBody (s : string) : option (string * string) :=
  match s with
  | EmptyString => None
  | String c r =>
      if (Str.code c =? 34)%nat then Some (EmptyString, r)
      else if (Str.code c <? 32)%nat then None
      else if (Str.code c =? 92)%nat then
        match r with
        | String "u" (String a (String b (String h (String l t)))) =>
            match hexValue a, hexValue b, hexValue h, hexValue l with
            | Some 0, Some 0, Some hi, Some lo =>
                match stringBody t with
                | Some (body, rest) =>
                    Some (String (ascii_of_nat (16 * hi + lo)) body, rest)
                | None => None
                end
            | _, _, _, _ => None
            end
        | String e t =>
            let unescaped :=
              let n := Str.code e in
              if (n =? 34)%nat || (n =? 92)%nat || (n =? 47)%nat then Some e
              else if Ascii.eqb e "b" then Some "008"%char
              else if Ascii.eqb e "f" then Some "012"%char
              else if Ascii.eqb e "n" then Some "010"%char
              else if Ascii.eqb e "r" then Some "013"%char
              else if Ascii.eqb e "t" then Some "009"%char
              else None in
            match unescaped, stringBody t with
            | Some u, Some (body, rest) => Some (String u body, rest)
            | _, _ => None
            end
        | EmptyString => None
        end
      else
        match stringBody r with
        | Some (body, rest) => Some (String c body, rest)
        | None => None
        end
  end.

Definition keyword (word : string) (v : json) (s : string) : option (json * string) :=
  if String.prefix word s
  then Some (v, substring (String.length word) (String.length s - String.length word) s)
  else None.

(** The JSON value at the head of [s] and the rest of [s]. *)
Fixpoint value (fuel : nat) (s : string) : option (json * string) :=
  match fuel with
  | O => None
  | S fuel' =>
      match skipSpace s with
      | EmptyString => None
      | String c r as s' =>
          if Ascii.eqb c "n" then keyword "null" JNull s'
          else if Ascii.eqb c "t" then keyword "true" (JBool true) s'
          else if Ascii.eqb c "f" then keyword "false" (JBool false) s'
          else if (Str.code c =? 34)%nat then
            match stringBody r with
            | Some (body, rest) => Some (JString body, rest)
            | None => None
            end
          else if Ascii.eqb c "[" then
            match skipSpace r with
            | String "]" rest => Some (JArray [], rest)
            | _ => elements fuel' r []
            end
          else if Ascii.eqb c "{" then
            match skipSpace r with
            | String "}" rest => Some (JObject [], rest)
            | _ => members fuel' r []
            end
          else
            match number s' with
            | Some (n, rest) => Some (JNumber n, rest)
            | None => None
            end
      end
  end
with elements (fuel : nat) (s : string) (acc : list json) : option (json * string) :=
  match fuel with
  | O => None
  | S fuel' =>
      match value fuel' s with
      | Some (v, rest) =>
          match skipSpace rest with
          | String "," rest' => elements fuel' rest' (app acc [v])
          | String "]" rest' => Some (JArray (app acc [v]), rest')
          | _ => None
          end
      | None => None
      end
  end
with members (fuel : nat) (s : string) (acc : list (string * json)) : option (json * string) :=
  match fuel with
  | O => None
  | S fuel' =>
      match skipSpace s with
      | String q r =>
          if (Str.code q =? 34)%nat then
            match stringBody r with
            | Some (key, rest) =>
                match skipSpace rest with
                | String ":" rest' =>
                    match value fuel' rest' with
                    | Some (v, rest'') =>
                        match skipSpace rest'' with
                        | String "," t => members fuel' t (JS.assign acc key v)
                        | String "}" t => Some (JObject (JS.assign acc key v), t)
                        | _ => None
                        end
                    | None => None
                    end
                | _ => None
                end
            | None => None
            end
          else None
      | EmptyString => None
      end
  end.

Definition JSON_parse (text : string) : Result json :=
  match value (2 * String.length text + 2) text with
  | Some (v, rest) =>
      match skipSpace rest with
      | EmptyString => OK v
      | _ => Throw (SyntaxError "Unexpected non-whitespace character after JSON")
      end
  | None => Throw (SyntaxError "Unexpected token in JSON")
  end.

(** [x < 10^n] and the floor of [x / 10^n], for the rational [x = num / den]. *)
Definition belowPow10 (num den n : Z) : bool :=
  if (0 <=? n)%Z then (num <? 10 ^ n * den)%Z else (num * 10 ^ (- n) <? den)%Z.

Definition floorScaled (num den n : Z) : Z :=
  if (0 <=? n)%Z then (num / (den * 10 ^ n))%Z else (num * 10 ^ (- n) / den)%Z.

(** The least [n] from [n] upwards with [x < 10^n]. *)
Fixpoint magnitude (fuel : nat) (num den n : Z) : Z :=
  match fuel with
  | O => n
  | S fuel' => if belowPow10 num den n then n else magnitude fuel' num den (n + 1)
  end.

Fixpoint stripZeros (fuel : nat) (digits scale : Z) : Z * Z :=
  match fuel with
  | O => (digits, scale)
  | S fuel' =>
      if (digits mod 10 =? 0)%Z then stripZeros fuel' (digits / 10) (scale + 1)
      else (digits, scale)
  end.

(** The shortest decimal [digits * 10^scale] that converts back to the
    float [m * 2^e], trying [k = 1, 2, ...] significant digits; of the two
    candidates around the value, the nearer one. *)
Fixpoint shortest (ks : list Z) (x : float) (num den n : Z) : Z * Z :=
  match ks with
  | [] => (0, 0)%Z
  | k :: ks' =>
      let scale := (n - k)%Z in
      let lo := floorScaled num den scale in
      let hi := (lo + 1)%Z in
      let back c := PrimFloat.eqb (decimalToFloat false c scale) x in
      let twice := floorScaled (2 * num) den scale in
      let upper := (2 * lo + 1 <=? twice)%Z in
      match back lo, back hi with
      | true, true => if upper then (hi, scale) else (lo, scale)
      | true, false => (lo, scale)
      | false, true => (hi, scale)
      | false, false => shortest ks' x num den n
      end
  end.

Definition zeros (n : Z) : string := string_of_list_ascii (replicate (Z.to_nat n) "0"%char).

Definition decimal (n : Z) : string := NilZero.string_of_uint (N.to_uint (Z.to_N n)).

(** The text of the number whose [k] significant digits are [digits] and
    whose decimal point stands after [n] of them. *)
Definition layout (digits : string) (n : Z) : string :=
  let k := Z.of_nat (String.length digits) in
  if (k <=? n)%Z && (n <=? 21)%Z then digits ++ zeros (n - k)
  else if (0 <? n)%Z && (n <=? 21)%Z then
    substring 0 (Z.to_nat n) digits ++ "." ++ substring (Z.to_nat n) (Z.to_nat (k - n)) digits
  else if (-6 <? n)%Z && (n <=? 0)%Z then "0." ++ zeros (- n) ++ digits
  else
    let exponent := ((if (0 <=? n - 1)%Z then "+" else "-") ++ decimal (Z.abs (n - 1))) in
    if (k =? 1)%Z then digits ++ "e" ++ exponent
    else substring 0 1 digits ++ "." ++ substring 1 (Z.to_nat (k - 1)) digits
         ++ "e" ++ exponent.

Definition Number_toString (x : float) : string :=
  match Prim2SF x with
  | S754_nan => "NaN"
  | S754_zero _ => "0"
  | S754_infinity negative => if negative then "-Infinity" else "Infinity"
  | S754_finite negative m e =>
      let num := if (0 <=? e)%Z then (Zpos m * 2 ^ e)%Z else Zpos m in
      let den := if (0 <=? e)%Z then 1%Z else (2 ^ (- e))%Z in
      let estimate := ((Z.log2 num - Z.log2 den - 1) * 30103 / 100000 - 1)%Z in
      let n := magnitude 8 num den estimate in
      let (digits, scale) :=
        let (d, s) := shortest (map Z.of_nat (seq 1 17)) (PrimFloat.abs x) num den n in
        stripZeros 400 d s in
      let text := decimal digits in
      (if negative then "-" else "") ++ layout text (Z.of_nat (String.length text) + scale)
  end.

(** [path.join] of a normalized directory path and an entry name. *)
Definition path_join (directory name : string) : string :=
  if Str.isEmpty directory then name
  else if Str.endsWith directory "/" then directory ++ name
  else directory ++ "/" ++ name.

End Reference.

Definition reference_host : Host :=
  {| JSON_parse := Reference.JSON_parse;
     Number_toString := Reference.Number_toString;
     path_join := Reference.path_join;
     DEFAULT_GEMINI_MODEL := "gemini-2.5-pro";
     DEFAULT_THINKING_MODE := (-1)%float;
     stack_depth := 4096 |}.


(* ================================================================== *)
(** ** The sample document of [markdown-loader.test.ts] *)

(** A text written with ['] where the document has a double quote. *)
Definition quoted (s : string) : string :=
  string_of_list_ascii
    (map (fun c => if Ascii.eqb c "'" then "034"%char else c) (list_ascii_of_string s)).

Definition SAMPLE_MARKDOWN : string := quoted "# Agent: Code Cartographer

## Summary
Maps and interprets complex source trees to explain architecture and highlight change impacts.

## Persona
Direct, methodical, and relentlessly curious about hidden dependencies.

## Guidelines
- Always cite file paths when referencing code.
- Verify assumptions by opening source files instead of guessing.
- Prefer breadth-first exploration before deep dives.

## Inputs
```json
[
  {
    'name': 'objective',
    'type': 'string',
    'required': true,
    'description': 'Goal describing the investigation focus.'
  },
  {
    'name': 'hints',
    'type': 'string[]',
    'required': false,
    'description': 'Optional clues such as errors, stack traces, or suspected modules.'
  }
]
```

## Output
```json
{
  'name': 'report',
  'type': 'json',
  'description': 'Structured findings containing summary, affected files, and rationale.',
  'schema': {
    'type': 'object',
    'properties': {
      'Summary': { 'type': 'string' },
      'AffectedAreas': {
        'type': 'array',
        'items': {
          'type': 'object',
          'properties': {
            'File': { 'type': 'string' },
            'Reason': { 'type': 'string' }
          },
          'required': ['File', 'Reason']
        }
      }
    },
    'required': ['Summary', 'AffectedAreas']
  }
}
```

## Tools
```json
['read_file', 'ls', 'glob', 'grep', 'web_fetch']
```

## MCP
```json
['github']
```

## Model
```json
{
  'model': 'gemini-2.5-pro-exp',
  'temperature': 0.1,
  'top_p': 0.8,
  'thinkingBudget': 180
}
```

## Run Config
```json
{
  'max_time_minutes': 7,
  'max_turns': 14
}
```

## Query
Investigate the repository to explain how ${objective}. Include any details from ${hints} when prioritizing files.

## System Prompt
You are Code Cartographer, a senior codebase analyst. Maintain a neutral tone, cite evidence, and document trade-offs. Focus on building a holistic architecture map before suggesting changes.
".

(* ================================================================== *)
(** ** Replacing a text by a text

    [String.prototype.replace] and [replaceAll] with a string pattern.  The
    replacement is a template: GetSubstitution expands [$$], [$&], [$`] and
    [$'] in it; a string pattern has no captures, so [$1] and [$<name>] stay
    as they are. *)

Module Text.

Fixpoint GetSubstitution (matched before after template : string) : string :=
  match template with
  | EmptyString => EmptyString
  | String c r =>
      if Ascii.eqb c "$" then
        match r with
        | String d r' =>
            if Ascii.eqb d "$" then String "$" (GetSubstitution matched before after r')
            else if Ascii.eqb d "&" then matched ++ GetSubstitution matched before after r'
            else if Ascii.eqb d "`" then before ++ GetSubstitution matched before after r'
            else if Ascii.eqb d "'" then after ++ GetSubstitution matched before after r'
            else String c (GetSubstitution matched before after r)
        | EmptyString => String c EmptyString
        end
      else String c (GetSubstitution matched before after r)
  end.

(** StringIndexOf: the first position at or after [i] where [needle] starts. *)
Fixpoint indexOf (needle s : string) (i : nat) : option nat :=
  if String.prefix needle s then Some i
  else match s with
       | String _ s' => indexOf needle s' (S i)
       | EmptyString => None
       end.

(** What follows position [from] in [s]. *)
Definition tail (from : nat) (s : string) : string :=
  substring from (String.length s - from) s.

(** The expansion of the template [by_] for the match at [position]. *)
Definition substitution (needle by_ s : string) (position : nat) : string :=
  GetSubstitution needle (substring 0 position s)
    (tail (position + String.length needle) s) by_.

(** [s.replace(needle, by)]: the first occurrence is replaced. *)
Definition replace (s needle by_ : string) : string :=
  match indexOf needle s 0 with
  | None => s
  | Some position =>
      substring 0 position s ++ substitution needle by_ s position
      ++ tail (position + String.length needle) s
  end.

(** The positions [replaceAll] finds: after a match the search resumes
    [max(1, needle.length)] further. *)
Fixpoint positions (needle : string) (skip : nat) (i : nat) (s : string) : list nat :=
  match skip with
  | S n =>
      match s with
      | String _ s' => positions needle n (S i) s'
      | EmptyString => []
      end
  | O =>
      if String.prefix needle s then
        i :: match s with
             | String _ s' =>
                 positions needle (Nat.max 1 (String.length needle) - 1) (S i) s'
             | EmptyString => []
             end
      else match s with
           | String _ s' => positions needle 0 (S i) s'
           | EmptyString => []
           end
  end.

Fixpoint assemble (needle by_ s : string) (endOfLastMatch : nat) (matchPositions : list nat)
    : string :=
  match matchPositions with
  | [] => tail endOfLastMatch s
  | p :: later =>
      Str.slice endOfLastMatch p s ++ substitution needle by_ s p
      ++ assemble needle by_ s (p + String.length needle) later
  end.

(** [s.replaceAll(needle, by)]. *)
Definition replaceAll (s needle by_ : string) : string :=
  assemble needle by_ s 0 (positions needle 0 0 s).

End Text.

(* ================================================================== *)
(** ** Regular expressions with an alternative

    [slugify] uses a pattern [r1|r2] that is a disjunction as a whole.  At a
    position the alternatives are tried in order, and since nothing follows
    the disjunction, the first alternative that matches gives the match. *)

Definition attemptEither (fl : Flags) (r1 r2 : Regex) (i : nat) (p : option ascii)
    (s : string) : option Match :=
  match attempt fl r1 i p s with
  | Some m => Some m
  | None => attempt fl r2 i p s
  end.

(** [scan] for a pattern given by what an attempt at a position gives. *)
Fixpoint scanWith (attemptAt : nat -> option ascii -> string -> option Match)
    (skip : nat) (i : nat) (p : option ascii) (s : string) : list Match :=
  match skip with
  | S n =>
      match s with
      | String c s' => scanWith attemptAt n (S i) (Some c) s'
      | EmptyString => []
      end
  | O =>
      match attemptAt i p s with
      | Some m =>
          m :: match s with
               | String c s' =>
                   scanWith attemptAt (String.length (m_text m) - 1) (S i) (Some c) s'
               | EmptyString => []
               end
      | None =>
          match s with
          | String c s' => scanWith attemptAt 0 (S i) (Some c) s'
          | EmptyString => []
          end
      end
  end.

(** [s.replace(/r1|r2/g, by)]. *)
Definition String_replaceAllEither (fl : Flags) (r1 r2 : Regex) (s by_ : string) : string :=
  splice s 0 (scanWith (attemptEither fl r1 r2) 0 0 None s) by_.

(* ================================================================== *)
(** ** The commands and the tool that come with the loader

    What a command does is a list of effects, in order, and how it ended.
    The types of [@google/genai] are records with the fields that are read
    or filled. *)

Inductive Effect :=
| Mkdir (path : string)                   (* [mkdir(path, { recursive: true })] *)
| WriteFile (path content : string)       (* [writeFile(path, content)] *)
| ConsoleLog (line : string)
| ConsoleError (line : string)
| Exit (code : nat)                       (* [process.exit(code)] *).

Definition Run (A : Type) : Type := list Effect * Result A.

Module Part.
Record t := { text : option string }.
End Part.

Module Content.
Record t := { role : option string; parts : option (list Part.t) }.
End Content.

Module GenerateContentConfig.
Record t := { temperature : float; topP : float; maxOutputTokens : float }.
End GenerateContentConfig.

Module Candidate.
Record t := { content : option Content.t }.
End Candidate.

Module GenerateContentResponse.
Record t := { candidates : option (list Candidate.t) }.
End GenerateContentResponse.

(** The [Config] of a session, by what its methods answer. *)
Module Config.
Record t := {
  initialize : Result unit;
  refreshAuth : string -> Result unit;
  (** [getContentGeneratorConfig()?.authType] *)
  authType : option string;
  getModel : string;
  (** [getGeminiClient().generateContent(contents, config, signal, model)],
      then [getResponseText] of the response. *)
  generateContent :
    list Content.t -> GenerateContentConfig.t -> string -> Result (option string);
}.
End Config.

(** What a command gets from the process, the file system and the modules
    of the CLI. *)
Record Cli := {
  cwd : string;                                 (* [process.cwd()] *)
  path_resolve : string -> string -> string;    (* [path.resolve(from, to)] *)
  getGlobalAgentsDir : string;                  (* [Storage.getGlobalAgentsDir()] *)
  access : string -> Result unit;               (* [access(path, F_OK)] *)
  mkdir : string -> Result unit;
  writeFile : string -> string -> Result unit;
  Date_now : float;
  (** [settings.merged.security?.auth?.selectedType] of [loadSettings(cwd)]. *)
  loadSettings : Result (option string);
  (** [loadExtensions] and [loadCliConfig] with the arguments of the command. *)
  loadCliConfig : Result Config.t;
  USE_GEMINI : string;                          (* [AuthType.USE_GEMINI] *)
}.

(* ================================================================== *)
(** ** [generate-agent]: [packages/cli/src/commands/generate-agent.ts] *)

(** A code unit above 255 cannot be written in a [string]: the two literals
    of the command that hold one carry it as its UTF-8 bytes. *)
Definition RIGHT_QUOTE : string := String "226" (String "128" (String "153" "")). (* U+2019 *)
Definition SPARKLES : string := String "226" (String "156" (String "168" "")).    (* U+2728 *)

Definition PROMPT_TEMPLATE : string := Str.join nl [
  "You are an expert AI agent architect. Your job is to translate the user's idea into a complete Markdown specification for a specialized subagent.";
  "";
  "Agent Name: {{AGENT_NAME}}";
  "Agent Concept: {{USER_IDEA}}";
  "";
  "Return ONLY valid Markdown that follows **exactly** the structure shown below. Do not add explanations, front matter, or trailing commentary. Fill in every section and replace every placeholder such as <...> with concrete content tailored to this agent. All JSON code blocks must contain strictly valid JSON with values that match the agent concept.";
  "";
  "# Agent: {{AGENT_NAME}}";
  "";
  "## Summary";
  "<2-4 sentence overview describing the agent's purpose and strengths.>";
  "";
  "## Persona";
  "<Describe the tone, style, and decision-making personality of the agent.>";
  "";
  "## Guidelines";
  "- <Concrete rule the agent must always follow>";
  "- <Another actionable rule>";
  "- <Add more bullets as needed>";
  "";
  "## Inputs";
  "```json";
  "[";
  "  {";
  quoted "    'name': 'objective',";
  quoted "    'type': 'string',";
  quoted "    'required': true,";
  quoted "    'description': 'Concise but detailed statement of the user goal the agent should accomplish.'";
  "  }";
  "]";
  "```";
  quoted "- Include every input the agent needs. Allowed types: 'string', 'number', 'boolean', 'integer', 'string[]', 'number[]'.";
  "";
  "## Output";
  "```json";
  "{";
  quoted "  'name': 'report',";
  quoted "  'type': 'json',";
  quoted "  'description': 'What the calling agent receives at completion.',";
  quoted "  'schema': {";
  quoted "    'type': 'object',";
  quoted "    'properties': {";
  quoted "      'Summary': { 'type': 'string' },";
  quoted "      'Insights': { 'type': 'array', 'items': { 'type': 'string' } }";
  "    },";
  quoted "    'required': ['Summary', 'Insights']";
  "  }";
  "}";
  "```";
  quoted "- If the agent should return free-form text, set 'type' to 'text' and omit the schema field.";
  "";
  "## Tools";
  "```json";
  quoted "['read_file', 'ls', 'glob', 'grep', 'web_fetch', 'web_search', 'write_file', 'shell']";
  "```";
  "- Provide only tool identifiers that exist in the Coco CLI. Remove or add tools as needed to fit the agent"
    ++ RIGHT_QUOTE ++ "s responsibilities.";
  "";
  "## MCP";
  "```json";
  quoted "['github', 'jira']";
  "```";
  "- List MCP server identifiers the agent can rely on. Use an empty array ([]) if none are needed.";
  "";
  "## Model";
  "```json";
  "{";
  quoted "  'model': 'gemini-2.5-pro',";
  quoted "  'temperature': 0.25,";
  quoted "  'top_p': 0.9,";
  quoted "  'thinkingBudget': 120";
  "}";
  "```";
  "- Adjust values to match the agent's needs. Leave numbers as plain JSON numbers.";
  "";
  "## Run Config";
  "```json";
  "{";
  quoted "  'max_time_minutes': 6,";
  quoted "  'max_turns': 12";
  "}";
  "```";
  "";
  "## Query";
  "<Write the kick-off user message template. Reference inputs using ${input_name} syntax.>";
  "";
  "## System Prompt";
  "<Authoritative instructions that combine the persona, guidelines, tooling expectations, and goal for the agent.>";
  "";
  "The response must be valid Markdown and every JSON block must be strictly valid JSON."
].

Module GenerateAgentArgs.
Record t := {
  name : string;
  prompt : string;
  directory : option string;
  overwrite : bool;
  global : bool;
}.
End GenerateAgentArgs.

(** [a-z0-9] *)
Definition lowerAlnum (c : ascii) : bool :=
  ((97 <=? Str.code c)%nat && (Str.code c <=? 122)%nat)
  || ((48 <=? Str.code c)%nat && (Str.code c <=? 57)%nat).

(** [/[^a-z0-9]+/g] *)
Definition NON_ALNUM_REGEX : Regex := cat [plus (fun c => negb (lowerAlnum c))].

(** [/^-+|-+$/g], its two alternatives. *)
Definition LEADING_HYPHENS_REGEX : Regex := cat [Bol; plus (only "-")].
Definition TRAILING_HYPHENS_REGEX : Regex := cat [plus (only "-"); Eol].

Definition alreadyExists (outputPath : string) : Exn :=
  Error ("Agent file already exists at " ++ outputPath
         ++ ". Use --overwrite to replace it.").

Definition notInitialized : Exn :=
  Error "Content generator is not initialized. Configure authentication (e.g., `coco auth login`) before generating agents.".

Definition noContent : Exn := Error "The language model did not return any content.".

Definition buildPrompt (template name idea : string) : string :=
  Text.replaceAll (Text.replaceAll template "{{AGENT_NAME}}" name) "{{USER_IDEA}}" idea.

Definition formatMarkdown (markdown : string) : string :=
  let trimmed := Str.trim markdown in
  if Str.endsWith trimmed nl then trimmed else trimmed ++ nl.

Section GenerateAgent.

Variable rt : Host.
Variable cli : Cli.

Definition slugify (name : string) : string :=
  let normalized :=
    String_replaceAllEither flags_g LEADING_HYPHENS_REGEX TRAILING_HYPHENS_REGEX
      (String_replaceAll flags_g NON_ALNUM_REGEX (Str.toLowerCase name) "-") "" in
  if (0 <? String.length normalized)%nat then normalized
  else "agent-" ++ Number_toString rt (Date_now cli).

Definition resolveDestinationDirectory (args : GenerateAgentArgs.t) : string :=
  if GenerateAgentArgs.global args then getGlobalAgentsDir cli
  else if JS.nonEmpty (GenerateAgentArgs.directory args)
       then path_resolve cli (cwd cli) (default "" (GenerateAgentArgs.directory args))
       else path_resolve cli (cwd cli) "agents".

Definition fileExists (filePath : string) : bool :=
  match access cli filePath with
  | OK _ => true
  | Throw _ => false
  end.

#[warnings="-inexact-float"]
Definition handleGenerateAgent (args : GenerateAgentArgs.t) : Run unit :=
  let agentName := Str.trim (GenerateAgentArgs.name args) in
  let userPrompt := Str.trim (GenerateAgentArgs.prompt args) in
  if Str.isEmpty agentName then ([], Throw (Error "Agent name cannot be empty."))
  else if Str.isEmpty userPrompt then ([], Throw (Error "Prompt cannot be empty."))
  else
    let destinationDirectory := resolveDestinationDirectory args in
    let slug := slugify agentName in
    let fileName := slug ++ ".agent.md" in
    let outputPath := path_join rt destinationDirectory fileName in
    if negb (GenerateAgentArgs.overwrite args) && fileExists outputPath
    then ([], Throw (alreadyExists outputPath))
    else
      (* up to the validation of the markdown the command performs no effect *)
      match
        selectedType ← loadSettings cli;
        config ← loadCliConfig cli;
        _ ← Config.initialize config;
        let selectedAuthType := default (USE_GEMINI cli) selectedType in
        _ ← Config.refreshAuth config selectedAuthType;
        if negb (JS.nonEmpty (Config.authType config)) then Throw notInitialized
        else
          let contents :=
            [ {| Content.role := Some "user";
                 Content.parts :=
                   Some [ {| Part.text :=
                               Some (buildPrompt PROMPT_TEMPLATE agentName userPrompt) |} ] |} ] in
          let generationConfig :=
            {| GenerateContentConfig.temperature := 0.25;
               GenerateContentConfig.topP := 0.9;
               GenerateContentConfig.maxOutputTokens := 8192 |} in
          let modelName := Config.getModel config in
          let model :=
            if String.eqb modelName "auto" then DEFAULT_GEMINI_MODEL rt else modelName in
          response ← Config.generateContent config contents generationConfig model;
          let rawMarkdown := Str.trim <$> response in
          if negb (JS.nonEmpty rawMarkdown) then Throw noContent
          else
            let rawMarkdown := default "" rawMarkdown in
            _ ← parseAgentMarkdown rt rawMarkdown "generated agent";
            OK rawMarkdown
      with
      | Throw e => ([], Throw e)
      | OK rawMarkdown =>
          match mkdir cli destinationDirectory with
          | Throw e => ([], Throw e)
          | OK _ =>
              match writeFile cli outputPath (formatMarkdown rawMarkdown) with
              | Throw e => ([Mkdir destinationDirectory], Throw e)
              | OK _ =>
                  ([ Mkdir destinationDirectory;
                     WriteFile outputPath (formatMarkdown rawMarkdown);
                     ConsoleLog (SPARKLES ++ " Created agent " ++ Str.dq ++ agentName
                                 ++ Str.dq ++ " at " ++ outputPath);
                     ConsoleLog "Reload the CLI or run `/memory refresh` so the new agent is discovered." ],
                   OK tt)
              end
          end
      end.

(** The handler of the command. *)
Definition generateAgentCommand (argv : GenerateAgentArgs.t) : list Effect :=
  match handleGenerateAgent argv with
  | (effects, OK _) => app effects [Exit 0]
  | (effects, Throw error) =>
      let message := exn_message error in
      app effects [ConsoleError ("Failed to generate agent: " ++ message); Exit 1]
  end.

End GenerateAgent.

(* ================================================================== *)
(** ** [agent init]: [packages/cli/src/commands/agent.ts] *)

Definition AGENT_TEMPLATE : string :=
  "import { Context, Tool, defineAgent } from '@google/generative-ai/server_beta';

export const agent = defineAgent({
  async onTurn(context: Context) {
    // Your agent logic here
    return " ++ Str.dq ++ "I am a new agent." ++ Str.dq ++ ";
  },
});
".

Definition TOML_TEMPLATE : string := quoted "[agent]
mission = '{mission}'
tools = []
".

Definition AGENT_CONFIG_FILENAME : string := "coco-agent.toml".
Definition AGENT_SCRIPT_FILENAME : string := "index.js".

Module AgentInitArgs.
Record t := { dir : string; mission : string }.
End AgentInitArgs.

Section AgentInit.

Variable rt : Host.
Variable cli : Cli.

Definition getAgentConfigPath (dir : string) : string :=
  path_join rt dir AGENT_CONFIG_FILENAME.

Definition getAgentScriptPath (dir : string) : string :=
  path_join rt dir AGENT_SCRIPT_FILENAME.

(** The handler of [initCommand]; [path.resolve(dir)] resolves against the
    working directory. *)
Definition initCommand (args : AgentInitArgs.t) : Run unit :=
  let absoluteDir := path_resolve cli (cwd cli) (AgentInitArgs.dir args) in
  let configPath := getAgentConfigPath absoluteDir in
  let scriptPath := getAgentScriptPath absoluteDir in
  let config := Text.replace TOML_TEMPLATE "{mission}" (AgentInitArgs.mission args) in
  let started := [ConsoleLog ("Initializing agent in " ++ absoluteDir)] in
  match mkdir cli absoluteDir with
  | Throw e => (started, Throw e)
  | OK _ =>
      match writeFile cli configPath config with
      | Throw e => (app started [Mkdir absoluteDir], Throw e)
      | OK _ =>
          match writeFile cli scriptPath AGENT_TEMPLATE with
          | Throw e => (app started [Mkdir absoluteDir; WriteFile configPath config], Throw e)
          | OK _ =>
              (app started
                 [ Mkdir absoluteDir;
                   WriteFile configPath config;
                   WriteFile scriptPath AGENT_TEMPLATE;
                   ConsoleLog "Agent initialized successfully!";
                   ConsoleLog ("- Agent configuration: " ++ configPath);
                   ConsoleLog ("- Agent script: " ++ scriptPath) ],
               OK tt)
          end
      end
  end.

End AgentInit.

(* ================================================================== *)
(** ** The planning tool: [packages/core/src/tools/mcp-sequential-thinking.ts] *)

(** An event of the stream of [GeminiChat.sendMessageStream]: a chunk of the
    response, or another event. *)
Inductive StreamEvent :=
| Chunk (value : GenerateContentResponse.t)
| Retry.

Module FunctionCall.
Record t := { name : option string; args : option (list (string * json)) }.
End FunctionCall.

(** The chat the tool finds in [this]: the events the stream of a message
    yields, or the exception the call or the iteration throws. *)
Module GeminiChat.
Record t := {
  sendMessageStream : string -> list Part.t -> string -> Result (list StreamEvent);
}.
End GeminiChat.

(** What the tool gets from where it runs. *)
Module Runtime.
Record t := {
  config : option Config.t;          (* [this.config] *)
  chat : option GeminiChat.t;        (* [this.chat] *)
  getStore : option string;          (* [promptIdContext.getStore()] *)
}.
End Runtime.

(** The answer [[{ text: words }]]. *)
Definition say (words : string) : list Part.t := [ {| Part.text := Some words |} ].

Definition planningPrompt (query : string) : string :=
  "
You are a planning expert. Your task is to take a user's request and break it down into a clear, step-by-step plan.

**User Request:** " ++ Str.dq ++ query ++ Str.dq ++ "

**Instructions:**
1.  Analyze the request and create a sequential plan to accomplish it.
2.  The final step of the plan should always be to call the 'complete_task' tool.
3.  For any steps that require understanding code, libraries, or documentation, you MUST use the 'context7' tool. The 'context7' tool can search for documentation programmatically.
4.  Output the plan as a numbered list.

Example Plan:
1. Use 'context7' to find the documentation for the 'AgentExecutor' class.
2. Read the 'run' method to understand the execution loop.
3. Propose a code modification to insert a planning step.
4. Call 'complete_task' with the final summary.
".

(** [chunk.candidates?.[0]?.content?.parts?.filter((p) => p.text)
      .map((p) => p.text).join('') || ''] *)
Definition chunkText (chunk : GenerateContentResponse.t) : string :=
  JS.orElse
    (candidates ← GenerateContentResponse.candidates chunk;
     first ← head candidates;
     content ← Candidate.content first;
     parts ← Content.parts content;
     Some (Str.join ""
             (omap (fun p : Part.t => if JS.nonEmpty (Part.text p) then Part.text p else None)
                parts)))
    "".

Definition callTool (rt : Host) (this : Runtime.t) (functionCalls : option (list FunctionCall.t))
    : Result (list Part.t) :=
  match functionCalls with
  | None | Some [] =>
      OK (say "Error: No function call provided for sequential_thinking tool.")
  | Some (call :: _) =>
      match FunctionCall.args call with
      | None => OK (say "Error: No arguments provided for sequential_thinking tool.")
      | Some args =>
          match JS.assoc "query" args with
          | None => OK (say "Error: Missing query for sequential_thinking tool.")
          | Some query =>
              if negb (JS.truthy query)
              then OK (say "Error: Missing query for sequential_thinking tool.")
              else
                match Runtime.config this, Runtime.chat this with
                | Some currentConfig, Some currentChat =>
                    query ← ToString rt query;
                    let planningMessage :=
                      {| Content.role := Some "user";
                         Content.parts := Some [ {| Part.text := Some (planningPrompt query) |} ]
                      |} in
                    let promptId := JS.orElse (Runtime.getStore this) "sequential-thinking-plan" in
                    responseStream ←
                      GeminiChat.sendMessageStream currentChat (Config.getModel currentConfig)
                        (default [] (Content.parts planningMessage)) (promptId ++ "-plan");
                    let textResponse :=
                      foldl (fun (textResponse : string) (resp : StreamEvent) =>
                               match resp with
                               | Chunk chunk =>
                                   let text := chunkText chunk in
                                   if negb (Str.isEmpty text) then textResponse ++ text
                                   else textResponse
                               | _ => textResponse
                               end)
                        "" responseStream in
                    OK (say ("Okay, I have a plan:" ++ nl ++ textResponse))
                | _, _ =>
                    OK (say "Error: Sequential thinking tool requires a valid runtime configuration and chat object.")
                end
          end
      end
  end.

(* ================================================================== *)
(** ** The vocabulary of the specification

    What the statements below say about a document, a section, an input or
    a directory entry, defined on the loader's own intermediate results. *)

(** A pattern that sets the group on every path through it. *)
Fixpoint captures (r : Regex) : bool :=
  match r with
  | Group _ => true
  | Seq r1 r2 => captures r1 || captures r2
  | _ => false
  end.

(** A string none of whose characters is in the class. *)
Fixpoint avoids (cls : ascii -> bool) (s : string) : bool :=
  match s with
  | String c r => negb (cls c) && avoids cls r
  | EmptyString => true
  end.

(** A string whose first character is in the class. *)
Definition startsIn (cls : ascii -> bool) (s : string) : bool :=
  match s with
  | String c _ => cls c
  | EmptyString => false
  end.

(** The state after the characters of [taken]. *)
Fixpoint advance (i : nat) (p : option ascii) (taken : string) : nat * option ascii :=
  match taken with
  | String c r => advance (S i) (Some c) r
  | EmptyString => (i, p)
  end.

(** *** The heading that names the agent *)







(** The lines of a document, and the name its first heading captures. *)
Fixpoint lines (s : string) : list string :=
  match s with
  | EmptyString => [EmptyString]
  | String c r =>
      if Str.isLineTerminator c then EmptyString :: lines r
      else match lines r with
           | line :: later => String c line :: later
           | [] => [String c EmptyString]
           end
  end.







(** *** The structured sections *)

(** The structured sections, in the order [buildConfigFromSections] reads
    them. *)
Definition structuredSections : list string :=
  ["inputs"; "output"; "tools"; "mcp"; "model"; "run config"].

(** Whether [buildConfigFromSections] gets a value for the section [key]:
    the section is read, and its value passes the parser of the section. *)
Definition sectionAccepted (rt : Host) (sections : gmap string string)
    (source key : string) : bool :=
  if String.eqb key "inputs" then
    succeeded (parseJsonSection rt sections source key ≫= parseInputs)
  else if String.eqb key "output" then
    succeeded (parseJsonSection rt sections source key ≫= parseOutput)
  else if String.eqb key "tools" || String.eqb key "mcp" then
    succeeded (parseJsonSection rt sections source key ≫= parseStringArray rt)
  else if String.eqb key "model" then
    succeeded (parseJsonSection rt sections source key ≫= parseModel)
  else succeeded (parseJsonSection rt sections source key).

(** The keys of [keys] that come before [key]. *)
Fixpoint before (key : string) (keys : list string) : list string :=
  match keys with
  | [] => []
  | k :: rest => if String.eqb k key then [] else k :: before key rest
  end.

(** The name and the type an entry of the [## Inputs] array declares, as the
    loader reads them: trimmed, the type lower-cased as well; [None] when the
    property is absent or is not a string. *)
Definition declaredName (item : json) : option string :=
  match JS.member item "name" with
  | Some (JString s) => Some (Str.trim s)
  | _ => None
  end.

Definition declaredType (item : json) : option string :=
  match JS.member item "type" with
  | Some (JString s) => Some (Str.toLowerCase (Str.trim s))
  | _ => None
  end.

(** An entry that survives validation: its name is not empty and its type is
    one of the fixed set. *)
Definition survives (item : json) : bool :=
  JS.nonEmpty (declaredName item)
  && ALLOWED_INPUT_TYPES_has (default "" (declaredType item)).

(** The entry the definition records for an input. *)
Definition inputEntry (input : AgentInputSpec.t) : InputConfig.entry :=
  {| InputConfig.description := AgentInputSpec.description input;
     InputConfig.type := mapInputType (AgentInputSpec.type input);
     InputConfig.required := AgentInputSpec.required input |}.

Definition objectiveEntry : InputConfig.entry :=
  {| InputConfig.description := "Detailed description of the task to accomplish.";
     InputConfig.type := "string";
     InputConfig.required := JBool true |}.

(** The kinds of input a definition records. *)
Definition canonicalKinds : list string :=
  ["string"; "number"; "boolean"; "string[]"; "number[]"].

(** The value the JSON of the [## Run Config] section declares for a limit,
    if the JSON is an object that has the property. *)
Definition declaredLimit (run : option json) (field : string) : option json :=
  match run with
  | Some (JObject fields) => JS.assoc field fields
  | _ => None
  end.

(** A finite number strictly above zero. *)
Definition isPositiveFinite (n : float) : bool :=
  PrimFloat.is_finite n && PrimFloat.ltb 0 n.

(** The declared value when it is such a number. *)
Definition positiveFinite (v : option json) : option float :=
  match v with
  | Some (JNumber n) => if isPositiveFinite n then Some n else None
  | _ => None
  end.

(** The types [jsonSchemaToZod] knows. *)
Definition knownSchemaTypes : list string :=
  ["string"; "number"; "integer"; "boolean"; "array"; "object"].

(** A schema value [buildZodSchema] hands to [jsonSchemaToZod]: an object or
    an array; [undefined], [null] and the primitive values are not. *)
Definition isSchemaNode (schema : option json) : bool :=
  match schema with
  | Some (JArray _) | Some (JObject _) => true
  | _ => false
  end.

(** The schema and the output section of scenario C. *)
Definition scenarioC_schema : json :=
  JObject [("type", JString "object");
           ("properties", JObject [("a", JObject [("type", JString "string")])]);
           ("required", JArray [JString "a"])].

Definition scenarioC_output : json :=
  JObject [("type", JString "json"); ("schema", scenarioC_schema)].

(** The reference host with room for a single call of [jsonSchemaToZod]. *)
Definition shallow_host : Host :=
  {| JSON_parse := JSON_parse reference_host;
     Number_toString := Number_toString reference_host;
     path_join := path_join reference_host;
     DEFAULT_GEMINI_MODEL := DEFAULT_GEMINI_MODEL reference_host;
     DEFAULT_THINKING_MODE := DEFAULT_THINKING_MODE reference_host;
     stack_depth := 1 |}.

(** The entries the loader takes for agent specifications: the regular files
    whose name, lower-cased, ends in [.agent.md]. *)
Definition isAgentFile (entry : Dirent.t) : bool :=
  Dirent.isFile entry && Str.endsWith (Str.toLowerCase (Dirent.name entry)) ".agent.md".

(** Reading and parsing the file of an entry. *)
Definition loadFile (rt : Host) (fs : FileSystem) (directory : string) (entry : Dirent.t)
    : Result AgentDefinition.t :=
  let fullPath := path_join rt directory (Dirent.name entry) in
  content ← readFile fs fullPath;
  parseAgentMarkdown rt content fullPath.

(** The warning logged for an entry whose file failed to load. *)
Definition failureWarning (rt : Host) (directory : string) (entry : Dirent.t) (e : Exn)
    : string :=
  "[AgentRegistry] Failed to load agent from " ++ path_join rt directory (Dirent.name entry)
  ++ ": " ++ exn_message e.

(** The definitions of the agent files that load, and the warnings of those
    that do not, in the order of the entries. *)
Definition loadedDefinitions (rt : Host) (fs : FileSystem) (directory : string)
    (entries : list Dirent.t) : list AgentDefinition.t :=
  omap (fun entry =>
          match loadFile rt fs directory entry with
          | OK d => Some d
          | Throw _ => None
          end)
    (List.filter isAgentFile entries).

Definition loadWarnings (rt : Host) (fs : FileSystem) (directory : string)
    (entries : list Dirent.t) : list string :=
  omap (fun entry =>
          match loadFile rt fs directory entry with
          | OK _ => None
          | Throw e => Some (failureWarning rt directory entry e)
          end)
    (List.filter isAgentFile entries).

(** A file system with one directory, [agents], that holds the sample
    document, a note, a document without header, and a directory whose name
    ends in the suffix. *)
Definition example_fs : FileSystem :=
  {| readdir := fun directory =>
       if String.eqb directory "agents" then
         OK [ {| Dirent.name := "x.agent.md"; Dirent.isFile := true |};
              {| Dirent.name := "notes.txt"; Dirent.isFile := true |};
              {| Dirent.name := "broken.agent.md"; Dirent.isFile := true |};
              {| Dirent.name := "old.agent.md"; Dirent.isFile := false |} ]
       else Throw (SystemError "ENOENT" "ENOENT: no such file or directory, scandir");
     readFile := fun path =>
       if String.eqb path "agents/x.agent.md" then OK SAMPLE_MARKDOWN
       else if String.eqb path "agents/notes.txt" then OK "not an agent spec"
       else if String.eqb path "agents/broken.agent.md" then OK "## Summary"
       else Throw (SystemError "EISDIR" "EISDIR: illegal operation on a directory, read") |}.

(** *** The sections of a document *)

(** A heading and a body as [extractSections] stores them. *)
Definition normalised (heading body : string) : Prop :=
  Str.toLowerCase heading = heading /\ Str.trim heading = heading /\ Str.trim body = body.

(** The value the JSON of a section declares for a property, if the JSON is
    an object that has the property. *)
Definition declaredField (section : option json) (field : string) : option json :=
  match section with
  | Some (JObject fields) => JS.assoc field fields
  | _ => None
  end.

(** The text a declared value gives: a string, trimmed. *)
Definition declaredText (value : option json) : option string :=
  match value with
  | Some (JString s) => Some (Str.trim s)
  | _ => None
  end.

(** A section that is absent, or whose JSON is a falsy value. *)
Definition nothingDeclared (section : option json) : bool :=
  match section with
  | Some value => negb (JS.truthy value)
  | None => true
  end.

(** An output section that declares the type [json], in any case. *)
Definition declaresJson (section : option json) : bool :=
  match declaredField section "type" with
  | Some (JString type) => String.eqb (Str.toLowerCase type) "json"
  | _ => false
  end.

(** A value that is neither a string nor [null]. *)
Definition notText (value : json) : bool :=
  match value with
  | JString _ | JNull => false
  | _ => true
  end.

(** The fields of the structured sections that the loader reads as text. *)
Definition textFields : list (string * string) :=
  [("output", "name"); ("output", "type"); ("output", "description"); ("model", "model")].

(** An entry of a [## Tools] array that names no tool: [null], or a string
    that is blank. *)
Definition namesNothing (value : json) : bool :=
  match value with
  | JNull => true
  | JString s => Str.isEmpty (Str.trim s)
  | _ => false
  end.

(** A [## Tools] value that gives no tool: not an array, or an array none of
    whose entries names one. *)
Definition givesNoTool (value : option json) : bool :=
  match value with
  | Some (JArray items) => forallb namesNothing items
  | _ => true
  end.

Definition isTypeError (e : Exn) : bool :=
  match e with TypeError _ => true | _ => false end.

(** What an entry of the [## Inputs] array declares about being required,
    and its description. *)
Definition declaredRequired (item : json) : json :=
  JS.nullish (JS.member item "required") (JBool true).

Definition declaredDescription (item : json) : string :=
  default "" (declaredText (JS.member item "description")).

(** *** The system prompt *)

(** The parts of a system prompt the loader writes itself. *)
Definition introduction (role summary : option string) : string :=
  if JS.nonEmpty role || JS.nonEmpty summary
  then match role with
       | Some role => role
       | None => default "undefined" summary
       end ++ "."
  else "a specialized assistant.".

Definition personaBlock (persona : option string) : string :=
  match persona with
  | Some (String c r) => nl ++ nl ++ "Persona:" ++ nl ++ String c r
  | _ => ""
  end.

Definition guidelinesBlock (guidelines : option (list string)) : string :=
  match guidelines with
  | Some (line :: more) =>
      nl ++ nl ++ "Follow these guidelines:" ++ nl
      ++ Str.join nl (map (fun line => "- " ++ line) (line :: more))
  | _ => ""
  end.

Definition closingSentence : string :=
  "Think step-by-step, justify your reasoning, and provide actionable, concrete outputs.".

(** The system prompt of a document that has no [## System Prompt]. *)
Definition generatedPrompt (name : string) (role summary persona : option string)
    (guidelines : option (list string)) : string :=
  "You are **" ++ name ++ "**, " ++ introduction role summary
  ++ personaBlock persona ++ guidelinesBlock guidelines
  ++ nl ++ nl ++ closingSentence.

(** What [appendToolingContext] adds to a prompt. *)
Definition toolingContext (tools mcpServers : option (list string)) : string :=
  match tools, mcpServers with
  | Some (tool :: more), Some (server :: others) =>
      nl ++ nl ++ "You can invoke the following tools when needed: "
      ++ Str.join ", " (tool :: more) ++ "." ++ nl
      ++ "You have access to these MCP servers: " ++ Str.join ", " (server :: others)
      ++ ". Use them when they can provide better context or direct actions."
  | Some (tool :: more), _ =>
      nl ++ nl ++ "You can invoke the following tools when needed: "
      ++ Str.join ", " (tool :: more) ++ "."
  | _, Some (server :: others) =>
      nl ++ nl ++ "You have access to these MCP servers: "
      ++ Str.join ", " (server :: others)
      ++ ". Use them when they can provide better context or direct actions."
  | _, _ => ""
  end.

(** *** Schemas *)

(** How deep the objects and arrays of a value are nested. *)
Fixpoint nesting (value : json) : nat :=
  match value with
  | JArray items => S (foldr (fun item deepest => Nat.max (nesting item) deepest) 0 items)
  | JObject fields =>
      S (foldr (fun field deepest => Nat.max (nesting field.2) deepest) 0 fields)
  | _ => 0
  end.

Definition stackExhausted : Exn := RangeError "Maximum call stack size exceeded".

(** *** Slugs and file names *)

(** A slug: words of lower-case letters and digits, with one hyphen between
    two words. *)
Fixpoint isSlugAfter (hyphen : bool) (s : string) : bool :=
  match s with
  | EmptyString => negb hyphen
  | String c r =>
      if lowerAlnum c then isSlugAfter false r
      else Ascii.eqb c "-" && negb hyphen && isSlugAfter true r
  end.

Definition isSlug (s : string) : bool := isSlugAfter true s.

(** A name that has a letter of [a-z] or a digit once lower-cased. *)
Definition hasAlnum (name : string) : bool :=
  negb (avoids lowerAlnum (Str.toLowerCase name)).

(** The separators of a path. *)
Definition isSeparator (c : ascii) : bool := Ascii.eqb c "/" || Ascii.eqb c "\".

(** *** The commands *)

(** The file [generate-agent] writes for its arguments. *)
Definition outputPathOf (rt : Host) (cli : Cli) (args : GenerateAgentArgs.t) : string :=
  path_join rt (resolveDestinationDirectory cli args)
    (slugify rt cli (Str.trim (GenerateAgentArgs.name args)) ++ ".agent.md").

Definition isWrite (effect : Effect) : bool :=
  match effect with WriteFile _ _ => true | _ => false end.

(** What [generate-agent] asks the model: one message of the user, the
    template filled with the trimmed name and the trimmed prompt; the
    settings of the generation; and the model of the session, the default
    model standing for [auto]. *)
Definition requestOf (args : GenerateAgentArgs.t) : list Content.t :=
  [ {| Content.role := Some "user";
       Content.parts :=
         Some [ {| Part.text :=
                     Some (buildPrompt PROMPT_TEMPLATE
                             (Str.trim (GenerateAgentArgs.name args))
                             (Str.trim (GenerateAgentArgs.prompt args))) |} ] |} ].

#[warnings="-inexact-float"]
Definition generationSettings : GenerateContentConfig.t :=
  {| GenerateContentConfig.temperature := 0.25;
     GenerateContentConfig.topP := 0.9;
     GenerateContentConfig.maxOutputTokens := 8192 |}.

Definition modelOf (rt : Host) (config : Config.t) : string :=
  if String.eqb (Config.getModel config) "auto" then DEFAULT_GEMINI_MODEL rt
  else Config.getModel config.

(** The model answers [response] to the request of the command, in the
    session the command loads. *)
Definition modelAnswers (rt : Host) (cli : Cli) (args : GenerateAgentArgs.t)
    (response : string) : Prop :=
  exists config,
    loadCliConfig cli = OK config
    /\ Config.generateContent config (requestOf args) generationSettings (modelOf rt config)
       = OK (Some response).

(** The configuration [agent init] writes for a mission that holds no [$]. *)
Definition tomlFor (mission : string) : string :=
  "[agent]" ++ nl ++ "mission = " ++ Str.dq ++ mission ++ Str.dq ++ nl ++ "tools = []" ++ nl.

(** A session in which every step succeeds: the file exists or not, and the
    model answers [response]. *)
Definition example_cli (existing : bool) (response : option string) : Cli :=
  {| cwd := "/work";
     path_resolve := fun from to => from ++ "/" ++ to;
     getGlobalAgentsDir := "/home/user/.coco/agents";
     access := fun _ =>
       if existing then OK tt
       else Throw (SystemError "ENOENT" "ENOENT: no such file or directory, access");
     mkdir := fun _ => OK tt;
     writeFile := fun _ _ => OK tt;
     Date_now := 1730000000000;
     loadSettings := OK None;
     loadCliConfig :=
       OK {| Config.initialize := OK tt;
             Config.refreshAuth := fun _ => OK tt;
             Config.authType := Some "gemini-api-key";
             Config.getModel := "auto";
             Config.generateContent := fun _ _ _ => OK response |};
     USE_GEMINI := "gemini-api-key" |}.

(** *** The planning tool *)

(** The texts of the parts of the first candidate of a chunk that have one. *)
Definition textsOf (event : StreamEvent) : list string :=
  match event with
  | Chunk chunk =>
      match GenerateContentResponse.candidates chunk with
      | Some (first :: _) =>
          match Candidate.content first with
          | Some content =>
              omap (fun p : Part.t => if JS.nonEmpty (Part.text p) then Part.text p else None)
                (default [] (Content.parts content))
          | None => []
          end
      | _ => []
      end
  | Retry => []
  end.

(** The answer of the planning tool to a stream of events. *)
Definition planOf (events : list StreamEvent) : string :=
  "Okay, I have a plan:" ++ nl ++ Str.join "" (flat_map textsOf events).

(** The query of the function calls: the [query] of the arguments of the
    first call, when there is one that is truthy. *)
Definition queryOf (functionCalls : option (list FunctionCall.t)) : option json :=
  match functionCalls with
  | Some (call :: _) =>
      match FunctionCall.args call with
      | Some args =>
          match JS.assoc "query" args with
          | Some query => if JS.truthy query then Some query else None
          | None => None
          end
      | None => None
      end
  | _ => None
  end.

(** The answer of the tool when it finds no configuration or no chat. *)
Definition noRuntime : string :=
  "Error: Sequential thinking tool requires a valid runtime configuration and chat object.".

(** *** Replacing, without positions

    The functions the proofs compare [replace] with: a text rewritten from
    left to right. *)

(** The characters of the class only. *)
Definition within (cls : ascii -> bool) (s : string) : bool :=
  avoids (fun c => negb (cls c)) s.

(** The longest prefix of [s] in the class, and what follows it. *)
Fixpoint span (cls : ascii -> bool) (s : string) : string * string :=
  match s with
  | String c r => if cls c then let (run, after) := span cls r in (String c run, after)
                  else (EmptyString, s)
  | EmptyString => (EmptyString, EmptyString)
  end.

(** The text with every run of characters of the class replaced by [by_]. *)
Fixpoint replaceRuns (cls : ascii -> bool) (by_ : string) (inRun : bool) (s : string) : string :=
  match s with
  | EmptyString => EmptyString
  | String c r =>
      if cls c then (if inRun then replaceRuns cls by_ true r
                     else by_ ++ replaceRuns cls by_ true r)
      else String c (replaceRuns cls by_ false r)
  end.

(** The text without the characters of the class it ends with, and without
    those it starts with. *)
Fixpoint dropTrailing (cls : ascii -> bool) (s : string) : string :=
  match s with
  | EmptyString => EmptyString
  | String c r => if within cls (String c r) then EmptyString
                  else String c (dropTrailing cls r)
  end.

Fixpoint dropLeading (cls : ascii -> bool) (s : string) : string :=
  match s with
  | String c r => if cls c then dropLeading cls r else s
  | EmptyString => EmptyString
  end.

Definition notLowerAlnum (c : ascii) : bool := negb (lowerAlnum c).

(** The name once [slugify] has normalized it. *)
Definition normalizedName (name : string) : string :=
  dropTrailing (only "-") (dropLeading (only "-")
    (replaceRuns notLowerAlnum "-" false (Str.toLowerCase name))).

(** Letters of [a-z], digits and single hyphens. *)
Fixpoint hyphenated (hyphen : bool) (s : string) : bool :=
  match s with
  | EmptyString => true
  | String c r =>
      if lowerAlnum c then hyphenated false r
      else Ascii.eqb c "-" && negb hyphen && hyphenated true r
  end.

(** The text rewritten from left to right by a function that tells how many
    characters the match at a position takes. *)
Fixpoint rewriteWith (matchLength : nat -> option ascii -> string -> option nat)
    (by_ : string) (skip : nat) (i : nat) (p : option ascii) (s : string) : string :=
  match skip with
  | S n =>
      match s with
      | String c s' => rewriteWith matchLength by_ n (S i) (Some c) s'
      | EmptyString => EmptyString
      end
  | O =>
      match matchLength i p s with
      | Some taken =>
          by_ ++ match s with
                 | String c s' => rewriteWith matchLength by_ (taken - 1) (S i) (Some c) s'
                 | EmptyString => EmptyString
                 end
      | None =>
          match s with
          | String c s' => String c (rewriteWith matchLength by_ 0 (S i) (Some c) s')
          | EmptyString => EmptyString
          end
      end
  end.

(** The lengths of the matches of an attempt. *)
Definition matchLengthOf (attemptAt : nat -> option ascii -> string -> option Match)
    (i : nat) (p : option ascii) (s : string) : option nat :=
  (fun m => String.length (m_text m)) <$> attemptAt i p s.

Definition matched (i : nat) (taken : string) : Match :=
  {| m_index := i; m_text := taken; m_group := None |}.

(** The lengths of the matches of [cls+], and of [^cls+|cls+$]. *)
Definition runLength (cls : ascii -> bool) (i : nat) (p : option ascii) (s : string)
    : option nat :=
  if startsIn cls s then Some (String.length (span cls s).1) else None.

Definition edgeLength (cls : ascii -> bool) (i : nat) (p : option ascii) (s : string)
    : option nat :=
  match p with
  | None => if startsIn cls s then Some (String.length (span cls s).1) else None
  | Some _ => if startsIn cls s && within cls s then Some (String.length s) else None
  end.

(** The attempt of a text pattern at a position, and the length of its
    match. *)
Definition attemptText (needle : string) (i : nat) (p : option ascii) (s : string)
    : option Match :=
  if String.prefix needle s then Some (matched i needle) else None.

Definition textLength (needle : string) (i : nat) (p : option ascii) (s : string)
    : option nat :=
  if String.prefix needle s then Some (String.length needle) else None.

(** [needle] does not start where [s] starts, whatever follows [s]. *)
Fixpoint clash (needle s : string) : bool :=
  match needle, s with
  | String a needle', String b s' => if Ascii.eqb a b then clash needle' s' else true
  | _, _ => false
  end.

(** [needle] starts nowhere in [s], whatever follows [s]. *)
Fixpoint clearOf (needle s : string) : bool :=
  match s with
  | EmptyString => true
  | String c r => clash needle s && clearOf needle r
  end.


(* ================================================================== *)
(** * Properties *)

(** The expectations of the test [parses a well-formed agent specification]. *)
Example sample_parses :
  exists d, parseAgentMarkdown reference_host SAMPLE_MARKDOWN "test-agent" = OK d
    /\ AgentDefinition.name d = "Code Cartographer"
    /\ ModelConfig.model (AgentDefinition.modelConfig d) = "gemini-2.5-pro-exp"
    /\ RunConfig.max_time_minutes (AgentDefinition.runConfig d) = 7%float
    /\ RunConfig.max_turns (AgentDefinition.runConfig d) = 14%float
    /\ (ToolConfig.tools <$> AgentDefinition.toolConfig d)
       = Some ["read_file"; "ls"; "glob"; "grep"; "web_fetch"]
    /\ (InputConfig.type <$> InputConfig.inputs (AgentDefinition.inputConfig d) !! "objective")
       = Some "string"
    /\ (InputConfig.required <$> InputConfig.inputs (AgentDefinition.inputConfig d) !! "hints")
       = Some (JBool false).
Proof. vm_compute. eexists. repeat split. Qed.

(* ================================================================== *)
(** ** The error monad *)

Lemma bind_OK {A B} (m : Result A) (f : A -> Result B) (b : B) :
  m ≫= f = OK b <-> exists a, m = OK a /\ f a = OK b.
Proof.
  destruct m as [a|e]; cbn; split.
  - eauto.
  - intros (a' & [= <-] & H). exact H.
  - discriminate.
  - intros (a' & [=] & _).
Qed.

Lemma succeeded_true {A} (r : Result A) :
  succeeded r = true <-> exists a, r = OK a.
Proof.
  destruct r; cbn; split; eauto; try discriminate.
  intros (a' & [=]).
Qed.

(** Splits a hypothesis [m ≫= f = OK b] into its two steps. *)
Ltac bind_inv H :=
  let a := fresh "a" in
  let Ha := fresh "H" a in
  apply bind_OK in H; destruct H as (a & Ha & H).

Lemma mapM_OK {A B} (f : A -> Result B) (items : list A) (mapped : list B) :
  mapM f items = OK mapped -> Forall2 (fun x y => f x = OK y) items mapped.
Proof.
  revert mapped. induction items as [|x items IH]; intros mapped H; cbn in H.
  - injection H as <-. constructor.
  - bind_inv H. bind_inv H. injection H as <-. constructor; auto.
Qed.

Lemma forOf_OK_ext {A S} (f g : S -> A -> Result S) (items : list A) :
  (forall acc x acc', f acc x = OK acc' -> g acc x = OK acc') ->
  forall acc r, forOf f items acc = OK r -> forOf g items acc = OK r.
Proof.
  intros Hfg. induction items as [|x items IH]; intros acc r; cbn [forOf]; [auto|].
  destruct (f acc x) as [acc'|] eqn:E; [|discriminate].
  rewrite (Hfg _ _ _ E). apply IH.
Qed.

(* ================================================================== *)
(** ** Strings *)

Lemma isEmpty_false s : Str.isEmpty s = false <-> s <> "".
Proof. destruct s; cbn; split; congruence. Qed.

Lemma append_cons c a b : String c a ++ b = String c (a ++ b).
Proof. reflexivity. Qed.

Lemma length_app (a b : string) :
  String.length (a ++ b) = String.length a + String.length b.
Proof.
  induction a as [|c a IH]; [reflexivity|].
  rewrite append_cons. cbn [String.length]. by rewrite IH.
Qed.

Lemma substring_all s : substring 0 (String.length s) s = s.
Proof. induction s as [|c s IH]; cbn; [reflexivity|by rewrite IH]. Qed.

Lemma substring_skip p s : forall k,
  substring (String.length p) k (p ++ s) = substring 0 k s.
Proof.
  induction p as [|c p IH]; intros k; [reflexivity|].
  rewrite append_cons. cbn [String.length substring]. apply IH.
Qed.

Lemma substring_prefix a b : substring 0 (String.length a) (a ++ b) = a.
Proof.
  induction a as [|c a IH]; [by destruct b|].
  rewrite append_cons. cbn [String.length substring]. by rewrite IH.
Qed.

Lemma substring_cut s : forall n,
  n <= String.length s ->
  s = substring 0 n s ++ substring n (String.length s - n) s.
Proof.
  induction s as [|c s IH]; intros [|n] Hn; cbn [String.length substring] in *;
    try reflexivity; try lia.
  - change (String c s = String c (substring 0 (String.length s) s)).
    by rewrite substring_all.
  - rewrite append_cons, <- IH by lia. reflexivity.
Qed.

Lemma toLowerCase_app a b :
  Str.toLowerCase (a ++ b) = Str.toLowerCase a ++ Str.toLowerCase b.
Proof.
  induction a as [|c a IH]; [reflexivity|].
  change (String (Str.lowerChar c) (Str.toLowerCase (a ++ b))
          = String (Str.lowerChar c) (Str.toLowerCase a ++ Str.toLowerCase b)).
  by rewrite IH.
Qed.

Lemma toLowerCase_split s : forall a b,
  Str.toLowerCase s = a ++ b ->
  exists x y, s = x ++ y /\ Str.toLowerCase x = a /\ Str.toLowerCase y = b.
Proof.
  induction s as [|c s IH]; intros a b H.
  - destruct a; [|discriminate]. exists "", "". cbn in *. auto.
  - destruct a as [|c' a]; cbn in H.
    + exists "", (String c s). cbn. auto.
    + injection H as Hc H. apply IH in H as (x & y & -> & <- & <-).
      exists (String c x), y. cbn. by rewrite Hc.
Qed.

Lemma endsWith_iff s suffix :
  Str.endsWith s suffix = true <-> exists stem, s = stem ++ suffix.
Proof.
  unfold Str.endsWith. rewrite andb_true_iff, Nat.leb_le, String.eqb_eq. split.
  - intros [Hle Hsub].
    exists (substring 0 (String.length s - String.length suffix) s).
    pose proof (substring_cut s (String.length s - String.length suffix)) as Hcut.
    replace (String.length s - (String.length s - String.length suffix))
      with (String.length suffix) in Hcut by lia.
    rewrite Hsub in Hcut. apply Hcut. lia.
  - intros (stem & ->). rewrite length_app. split; [lia|].
    replace (String.length stem + String.length suffix - String.length suffix)
      with (String.length stem) by lia.
    rewrite substring_skip. apply substring_all.
Qed.

(* ================================================================== *)
(** ** Regular expressions *)

(** *** The capture group takes part in every match *)

Lemma repeat_keeps_group cls greedy s : forall min i p g k y,
  repeat cls greedy min i p s g k = Some y ->
  exists z, k z = Some y /\ group z = g.
Proof.
  induction s as [|c s IH]; intros min i p g k y H; cbn in H.
  - destruct min; [|discriminate].
    destruct greedy; [|destruct (k _) eqn:E]; eauto; try discriminate.
    injection H as <-. eauto.
  - destruct min as [|min].
    + destruct greedy.
      * destruct (cls c).
        -- destruct (repeat cls true _ _ _ s g k) eqn:E.
           ++ injection H as <-. eapply IH; eauto.
           ++ eauto.
        -- eauto.
      * destruct (k _) eqn:E.
        -- injection H as <-. eauto.
        -- destruct (cls c); [eapply IH; eauto|discriminate].
    + destruct (cls c); [eapply IH; eauto|discriminate].
Qed.

(** Matching never forgets a capture. *)
Lemma run_keeps_group fl r : forall x k y,
  run fl r x k = Some y ->
  exists z, k z = Some y /\ (is_Some (group x) -> is_Some (group z)).
Proof.
  induction r as [c|cls min greedy|r1 IH1 r2 IH2|r IH| | |]; intros x k y H; cbn in H.
  - destruct (rest x); [discriminate|].
    destruct (litMatches fl c a); [|discriminate]. eauto.
  - apply repeat_keeps_group in H as (z & Hz & Hg).
    exists z. rewrite Hg. auto.
  - apply IH1 in H as (z1 & H & Hg1).
    apply IH2 in H as (z & H & Hg). eauto.
  - apply IH in H as (z & H & _). eexists. split; [exact H|]. cbn. eauto.
  - destruct (atLineStart fl x); [eauto|discriminate].
  - destruct (atLineEnd fl x); [eauto|discriminate].
  - eauto.
Qed.

Lemma run_sets_group fl r : captures r = true -> forall x k y,
  run fl r x k = Some y ->
  exists z, k z = Some y /\ is_Some (group z).
Proof.
  induction r as [c|cls min greedy|r1 IH1 r2 IH2|r IH| | |];
    intros Hc x k y H; cbn in Hc; try discriminate.
  - cbn in H. apply orb_true_iff in Hc as [Hc|Hc].
    + apply (IH1 Hc) in H as (z1 & H & Hg1).
      apply run_keeps_group in H as (z & H & Hg). eauto.
    + apply run_keeps_group in H as (z1 & H & _).
      apply (IH2 Hc) in H as (z & H & Hg). eauto.
  - cbn in H. apply run_keeps_group in H as (z & H & _).
    eexists. split; [exact H|]. cbn. eauto.
Qed.

(** [match[1]] is defined in every match of a pattern that [captures]. *)
Lemma attempt_group fl r i p s m :
  captures r = true -> attempt fl r i p s = Some m -> is_Some (m_group m).
Proof.
  intros Hc. unfold attempt.
  destruct (run fl r _ Some) as [y|] eqn:E; [|discriminate].
  intros [= <-]. cbn.
  apply (run_sets_group _ _ Hc) in E as (z & [= ->] & Hg). exact Hg.
Qed.

Lemma search_group fl r s : captures r = true -> forall i p m,
  search fl r i p s = Some m -> is_Some (m_group m).
Proof.
  intros Hc. induction s as [|c s IH]; intros i p m; cbn;
    destruct (attempt fl r i p _) eqn:E; intros H; try discriminate;
    try (injection H as <-; eapply attempt_group; eauto).
  eapply IH; eauto.
Qed.

Lemma scan_group fl r s : captures r = true -> forall skip i p,
  Forall (fun m => is_Some (m_group m)) (scan fl r skip i p s).
Proof.
  intros Hc. induction s as [|c s IH]; intros skip i p; cbn.
  - destruct skip; [|constructor].
    destruct (attempt fl r i p _) eqn:E; repeat constructor.
    eapply attempt_group; eauto.
  - destruct skip; [|apply IH].
    destruct (attempt fl r i p _) eqn:E; [constructor|]; try apply IH.
    eapply attempt_group; eauto.
Qed.

Lemma patterns_capture :
  captures SECTION_HEADING_REGEX = true
  /\ captures AGENT_NAME_REGEX = true
  /\ captures JSON_BLOCK_REGEX = true.
Proof. repeat split. Qed.

(** [match[1]] of a match, for a pattern that [captures]. *)
Lemma String_match_group fl r s m :
  captures r = true -> String_match fl r s = Some m -> m_group m = Some (match1 m).
Proof.
  intros Hc H. apply (search_group _ _ _ Hc) in H as [g Hg].
  unfold match1. by rewrite Hg.
Qed.

Lemma String_matchAll_group fl r s :
  captures r = true ->
  Forall (fun m => m_group m = Some (match1 m)) (String_matchAll fl r s).
Proof.
  intros Hc. eapply Forall_impl; [by apply scan_group|].
  intros m [g Hg]. unfold match1. by rewrite Hg.
Qed.

(** *** A heading on the first line

    How the name pattern runs on a document that begins with
    [# Agent: <name>]: a star that finds nothing, a greedy quantifier that
    takes all it can, and the capture of the rest of the line. *)

Lemma repeat_nothing cls greedy i p s g k :
  startsIn cls s = false ->
  repeat cls greedy 0 i p s g k
  = k {| index := i; prev := p; rest := s; group := g |}.
Proof.
  intros H. destruct s as [|c s]; cbn in *.
  - destruct greedy; [reflexivity|]. by destruct (k _).
  - rewrite H. destruct greedy; [reflexivity|]. by destruct (k _).
Qed.

Lemma advance_index taken : forall i p,
  (advance i p taken).1 = i + String.length taken.
Proof.
  induction taken as [|c taken IH]; intros i p; cbn [advance String.length]; [cbn; lia|].
  rewrite IH. lia.
Qed.

(** A greedy quantifier takes every character of [taken], all of the class,
    when what follows is not of the class and the continuation accepts. *)
Lemma repeat_greedy_all cls taken : forall min i p s g k y,
  avoids (fun c => negb (cls c)) taken = true ->
  startsIn cls s = false ->
  min <= String.length taken ->
  k {| index := (advance i p taken).1; prev := (advance i p taken).2;
       rest := s; group := g |} = Some y ->
  repeat cls true min i p (taken ++ s) g k = Some y.
Proof.
  induction taken as [|c taken IH]; intros min i p s g k y Hall Hs Hmin Hk.
  - cbn in Hmin. assert (min = 0) as -> by lia.
    change ("" ++ s) with s. rewrite repeat_nothing by exact Hs. exact Hk.
  - cbn [avoids] in Hall. apply andb_true_iff in Hall as [Hc Hall].
    apply negb_true_iff, negb_false_iff in Hc.
    change (String c taken ++ s) with (String c (taken ++ s)).
    cbn [repeat]. rewrite Hc.
    rewrite (IH (Nat.pred min) (S i) (Some c) s g k y Hall Hs); [|cbn in Hmin; lia|exact Hk].
    by destruct min.
Qed.



Lemma startsIn_app cls name after :
  name <> "" -> startsIn cls name = false -> startsIn cls (name ++ after) = false.
Proof. by destruct name. Qed.

(** *** The name pattern, step by step *)














(* ================================================================== *)
(** ** Name extraction *)


Lemma parseAgentMarkdown_name rt markdown source d :
  parseAgentMarkdown rt markdown source = OK d ->
  extractAgentName markdown source = OK (AgentDefinition.name d).
Proof.
  unfold parseAgentMarkdown. intros H.
  bind_inv H. rewrite Ha. bind_inv H. injection H as <-. cbn.
  unfold buildConfigFromSections in Ha0.
  repeat bind_inv Ha0. injection Ha0 as <-. reflexivity.
Qed.

Lemma parseAgentMarkdown_no_name rt markdown source e :
  extractAgentName markdown source = Throw e ->
  parseAgentMarkdown rt markdown source = Throw e.
Proof. unfold parseAgentMarkdown. intros ->. reflexivity. Qed.

Lemma parseAgentMarkdown_config rt markdown source d :
  parseAgentMarkdown rt markdown source = OK d ->
  exists config,
    buildConfigFromSections rt (AgentDefinition.name d) (extractSections markdown) source
      = OK config
    /\ d = buildAgentDefinition rt config source.
Proof.
  intros H. pose proof (parseAgentMarkdown_name _ _ _ _ H) as Hn.
  unfold parseAgentMarkdown in H. rewrite Hn in H. cbn in H.
  bind_inv H. injection H as <-. eauto.
Qed.

(** *** A heading on a line of its own *)


Lemma trimStart_fixed s : startsIn space s = false -> Str.trimStart s = s.
Proof.
  destruct s as [|c r]; [reflexivity|]. cbn [startsIn Str.trimStart]. unfold space.
  by intros ->.
Qed.









(* ================================================================== *)
(** ** Structured sections *)

Lemma noSection_false section :
  noSection section = false <-> exists body, section = Some body /\ body <> "".
Proof.
  destruct section as [[|c r]|]; cbn; split; try discriminate; try reflexivity.
  - intros (body & [= <-] & H). congruence.
  - intros _. eexists. split; [reflexivity|discriminate].
  - intros (body & [=] & _).
Qed.

Lemma parseJsonSection_absent rt sections source key :
  noSection (sections !! key) = true ->
  parseJsonSection rt sections source key = OK None.
Proof. unfold parseJsonSection. by intros ->. Qed.

Lemma parseJsonSection_present rt sections source key body :
  sections !! key = Some body -> body <> "" ->
  parseJsonSection rt sections source key =
    match String_match flags_i JSON_BLOCK_REGEX body with
    | None => Throw (expectedJsonBlock key source)
    | Some m =>
        match JSON_parse rt (match1 m) with
        | OK value => OK (Some value)
        | Throw error => Throw (invalidJson key source (exn_message error))
        end
    end.
Proof.
  intros Hs Hb. unfold parseJsonSection.
  assert (noSection (sections !! key) = false) as ->
    by (apply noSection_false; eauto).
  rewrite Hs. reflexivity.
Qed.

(** A configuration is built only if each structured section was read. *)
Lemma buildConfigFromSections_reads rt name sections source config key :
  buildConfigFromSections rt name sections source = OK config ->
  key ∈ structuredSections ->
  succeeded (parseJsonSection rt sections source key) = true.
Proof.
  unfold buildConfigFromSections. intros H Hkey.
  repeat bind_inv H.
  repeat match goal with
         | Hb : _ ≫= _ = OK _ |- _ => bind_inv Hb
         end.
  unfold structuredSections in Hkey.
  repeat (apply elem_of_cons in Hkey as [->|Hkey]);
    try (apply succeeded_true; eauto; fail).
  by apply elem_of_nil in Hkey.
Qed.

(** The error of a structured section is the error of the parse when the
    header is valid and the sections read before it are accepted. *)
Lemma parseAgentMarkdown_section_error rt markdown source key e :
  key ∈ structuredSections ->
  parseJsonSection rt (extractSections markdown) source key = Throw e ->
  succeeded (extractAgentName markdown source) = true ->
  Forall (fun k => sectionAccepted rt (extractSections markdown) source k = true)
    (before key structuredSections) ->
  parseAgentMarkdown rt markdown source = Throw e.
Proof.
  intros Hkey He Hname Hbefore.
  apply succeeded_true in Hname as (name & Hname).
  unfold parseAgentMarkdown. rewrite Hname. cbn.
  unfold buildConfigFromSections.
  unfold structuredSections in Hkey, Hbefore.
  repeat (apply elem_of_cons in Hkey as [->|Hkey]); [..|by apply elem_of_nil in Hkey];
    cbn in Hbefore;
    repeat match goal with
           | Hf : Forall _ (_ :: _) |- _ =>
               let Hacc := fresh "Hacc" in
               apply Forall_cons in Hf as [Hacc Hf];
               cbn in Hacc; apply succeeded_true in Hacc as (? & Hacc)
           end;
    repeat match goal with
           | Hacc : _ ≫= _ = OK _ |- _ => rewrite Hacc; cbn
           | Hacc : parseJsonSection _ _ _ _ = OK _ |- _ => rewrite Hacc; cbn
           end;
    rewrite He; reflexivity.
Qed.

Lemma sectionAccepted_absent rt sections source key :
  noSection (sections !! key) = true ->
  sectionAccepted rt sections source key = true.
Proof.
  intros H. unfold sectionAccepted.
  rewrite (parseJsonSection_absent _ _ _ _ H).
  repeat match goal with |- context [if ?b then _ else _] => destruct b end;
    reflexivity.
Qed.

(** C2, amended.  For a structured section whose heading is present with a
    body that is not empty, the loader requires a fenced block labelled
    [json] in the body and parses the first one: reading the section throws
    an error that names it when there is no such block or when the content
    of the block is not JSON, and the parse of the document then fails, with
    that error when the header is valid and the sections read before are
    accepted.  A section without heading, or with an empty body, costs no
    error. *)
Theorem structured_sections (rt : Host) (markdown source key : string) :
  key ∈ structuredSections ->
  let sections := extractSections markdown in
  (noSection (sections !! key) = true ->
     parseJsonSection rt sections source key = OK None
     /\ sectionAccepted rt sections source key = true)
  /\ (forall body, sections !! key = Some body -> body <> "" ->
        match String_match flags_i JSON_BLOCK_REGEX body with
        | None =>
            parseJsonSection rt sections source key
              = Throw (expectedJsonBlock key source)
        | Some block =>
            match JSON_parse rt (match1 block) with
            | OK value =>
                parseJsonSection rt sections source key = OK (Some value)
            | Throw error =>
                parseJsonSection rt sections source key
                  = Throw (invalidJson key source (exn_message error))
            end
        end)
  /\ (forall e, parseJsonSection rt sections source key = Throw e ->
        succeeded (parseAgentMarkdown rt markdown source) = false
        /\ (succeeded (extractAgentName markdown source) = true ->
            Forall (fun k => sectionAccepted rt sections source k = true)
              (before key structuredSections) ->
            parseAgentMarkdown rt markdown source = Throw e)).
Proof.
  intros Hkey sections. split; [|split].
  - intros Habsent. split.
    + by apply parseJsonSection_absent.
    + by apply sectionAccepted_absent.
  - intros body Hbody Hne.
    rewrite (parseJsonSection_present rt _ source _ _ Hbody Hne).
    destruct (String_match flags_i JSON_BLOCK_REGEX body) as [block|]; [|reflexivity].
    destruct (JSON_parse rt (match1 block)); reflexivity.
  - intros e He. split.
    + destruct (parseAgentMarkdown rt markdown source) as [d|] eqn:Hd; [|reflexivity].
      apply parseAgentMarkdown_config in Hd as (config & Hc & _).
      pose proof (buildConfigFromSections_reads _ _ _ _ _ _ Hc Hkey) as Hr.
      fold sections in Hr. rewrite He in Hr. discriminate.
    + intros Hname Hbefore.
      by apply parseAgentMarkdown_section_error with (key := key).
Qed.

(** C2 on a document whose [## Tools] section lists the tools in prose, and
    on one whose [## Model] block is not JSON. *)
Lemma structured_sections_witness :
  (let markdown := "# Agent: X
## Tools
read_file, ls" in
   "tools" ∈ structuredSections
   /\ extractSections markdown !! "tools" = Some "read_file, ls"
   /\ parseAgentMarkdown reference_host markdown "x.agent.md"
      = Throw (expectedJsonBlock "tools" "x.agent.md"))
  /\ (let markdown := "# Agent: X
## Model
```json
{ model: gemini }
```" in
      "model" ∈ structuredSections
      /\ parseAgentMarkdown reference_host markdown "x.agent.md"
         = Throw (invalidJson "model" "x.agent.md" "Unexpected token in JSON")).
Proof.
  split.
  - intros markdown.
    assert ("tools" ∈ structuredSections) as Hkey
      by (unfold structuredSections; rewrite !elem_of_cons; auto).
    split; [exact Hkey|].
    destruct (structured_sections reference_host markdown "x.agent.md" "tools" Hkey)
      as (_ & Hpresent & Herror).
    assert (extractSections markdown !! "tools" = Some "read_file, ls") as Hbody
      by (vm_compute; reflexivity).
    split; [exact Hbody|].
    apply Herror.
    + apply (Hpresent _ Hbody). discriminate.
    + vm_compute; reflexivity.
    + repeat constructor; vm_compute; reflexivity.
  - intros markdown.
    assert ("model" ∈ structuredSections) as Hkey
      by (unfold structuredSections; rewrite !elem_of_cons; auto 10).
    split; [exact Hkey|].
    destruct (structured_sections reference_host markdown "x.agent.md" "model" Hkey)
      as (_ & Hpresent & Herror).
    assert (extractSections markdown !! "model" = Some "```json
{ model: gemini }
```") as Hbody by (vm_compute; reflexivity).
    apply Herror.
    + apply (Hpresent _ Hbody). discriminate.
    + vm_compute; reflexivity.
    + repeat constructor; vm_compute; reflexivity.
Defined.

(** C2 as stated fails: a heading [## Inputs] with an empty body has no JSON
    block and raises no error, and a body with two JSON blocks is accepted,
    its first block being the one that is read. *)
Lemma structured_sections_counterexample :
  (let markdown := "# Agent: X
## Inputs
" in
   extractSections markdown !! "inputs" = Some ""
   /\ String_match flags_i JSON_BLOCK_REGEX "" = None
   /\ succeeded (parseAgentMarkdown reference_host markdown "x.agent.md") = true)
  /\ (let markdown := quoted "# Agent: X
## Tools
```json
['ls']
```
```json
['grep']
```" in
      length (String_matchAll flags_i JSON_BLOCK_REGEX
                (default "" (extractSections markdown !! "tools"))) = 2
      /\ (AgentDefinition.toolConfig
            <$> (match parseAgentMarkdown reference_host markdown "x.agent.md" with
                 | OK d => Some d
                 | Throw _ => None
                 end))
         = Some (Some {| ToolConfig.tools := ["ls"] |})).
Proof. vm_compute. repeat split. Qed.

(* ================================================================== *)
(** ** Inputs *)

Lemma sanitizeInput_OK item s :
  sanitizeInput item = OK s ->
  s_name s = declaredName item /\ s_type s = declaredType item.
Proof.
  unfold sanitizeInput, declaredName, declaredType. intros H.
  destruct item as [|b|n|str|items|fields]; try discriminate;
    try (cbn in H; injection H as <-; split; reflexivity).
  cbn in H. cbn [JS.member].
  destruct (JS.assoc "name" fields) as [[]|]; cbn in H; try discriminate;
    destruct (JS.assoc "type" fields) as [[]|]; cbn in H; try discriminate;
    repeat bind_inv H; injection H as <-; split; reflexivity.
Qed.

Lemma nonEmpty_allowed (type : option string) :
  ALLOWED_INPUT_TYPES_has (default "" type) = true -> JS.nonEmpty type = true.
Proof. destruct type as [[|c r]|]; cbn; auto. Qed.

(** The two filters of [parseInputs] keep the entries that [survive]. *)
Lemma filters_survive items mapped :
  Forall2 (fun item s => sanitizeInput item = OK s) items mapped ->
  Forall2 (fun item s => sanitizeInput item = OK s)
    (List.filter survives items)
    (List.filter (fun input => ALLOWED_INPUT_TYPES_has (default "" (s_type input)))
       (List.filter (fun input => JS.nonEmpty (s_name input) && JS.nonEmpty (s_type input))
          mapped)).
Proof.
  induction 1 as [|item s items mapped Hs _ IH]; cbn [List.filter]; [constructor|].
  destruct (sanitizeInput_OK _ _ Hs) as [Hn Ht].
  unfold survives at 1. rewrite <- Hn, <- Ht.
  destruct (JS.nonEmpty (s_name s)); cbn [andb].
  - destruct (ALLOWED_INPUT_TYPES_has (default "" (s_type s))) eqn:E.
    + rewrite (nonEmpty_allowed _ E). cbn [List.filter]. rewrite E. by constructor.
    + destruct (JS.nonEmpty (s_type s)); cbn [List.filter]; [rewrite E|]; exact IH.
  - exact IH.
Qed.

(** [parseInputs] on an array: the entries that survive, or nothing. *)
Lemma parseInputs_array items r :
  parseInputs (Some (JArray items)) = OK r ->
  exists valid,
    Forall2 (fun item s => sanitizeInput item = OK s) (List.filter survives items) valid
    /\ r = match valid with
           | [] => None
           | _ => Some (map asAgentInputSpec valid)
           end.
Proof.
  unfold parseInputs. cbn.
  destruct items as [|item items]; cbn [JS.lengthIsZero].
  - intros [= <-]. exists []. split; constructor.
  - intros H. bind_inv H. apply mapM_OK in Ha. apply filters_survive in Ha.
    eexists. split; [exact Ha|].
    destruct (List.filter _ (List.filter _ a)); congruence.
Qed.

Lemma parseInputs_none_dropped items r :
  parseInputs (Some (JArray items)) = OK r ->
  Forall (fun item => survives item = false) items ->
  r = None.
Proof.
  intros H Hall. apply parseInputs_array in H as (valid & Hv & ->).
  assert (List.filter survives items = []) as E.
  { clear Hv. induction Hall as [|item items Hd _ IH]; cbn; [reflexivity|].
    by rewrite Hd. }
  rewrite E in Hv. by inversion Hv.
Qed.

Lemma buildConfigFromSections_inputs rt name sections source config :
  buildConfigFromSections rt name sections source = OK config ->
  parseJsonSection rt sections source "inputs" ≫= parseInputs
    = OK (ParsedAgentConfig.inputs config).
Proof.
  unfold buildConfigFromSections. intros H.
  repeat bind_inv H. injection H as <-. exact Ha.
Qed.

Lemma buildInputConfig_default :
  InputConfig.inputs (buildInputConfig None) = {[ "objective" := objectiveEntry ]}.
Proof. cbn. unfold JS.Object_fromEntries. cbn. apply insert_empty. Qed.

(** C3.  A document without [## Inputs] section, or whose declared inputs
    are all dropped (empty name, or type outside the fixed set), compiles to
    a definition with exactly one input: [objective], of type [string],
    required. *)
Theorem input_defaulting (rt : Host) (markdown source : string) (d : AgentDefinition.t) :
  parseAgentMarkdown rt markdown source = OK d ->
  (extractSections markdown !! "inputs" = None
   \/ exists items,
        parseJsonSection rt (extractSections markdown) source "inputs"
          = OK (Some (JArray items))
        /\ Forall (fun item => survives item = false) items) ->
  InputConfig.inputs (AgentDefinition.inputConfig d)
  = {[ "objective" :=
         {| InputConfig.description := "Detailed description of the task to accomplish.";
            InputConfig.type := "string";
            InputConfig.required := JBool true |} ]}.
Proof.
  intros Hd Hcase.
  apply parseAgentMarkdown_config in Hd as (config & Hc & ->).
  apply buildConfigFromSections_inputs in Hc.
  assert (ParsedAgentConfig.inputs config = None) as Hnone.
  { destruct Hcase as [Habsent|(items & Hitems & Hdropped)].
    - rewrite parseJsonSection_absent in Hc by (by rewrite Habsent).
      cbn in Hc. congruence.
    - rewrite Hitems in Hc. cbn [mbind Result_bind] in Hc.
      eapply parseInputs_none_dropped; eauto. }
  cbn [buildAgentDefinition AgentDefinition.inputConfig]. rewrite Hnone.
  apply buildInputConfig_default.
Qed.

(** C3 on a document without the section, and on one whose two declared
    inputs are dropped, the first for its empty name and the second for its
    type. *)
Lemma input_defaulting_witness :
  (exists d, parseAgentMarkdown reference_host "# Agent: X" "x.agent.md" = OK d
     /\ extractSections "# Agent: X" !! "inputs" = None
     /\ InputConfig.inputs (AgentDefinition.inputConfig d)
        = {[ "objective" := objectiveEntry ]})
  /\ (let markdown := quoted "# Agent: X
## Inputs
```json
[{'name': ' ', 'type': 'string'}, {'name': 'when', 'type': 'Date'}]
```" in
      exists d, parseAgentMarkdown reference_host markdown "x.agent.md" = OK d
        /\ InputConfig.inputs (AgentDefinition.inputConfig d)
           = {[ "objective" := objectiveEntry ]}).
Proof.
  split.
  - destruct (parseAgentMarkdown reference_host "# Agent: X" "x.agent.md")
      as [d|e] eqn:E; [|vm_compute in E; discriminate].
    exists d. split; [reflexivity|]. split; [reflexivity|].
    apply (input_defaulting reference_host "# Agent: X" "x.agent.md" d E).
    left. reflexivity.
  - intros markdown.
    destruct (parseAgentMarkdown reference_host markdown "x.agent.md")
      as [d|e] eqn:E; [|vm_compute in E; discriminate].
    exists d. split; [reflexivity|].
    apply (input_defaulting reference_host markdown "x.agent.md" d E).
    right. eexists. split; [vm_compute; reflexivity|].
    repeat constructor.
Defined.

Lemma foldl_insert_keeps {V} (l : list (string * V)) (k : string) (v : V) :
  Forall (fun kv => kv.1 <> k) l ->
  forall m : gmap string V,
    m !! k = Some v ->
    foldl (fun (m : gmap string V) kv => <[kv.1:=kv.2]> m) m l !! k = Some v.
Proof.
  induction 1 as [|[k' v'] l Hne _ IH]; intros m Hm; cbn [foldl]; [exact Hm|].
  apply IH. cbn in *. by rewrite lookup_insert_ne.
Qed.

Lemma fromEntries_last {V} (l1 l2 : list (string * V)) (k : string) (v : V) :
  Forall (fun kv => kv.1 <> k) l2 ->
  JS.Object_fromEntries (l1 ++ (k, v) :: l2)%list !! k = Some v.
Proof.
  intros Hl2. unfold JS.Object_fromEntries. rewrite foldl_app. cbn [foldl].
  apply foldl_insert_keeps; [exact Hl2|]. apply lookup_insert_eq.
Qed.

Lemma allowed_elem (type : string) :
  ALLOWED_INPUT_TYPES_has type = true <-> type ∈ ALLOWED_INPUT_TYPES.
Proof.
  unfold ALLOWED_INPUT_TYPES_has. rewrite existsb_exists. split.
  - intros (x & Hin & Heq). apply String.eqb_eq in Heq as ->.
    by apply list_elem_of_In.
  - intros Hin. exists type. split; [by apply list_elem_of_In|apply String.eqb_refl].
Qed.

Lemma mapInputType_allowed (type : string) :
  type ∈ ALLOWED_INPUT_TYPES ->
  mapInputType type = (if String.eqb type "integer" then "number" else type)
  /\ mapInputType type ∈ canonicalKinds.
Proof.
  unfold ALLOWED_INPUT_TYPES, canonicalKinds. intros H.
  repeat (apply elem_of_cons in H as [->|H]); [..|by apply elem_of_nil in H];
    (split; [reflexivity|cbn; rewrite !elem_of_cons; auto 10]).
Qed.

Lemma mapInputType_unknown (type : string) :
  type ∉ ["number"; "integer"; "boolean"; "string[]"; "number[]"] ->
  mapInputType type = "string".
Proof.
  intros H. unfold mapInputType.
  repeat match goal with
         | |- context [String.eqb type ?k] =>
             destruct (String.eqb_spec type k) as [->|_];
             [exfalso; apply H; rewrite !elem_of_cons; auto 10|]
         end.
  reflexivity.
Qed.

Lemma survives_declared item :
  survives item = true ->
  exists name type,
    declaredName item = Some name /\ name <> ""
    /\ declaredType item = Some type /\ type ∈ ALLOWED_INPUT_TYPES.
Proof.
  unfold survives. intros H. apply andb_true_iff in H as [Hn Ht].
  pose proof (nonEmpty_allowed _ Ht) as Ht'.
  destruct (declaredName item) as [[|c r]|]; try discriminate.
  destruct (declaredType item) as [type|]; try discriminate.
  exists (String c r), type. repeat split; try discriminate.
  by apply allowed_elem.
Qed.

(** The input the loader builds from a declared entry records the name and
    the type the entry declares. *)
Lemma asAgentInputSpec_declared item s :
  sanitizeInput item = OK s ->
  AgentInputSpec.name (asAgentInputSpec s) = default "" (declaredName item)
  /\ AgentInputSpec.type (asAgentInputSpec s) = default "" (declaredType item).
Proof.
  intros H. apply sanitizeInput_OK in H as [Hn Ht].
  unfold asAgentInputSpec. cbn. by rewrite Hn, Ht.
Qed.

Lemma buildInputConfig_some input more :
  InputConfig.inputs (buildInputConfig (Some (input :: more)))
  = JS.Object_fromEntries
      (map (fun input => (AgentInputSpec.name input, inputEntry input)) (input :: more)).
Proof. reflexivity. Qed.

Lemma filter_survives_all items :
  Forall (fun item => survives item = true) (List.filter survives items).
Proof.
  apply Forall_forall. intros x Hx.
  apply list_elem_of_In, filter_In in Hx. tauto.
Qed.

(** C8, amended.  A declared input that survives validation, and after which
    no surviving input has the same name, is recorded under its name with its
    type trimmed, lower-cased and mapped into the canonical kinds:
    [integer] becomes [number], the other types of the fixed set are kept;
    a type [mapInputType] does not recognize becomes [string]. *)
Theorem input_type_mapping (rt : Host) (markdown source : string)
    (d : AgentDefinition.t) (items pre post : list json) (item : json)
    (name : string) :
  parseAgentMarkdown rt markdown source = OK d ->
  parseJsonSection rt (extractSections markdown) source "inputs"
    = OK (Some (JArray items)) ->
  List.filter survives items = (pre ++ item :: post)%list ->
  declaredName item = Some name ->
  Forall (fun later => declaredName later <> Some name) post ->
  (exists raw type,
     JS.member item "type" = Some (JString raw)
     /\ type = Str.toLowerCase (Str.trim raw)
     /\ type ∈ ALLOWED_INPUT_TYPES
     /\ (InputConfig.type <$> InputConfig.inputs (AgentDefinition.inputConfig d) !! name)
        = Some (mapInputType type)
     /\ mapInputType type = (if String.eqb type "integer" then "number" else type)
     /\ mapInputType type ∈ canonicalKinds)
  /\ (forall other,
        other ∉ ["number"; "integer"; "boolean"; "string[]"; "number[]"] ->
        mapInputType other = "string").
Proof.
  intros Hd Hitems Hsplit Hname Hpost.
  split; [|exact mapInputType_unknown].
  pose proof (filter_survives_all items) as Hall. rewrite Hsplit in Hall.
  apply Forall_app in Hall as [_ Hall].
  apply Forall_cons in Hall as [Hitem Hall].
  apply survives_declared in Hitem as (name' & type & Hn & Hne & Ht & Hallowed).
  assert (name' = name) as -> by congruence.
  assert (exists raw, JS.member item "type" = Some (JString raw)
                      /\ type = Str.toLowerCase (Str.trim raw)) as (raw & Hraw & Htype).
  { unfold declaredType in Ht.
    destruct (JS.member item "type") as [[]|]; try discriminate.
    injection Ht as <-. eauto. }
  exists raw, type. split; [exact Hraw|]. split; [exact Htype|].
  split; [exact Hallowed|].
  split; [|by apply mapInputType_allowed].
  apply parseAgentMarkdown_config in Hd as (config & Hc & ->).
  apply buildConfigFromSections_inputs in Hc.
  rewrite Hitems in Hc. cbn [mbind Result_bind] in Hc.
  apply parseInputs_array in Hc as (valid & Hvalid & Hr).
  rewrite Hsplit in Hvalid.
  apply Forall2_app_inv_l in Hvalid as (vpre & vrest & Hpre & Hrest & ->).
  apply Forall2_cons_inv_l in Hrest as (s & vpost & Hs & Hvpost & ->).
  cbn [buildAgentDefinition AgentDefinition.inputConfig].
  assert (ParsedAgentConfig.inputs config
          = Some (map asAgentInputSpec (vpre ++ s :: vpost)%list)) as ->
    by (rewrite Hr; destruct vpre; reflexivity).
  destruct (map asAgentInputSpec (vpre ++ s :: vpost)%list) as [|input more] eqn:E;
    [by destruct vpre|].
  rewrite buildInputConfig_some, <- E, map_app, map_cons, map_app. cbn [map].
  destruct (asAgentInputSpec_declared _ _ Hs) as [Hsn Hst].
  rewrite Hn in Hsn. rewrite Ht in Hst.
  change (AgentInputSpec.name (asAgentInputSpec s) = name) in Hsn.
  change (AgentInputSpec.type (asAgentInputSpec s) = type) in Hst.
  rewrite Hsn, fromEntries_last.
  - unfold inputEntry. cbn [fmap option_fmap option_map InputConfig.type].
    by rewrite Hst.
  - clear - Hvpost Hpost Hall.
    induction Hvpost as [|later s' post vpost Hs' _ IH]; cbn [map]; [constructor|].
    apply Forall_cons in Hpost as [Hlater Hpost].
    apply Forall_cons in Hall as [Hsurv Hall].
    constructor; [|by apply IH].
    cbn [fst]. destruct (asAgentInputSpec_declared _ _ Hs') as [-> _].
    apply survives_declared in Hsurv as (n' & _ & Hn' & _).
    rewrite Hn' in Hlater |- *. cbn. congruence.
Qed.

(** C8 on a document that declares [count] with the type [ Integer ] and
    [tags] with the type [STRING[]]. *)
Lemma input_type_mapping_witness :
  let markdown := quoted "# Agent: X
## Inputs
```json
[{'name': 'count', 'type': ' Integer '}, {'name': 'tags', 'type': 'STRING[]'}]
```" in
  let count := JObject [("name", JString "count"); ("type", JString " Integer ")] in
  let tags := JObject [("name", JString "tags"); ("type", JString "STRING[]")] in
  exists d,
    parseAgentMarkdown reference_host markdown "x.agent.md" = OK d
    /\ parseJsonSection reference_host (extractSections markdown) "x.agent.md" "inputs"
       = OK (Some (JArray [count; tags]))
    /\ List.filter survives [count; tags] = ([] ++ count :: [tags])%list
    /\ declaredName count = Some "count"
    /\ Forall (fun later => declaredName later <> Some "count") [tags]
    /\ (InputConfig.type <$> InputConfig.inputs (AgentDefinition.inputConfig d) !! "count")
       = Some "number".
Proof.
  intros markdown count tags.
  destruct (parseAgentMarkdown reference_host markdown "x.agent.md")
    as [d|e] eqn:E; [|vm_compute in E; discriminate].
  assert (parseJsonSection reference_host (extractSections markdown) "x.agent.md" "inputs"
          = OK (Some (JArray [count; tags]))) as Hitems by (vm_compute; reflexivity).
  assert (Forall (fun later => declaredName later <> Some "count") [tags]) as Hpost
    by (repeat constructor; discriminate).
  exists d. split; [reflexivity|]. split; [exact Hitems|]. split; [reflexivity|].
  split; [reflexivity|]. split; [exact Hpost|].
  destruct (input_type_mapping reference_host markdown "x.agent.md" d
              [count; tags] [] [tags] count "count" E Hitems eq_refl eq_refl Hpost)
    as ((raw & type & Hraw & -> & _ & Hrecorded & _) & _).
  injection Hraw as <-. exact Hrecorded.
Defined.

(** C8 as stated fails when two surviving inputs share a name: the entry of
    that name is the one of the last input, and the type of the first input is
    recorded nowhere. *)
Lemma input_type_mapping_counterexample :
  let markdown := quoted "# Agent: X
## Inputs
```json
[{'name': 'a', 'type': 'string'}, {'name': 'a', 'type': 'number'}]
```" in
  let first := JObject [("name", JString "a"); ("type", JString "string")] in
  let second := JObject [("name", JString "a"); ("type", JString "number")] in
  exists d,
    parseAgentMarkdown reference_host markdown "x.agent.md" = OK d
    /\ parseJsonSection reference_host (extractSections markdown) "x.agent.md" "inputs"
       = OK (Some (JArray [first; second]))
    /\ survives first = true
    /\ declaredName first = Some "a"
    /\ declaredType first = Some "string"
    /\ mapInputType "string" = "string"
    /\ map_to_list (InputConfig.type <$> InputConfig.inputs (AgentDefinition.inputConfig d))
       = [("a", "number")].
Proof.
  intros markdown first second.
  eexists. split; [vm_compute; reflexivity|].
  repeat split; vm_compute; reflexivity.
Qed.

(* ================================================================== *)
(** ** Run configuration *)

Lemma parseRunConfig_limit run (field : string) :
  JS.asNumber (declaredLimit run field)
  = match parseRunConfig run with
    | Some _ => JS.asNumber (JS.member (default JNull run) field)
    | None => None
    end.
Proof.
  destruct run as [[| | | | |fields]|]; cbn; try reflexivity;
    repeat match goal with |- context [if ?b then _ else _] => destruct b end;
    reflexivity.
Qed.

Lemma positiveOr_declared (v : option json) (fallback : float) :
  positiveOr (JS.asNumber v) fallback = default fallback (positiveFinite v).
Proof.
  destruct v as [[]|]; try reflexivity.
  unfold positiveOr, positiveFinite, isPositiveFinite. cbn [JS.asNumber].
  destruct (PrimFloat.is_finite n && PrimFloat.ltb 0 n); reflexivity.
Qed.

Lemma buildRunConfig_limits run :
  RunConfig.max_turns (buildRunConfig (parseRunConfig run))
    = default DEFAULT_MAX_TURNS (positiveFinite (declaredLimit run "max_turns"))
  /\ RunConfig.max_time_minutes (buildRunConfig (parseRunConfig run))
    = default DEFAULT_MAX_TIME_MINUTES
        (positiveFinite (declaredLimit run "max_time_minutes")).
Proof.
  rewrite <- !positiveOr_declared, !parseRunConfig_limit.
  unfold buildRunConfig.
  destruct (parseRunConfig run) as [spec|] eqn:E; cbn; [|split; reflexivity].
  destruct run as [run|]; [|discriminate]. cbn in E.
  destruct (JS.truthy run); [|discriminate]. injection E as <-.
  split; reflexivity.
Qed.

Lemma default_positiveFinite (v : option json) (fallback : float) :
  isPositiveFinite fallback = true ->
  isPositiveFinite (default fallback (positiveFinite v)) = true.
Proof.
  intros Hf. destruct v as [[]|]; try exact Hf.
  unfold positiveFinite. destruct (isPositiveFinite n) eqn:E; [exact E|exact Hf].
Qed.

Lemma buildConfigFromSections_runConfig rt name sections source config :
  buildConfigFromSections rt name sections source = OK config ->
  exists run,
    parseJsonSection rt sections source "run config" = OK run
    /\ ParsedAgentConfig.runConfig config = parseRunConfig run.
Proof.
  unfold buildConfigFromSections. intros H.
  repeat bind_inv H. injection H as <-. eauto.
Qed.

(** C4.  Each limit of the run configuration is defaulted on its own:
    [max_turns] is the declared value when that is a finite number above
    zero and 10 otherwise, [max_time_minutes] the declared value under the
    same condition and 5 otherwise; both are always finite and positive. *)
Theorem run_config_defaulting (rt : Host) (markdown source : string)
    (d : AgentDefinition.t) :
  parseAgentMarkdown rt markdown source = OK d ->
  exists run,
    parseJsonSection rt (extractSections markdown) source "run config" = OK run
    /\ RunConfig.max_turns (AgentDefinition.runConfig d)
       = default 10%float (positiveFinite (declaredLimit run "max_turns"))
    /\ RunConfig.max_time_minutes (AgentDefinition.runConfig d)
       = default 5%float (positiveFinite (declaredLimit run "max_time_minutes"))
    /\ isPositiveFinite (RunConfig.max_turns (AgentDefinition.runConfig d)) = true
    /\ isPositiveFinite (RunConfig.max_time_minutes (AgentDefinition.runConfig d)) = true.
Proof.
  intros Hd.
  apply parseAgentMarkdown_config in Hd as (config & Hc & ->).
  apply buildConfigFromSections_runConfig in Hc as (run & Hrun & Hc).
  exists run. split; [exact Hrun|].
  cbn [buildAgentDefinition AgentDefinition.runConfig]. rewrite Hc.
  destruct (buildRunConfig_limits run) as [-> ->].
  repeat split; by apply default_positiveFinite.
Qed.

(** C4 on the sample document, which declares 14 turns and 7 minutes, and on
    a document that declares no turns at all and a negative time. *)
Lemma run_config_defaulting_witness :
  (exists d, parseAgentMarkdown reference_host SAMPLE_MARKDOWN "test-agent" = OK d
     /\ RunConfig.max_turns (AgentDefinition.runConfig d) = 14%float
     /\ RunConfig.max_time_minutes (AgentDefinition.runConfig d) = 7%float)
  /\ (let markdown := quoted "# Agent: X
## Run Config
```json
{'max_turns': 0, 'max_time_minutes': -3}
```" in
      exists d, parseAgentMarkdown reference_host markdown "x.agent.md" = OK d
        /\ RunConfig.max_turns (AgentDefinition.runConfig d) = 10%float
        /\ RunConfig.max_time_minutes (AgentDefinition.runConfig d) = 5%float).
Proof.
  split.
  - destruct (parseAgentMarkdown reference_host SAMPLE_MARKDOWN "test-agent")
      as [d|e] eqn:E; [|vm_compute in E; discriminate].
    exists d. split; [reflexivity|].
    destruct (run_config_defaulting reference_host SAMPLE_MARKDOWN "test-agent" d E)
      as (run & Hrun & -> & -> & _).
    vm_compute in Hrun. injection Hrun as <-. split; reflexivity.
  - intros markdown.
    destruct (parseAgentMarkdown reference_host markdown "x.agent.md")
      as [d|e] eqn:E; [|vm_compute in E; discriminate].
    exists d. split; [reflexivity|].
    destruct (run_config_defaulting reference_host markdown "x.agent.md" d E)
      as (run & Hrun & -> & -> & _).
    vm_compute in Hrun. injection Hrun as <-. split; reflexivity.
Defined.

(* ================================================================== *)
(** ** The query *)

Lemma buildConfigFromSections_query rt name sections source config :
  buildConfigFromSections rt name sections source = OK config ->
  ParsedAgentConfig.query config = getText sections "query".
Proof.
  unfold buildConfigFromSections. intros H.
  repeat bind_inv H. injection H as <-. reflexivity.
Qed.

Lemma getText_none sections key :
  (sections !! key = None
   \/ exists body,
        sections !! key = Some body
        /\ Str.trim (String_replaceAll flags_g FENCED_BLOCK_REGEX body "") = "") ->
  getText sections key = None.
Proof.
  unfold getText. intros [->|(body & -> & Hbody)]; [reflexivity|].
  destruct (noSection (Some body)); [reflexivity|].
  change (default "" (Some body)) with body. by rewrite Hbody.
Qed.

(** C9.  A document without [## Query] section, or whose query is empty once
    the fenced blocks are removed and the rest is trimmed, compiles to a
    definition whose query is the fixed fallback sentence. *)
Theorem query_fallback (rt : Host) (markdown source : string) (d : AgentDefinition.t) :
  parseAgentMarkdown rt markdown source = OK d ->
  (extractSections markdown !! "query" = None
   \/ exists body,
        extractSections markdown !! "query" = Some body
        /\ Str.trim (String_replaceAll flags_g FENCED_BLOCK_REGEX body "") = "") ->
  PromptConfig.query (AgentDefinition.promptConfig d)
  = "Use the provided inputs to accomplish the requested task with precision.".
Proof.
  intros Hd Hcase.
  apply parseAgentMarkdown_config in Hd as (config & Hc & ->).
  apply buildConfigFromSections_query in Hc.
  cbn [buildAgentDefinition AgentDefinition.promptConfig PromptConfig.query].
  by rewrite Hc, (getText_none _ _ Hcase).
Qed.

(** C9 on a document without the section, and on one whose query holds
    nothing but a fenced block. *)
Lemma query_fallback_witness :
  (exists d, parseAgentMarkdown reference_host "# Agent: X" "x.agent.md" = OK d
     /\ extractSections "# Agent: X" !! "query" = None
     /\ PromptConfig.query (AgentDefinition.promptConfig d) = DEFAULT_QUERY)
  /\ (let markdown := "# Agent: X
## Query
```text
Explain ${objective}.
```
" in
      exists d, parseAgentMarkdown reference_host markdown "x.agent.md" = OK d
        /\ PromptConfig.query (AgentDefinition.promptConfig d) = DEFAULT_QUERY).
Proof.
  split.
  - destruct (parseAgentMarkdown reference_host "# Agent: X" "x.agent.md")
      as [d|e] eqn:E; [|vm_compute in E; discriminate].
    exists d. split; [reflexivity|]. split; [reflexivity|].
    apply (query_fallback reference_host "# Agent: X" "x.agent.md" d E).
    left. reflexivity.
  - intros markdown.
    destruct (parseAgentMarkdown reference_host markdown "x.agent.md")
      as [d|e] eqn:E; [|vm_compute in E; discriminate].
    exists d. split; [reflexivity|].
    apply (query_fallback reference_host markdown "x.agent.md" d E).
    right. eexists. split; vm_compute; reflexivity.
Defined.

(* ================================================================== *)
(** ** The schema compiler *)

Lemma isCase_unknown (type : option string) (label : string) :
  (forall t, type = Some t -> t <> label) -> isCase type label = false.
Proof.
  destruct type as [t|]; cbn; [|reflexivity].
  intros H. apply String.eqb_neq. by apply H.
Qed.

Lemma jsonSchemaToZod_unknown depth node :
  (forall t, JS.member node "type" = Some (JString t) -> t ∉ knownSchemaTypes) ->
  jsonSchemaToZod (S depth) node = OK ZodAny.
Proof.
  intros H. cbn.
  set (type := match JS.member node "type" with
               | Some (JString t) => Some t
               | _ => None
               end).
  assert (forall label, label ∈ knownSchemaTypes -> isCase type label = false) as Hcase.
  { intros label Hl. apply isCase_unknown. intros t Ht Heq. subst label.
    apply (H t); [|exact Hl].
    unfold type in Ht. destruct (JS.member node "type") as [[]|]; congruence. }
  rewrite !Hcase by (unfold knownSchemaTypes; rewrite !elem_of_cons; auto 10).
  reflexivity.
Qed.

Lemma buildZodSchema_cases rt schema :
  buildZodSchema rt schema = ZodAny
  \/ exists node,
       schema = Some node
       /\ jsonSchemaToZod (stack_depth rt) node = OK (buildZodSchema rt schema).
Proof.
  destruct schema as [node|]; [|by left]. unfold buildZodSchema.
  destruct (negb (JS.truthy node) || negb (JS.typeofObject node)); [by left|].
  destruct (jsonSchemaToZod _ _) eqn:E; eauto.
Qed.

(** A schema that compiles with some room on the stack compiles to the same
    descriptor with more. *)
Lemma jsonSchemaToZod_deeper depth : forall schema compiled,
  jsonSchemaToZod depth schema = OK compiled ->
  jsonSchemaToZod (S depth) schema = OK compiled.
Proof.
  induction depth as [|depth IH]; intros schema compiled H; [discriminate|].
  set (deeper := S depth).
  assert (forall node z, jsonSchemaToZod depth node = OK z ->
                         jsonSchemaToZod deeper node = OK z) as IH' by exact IH.
  clearbody deeper. clear IH.
  cbn [jsonSchemaToZod] in H |- *.
  destruct (isCase _ "string"); [exact H|].
  destruct (isCase _ "number"); [exact H|].
  destruct (isCase _ "integer"); [exact H|].
  destruct (isCase _ "boolean"); [exact H|].
  destruct (isCase _ "array").
  { destruct (JS.member schema "items") as [items|]; [|exact H].
    destruct (JS.isObject items); [|exact H].
    bind_inv H. by rewrite (IH' _ _ Ha). }
  destruct (isCase _ "object"); [|exact H].
  destruct (JS.member schema "properties") as [properties|]; [|exact H].
  destruct (JS.isObject properties); [|exact H].
  bind_inv H. erewrite forOf_OK_ext; [exact H| |exact Ha].
  intros shape [key value] shape' Hb. cbn beta iota in Hb |- *.
  destruct (JS.isObject value); [|exact Hb].
  bind_inv Hb. by rewrite (IH' _ _ Ha0).
Qed.

(** C6.  The schema compiler is total.  Whatever the value, [buildZodSchema]
    returns a descriptor: the one [jsonSchemaToZod] compiled, or the
    descriptor that accepts anything, which it returns when the compilation
    throws, for a value that is not an object, and for a node whose [type] is
    missing or unknown.  The output configuration of a definition, and with
    it the schema, is always present. *)
Theorem schema_compiler_total (rt : Host) :
  (forall schema,
     buildZodSchema rt schema = ZodAny
     \/ exists node,
          schema = Some node
          /\ jsonSchemaToZod (stack_depth rt) node = OK (buildZodSchema rt schema))
  /\ (forall node e,
        jsonSchemaToZod (stack_depth rt) node = Throw e ->
        buildZodSchema rt (Some node) = ZodAny)
  /\ (forall schema, isSchemaNode schema = false -> buildZodSchema rt schema = ZodAny)
  /\ (forall node,
        (forall t, JS.member node "type" = Some (JString t) -> t ∉ knownSchemaTypes) ->
        buildZodSchema rt (Some node) = ZodAny)
  /\ (forall value, Zod.accepts ZodAny value = true)
  /\ (forall output, exists config, buildOutputConfig rt output = Some config)
  /\ (forall markdown source d,
        parseAgentMarkdown rt markdown source = OK d ->
        exists config, AgentDefinition.outputConfig d = Some config).
Proof.
  repeat split.
  - apply buildZodSchema_cases.
  - intros node e He. unfold buildZodSchema.
    destruct (negb (JS.truthy node) || negb (JS.typeofObject node)); [reflexivity|].
    by rewrite He.
  - intros [node|] H; [|reflexivity]. unfold buildZodSchema.
    destruct node; try discriminate; try reflexivity; cbn [JS.typeofObject negb];
      by rewrite orb_true_r.
  - intros node H. unfold buildZodSchema.
    destruct (negb (JS.truthy node) || negb (JS.typeofObject node)); [reflexivity|].
    destruct (stack_depth rt); [reflexivity|by rewrite jsonSchemaToZod_unknown].
  - intros [output|]; cbn; eauto.
  - intros markdown source d Hd.
    apply parseAgentMarkdown_config in Hd as (config & _ & ->).
    cbn. destruct (ParsedAgentConfig.output config); cbn; eauto.
Qed.

(** C6 on a schema that is a number, on a node of an unknown type, and on the
    schema of scenario C when the stack has no room for its nested node. *)
Lemma schema_compiler_total_witness :
  (isSchemaNode (Some (JNumber 3)) = false
   /\ buildZodSchema reference_host (Some (JNumber 3)) = ZodAny)
  /\ buildZodSchema reference_host (Some (JObject [("type", JString "date")])) = ZodAny
  /\ (jsonSchemaToZod (stack_depth shallow_host) scenarioC_schema
        = Throw (RangeError "Maximum call stack size exceeded")
      /\ buildZodSchema shallow_host (Some scenarioC_schema) = ZodAny).
Proof.
  destruct (schema_compiler_total reference_host) as (_ & _ & Hprim & Hunknown & _).
  destruct (schema_compiler_total shallow_host) as (_ & Hthrow & _).
  split; [split; [reflexivity|by apply Hprim]|]. split.
  - apply Hunknown. intros t [= <-].
    unfold knownSchemaTypes. rewrite !elem_of_cons, elem_of_nil.
    intros H. repeat destruct H as [H|H]; discriminate || exact H.
  - split; [reflexivity|]. eapply Hthrow. reflexivity.
Defined.

(** C5, scenario C.  For an output declared with the type [json], the schema
    [{type: object, properties: {a: {type: string}}, required: [a]}] compiles
    to a validator that accepts [{a: x}], accepts [{a: x, b: 1}], the
    unknown property passing through, and rejects [{}], in which the
    required [a] is missing. *)
Theorem scenario_C (rt : Host) :
  2 <= stack_depth rt ->
  exists output config,
    parseOutput (Some scenarioC_output) = OK (Some output)
    /\ AgentOutputSpec.type output = json_output
    /\ buildOutputConfig rt (Some output) = Some config
    /\ OutputConfig.schema config = ZodObject [("a", ZodString)]
    /\ Zod.accepts (OutputConfig.schema config)
         (Some (JObject [("a", JString "x")])) = true
    /\ Zod.accepts (OutputConfig.schema config)
         (Some (JObject [("a", JString "x"); ("b", JNumber 1)])) = true
    /\ Zod.accepts (OutputConfig.schema config) (Some (JObject [])) = false.
Proof.
  intros Hdepth.
  destruct (stack_depth rt) as [|[|depth]] eqn:E; [lia|lia|].
  eexists _, _. split; [reflexivity|]. split; [reflexivity|].
  split; [reflexivity|].
  cbn [buildOutputConfig OutputConfig.schema AgentOutputSpec.type AgentOutputSpec.schema].
  unfold buildZodSchema, scenarioC_schema. rewrite E.
  repeat split.
Qed.

Lemma scenario_C_witness :
  2 <= stack_depth reference_host
  /\ exists output config,
       parseOutput (Some scenarioC_output) = OK (Some output)
       /\ AgentOutputSpec.type output = json_output
       /\ buildOutputConfig reference_host (Some output) = Some config
       /\ OutputConfig.schema config = ZodObject [("a", ZodString)]
       /\ Zod.accepts (OutputConfig.schema config)
            (Some (JObject [("a", JString "x")])) = true
       /\ Zod.accepts (OutputConfig.schema config)
            (Some (JObject [("a", JString "x"); ("b", JNumber 1)])) = true
       /\ Zod.accepts (OutputConfig.schema config) (Some (JObject [])) = false.
Proof.
  assert (2 <= stack_depth reference_host) as Hdepth
    by (apply Nat.leb_le; vm_compute; reflexivity).
  split; [exact Hdepth|]. exact (scenario_C reference_host Hdepth).
Defined.

(** Scenario C from the text of a document. *)
Example scenario_C_document :
  let markdown := quoted "# Agent: X
## Output
```json
{'type':'json','schema':{'type':'object','properties':{'a':{'type':'string'}},'required':['a']}}
```" in
  match parseAgentMarkdown reference_host markdown "x.agent.md" with
  | OK d => AgentDefinition.outputConfig d
  | Throw _ => None
  end
  = Some {| OutputConfig.outputName := "result";
            OutputConfig.description := "Structured JSON output generated by the agent.";
            OutputConfig.schema := ZodObject [("a", ZodString)] |}
  /\ Reference.JSON_parse (quoted "{'a':'x','b':1}")
     = OK (JObject [("a", JString "x"); ("b", JNumber 1)])
  /\ Zod.accepts (ZodObject [("a", ZodString)])
       (Some (JObject [("a", JString "x"); ("b", JNumber 1)])) = true
  /\ Zod.accepts (ZodObject [("a", ZodString)]) (Some (JObject [])) = false.
Proof. repeat split; vm_compute; reflexivity. Qed.

(* ================================================================== *)
(** ** The directory loader *)

Lemma loadEntry_ignored rt fs directory state entry :
  isAgentFile entry = false -> loadEntry rt fs directory state entry = state.
Proof.
  unfold isAgentFile, loadEntry. destruct state as [definitions warnings].
  destruct (Dirent.isFile entry); cbn; [|reflexivity]. by intros ->.
Qed.

Lemma loadEntry_agent rt fs directory state entry :
  isAgentFile entry = true ->
  loadEntry rt fs directory state entry =
    match loadFile rt fs directory entry with
    | OK d => (state.1 ++ [d], state.2)%list
    | Throw e => (state.1, state.2 ++ [failureWarning rt directory entry e])%list
    end.
Proof.
  unfold isAgentFile, loadEntry, loadFile, failureWarning.
  destruct state as [definitions warnings].
  intros H. apply andb_true_iff in H as [-> ->]. cbn.
  destruct (readFile fs _); cbn; [|reflexivity].
  destruct (parseAgentMarkdown rt _ _); reflexivity.
Qed.

Lemma loadEntries rt fs directory entries : forall state,
  foldl (loadEntry rt fs directory) state entries
  = ((state.1 ++ loadedDefinitions rt fs directory entries)%list,
     (state.2 ++ loadWarnings rt fs directory entries)%list).
Proof.
  unfold loadedDefinitions, loadWarnings.
  induction entries as [|entry entries IH]; intros state; cbn [foldl List.filter].
  - destruct state. cbn [omap list_omap fst snd]. by rewrite !app_nil_r.
  - rewrite IH. destruct (isAgentFile entry) eqn:E.
    + rewrite loadEntry_agent by exact E. cbn [omap list_omap].
      destruct (loadFile rt fs directory entry); cbn [fst snd];
        by rewrite <- ?app_assoc.
    + by rewrite loadEntry_ignored by exact E.
Qed.

Lemma loaded_or_warned rt fs directory entries :
  length (loadedDefinitions rt fs directory entries)
  + length (loadWarnings rt fs directory entries)
  = length (List.filter isAgentFile entries).
Proof.
  unfold loadedDefinitions, loadWarnings.
  induction (List.filter isAgentFile entries) as [|entry files IH]; cbn; [reflexivity|].
  destruct (loadFile rt fs directory entry); cbn; lia.
Qed.

(** C7.  The directory loader returns exactly the definitions of the regular
    files whose name ends in the suffix and whose content parses, in the
    order of the directory; each file that fails is left out and logged in a
    warning that names it, the others being loaded all the same; a directory
    that does not exist gives the empty result and no warning, and any other
    failure to list it the empty result.  No case throws. *)
Theorem directory_loading (rt : Host) (fs : FileSystem) (directory : string) :
  (forall entries,
     readdir fs directory = OK entries ->
     loadAgentsFromDirectory rt fs directory
       = (loadedDefinitions rt fs directory entries,
          loadWarnings rt fs directory entries)
     /\ length (loadedDefinitions rt fs directory entries)
        + length (loadWarnings rt fs directory entries)
        = length (List.filter isAgentFile entries))
  /\ (forall message,
        readdir fs directory = Throw (SystemError "ENOENT" message) ->
        loadAgentsFromDirectory rt fs directory = ([], []))
  /\ (forall e,
        readdir fs directory = Throw e ->
        (loadAgentsFromDirectory rt fs directory).1 = []).
Proof.
  unfold loadAgentsFromDirectory. split; [|split].
  - intros entries ->. split; [|apply loaded_or_warned].
    by rewrite loadEntries.
  - by intros message ->.
  - intros e ->. by destruct (isCase (exn_code e) "ENOENT").
Qed.

(** C7 on the example file system: one definition and one warning from
    [agents], nothing from a directory that does not exist. *)
Lemma directory_loading_witness :
  (exists entries,
     readdir example_fs "agents" = OK entries
     /\ loadAgentsFromDirectory reference_host example_fs "agents"
        = (loadedDefinitions reference_host example_fs "agents" entries,
           loadWarnings reference_host example_fs "agents" entries)
     /\ map AgentDefinition.name (loadedDefinitions reference_host example_fs "agents" entries)
        = ["Code Cartographer"]
     /\ loadWarnings reference_host example_fs "agents" entries
        = ["[AgentRegistry] Failed to load agent from agents/broken.agent.md: "
           ++ exn_message (missingHeader "agents/broken.agent.md")])
  /\ (readdir example_fs "nowhere"
        = Throw (SystemError "ENOENT" "ENOENT: no such file or directory, scandir")
      /\ loadAgentsFromDirectory reference_host example_fs "nowhere" = ([], [])).
Proof.
  destruct (directory_loading reference_host example_fs "agents") as (Hok & _).
  destruct (directory_loading reference_host example_fs "nowhere") as (_ & Hmissing & _).
  split.
  - eexists. split; [vm_compute; reflexivity|].
    split; [apply Hok; vm_compute; reflexivity|].
    split; vm_compute; reflexivity.
  - split; [vm_compute; reflexivity|].
    eapply Hmissing. vm_compute. reflexivity.
Defined.

(* ================================================================== *)
(** ** The file-name filter *)

Lemma isAgentFile_iff entry :
  isAgentFile entry = true
  <-> Dirent.isFile entry = true
      /\ exists stem suffix,
           Dirent.name entry = stem ++ suffix /\ Str.toLowerCase suffix = ".agent.md".
Proof.
  unfold isAgentFile. rewrite andb_true_iff, endsWith_iff. split.
  - intros [Hf (stem & Hs)]. split; [exact Hf|].
    apply toLowerCase_split in Hs as (x & y & Hxy & _ & Hy). eauto.
  - intros [Hf (stem & suffix & -> & Hs)]. split; [exact Hf|].
    exists (Str.toLowerCase stem). by rewrite toLowerCase_app, Hs.
Qed.

(** C10.  The filter on file names ignores case: an entry is taken for an
    agent specification exactly when it is a regular file whose name ends in
    [.agent.md] written in any case.  Such an entry is read and parsed, and
    gives a definition or a warning; any other entry leaves the result as it
    was.  [X.AGENT.MD] is such an entry. *)
Theorem filename_filter (rt : Host) (fs : FileSystem) (directory : string)
    (state : LoadState) (entry : Dirent.t) :
  (isAgentFile entry = true
   <-> Dirent.isFile entry = true
       /\ exists stem suffix,
            Dirent.name entry = stem ++ suffix /\ Str.toLowerCase suffix = ".agent.md")
  /\ (isAgentFile entry = true ->
      loadEntry rt fs directory state entry =
        match loadFile rt fs directory entry with
        | OK d => (state.1 ++ [d], state.2)%list
        | Throw e => (state.1, state.2 ++ [failureWarning rt directory entry e])%list
        end)
  /\ (isAgentFile entry = false -> loadEntry rt fs directory state entry = state)
  /\ isAgentFile {| Dirent.name := "X.AGENT.MD"; Dirent.isFile := true |} = true.
Proof.
  split; [apply isAgentFile_iff|]. split; [apply loadEntry_agent|].
  split; [apply loadEntry_ignored|reflexivity].
Qed.

(** C10 on a directory that holds the sample document under the name
    [X.AGENT.MD] next to a note: the document is parsed, the note ignored. *)
Lemma filename_filter_witness :
  let fs := {| readdir := fun _ => OK [];
               readFile := fun _ => OK SAMPLE_MARKDOWN |} in
  let shouting := {| Dirent.name := "X.AGENT.MD"; Dirent.isFile := true |} in
  let note := {| Dirent.name := "notes.txt"; Dirent.isFile := true |} in
  isAgentFile shouting = true
  /\ isAgentFile note = false
  /\ (exists d,
        parseAgentMarkdown reference_host SAMPLE_MARKDOWN "agents/X.AGENT.MD" = OK d
        /\ loadEntry reference_host fs "agents" ([], []) shouting = ([d], []))
  /\ loadEntry reference_host fs "agents" ([], []) note = ([], []).
Proof.
  intros fs shouting note.
  destruct (filename_filter reference_host fs "agents" ([], []) shouting)
    as (_ & Hagent & _).
  destruct (filename_filter reference_host fs "agents" ([], []) note)
    as (_ & _ & Hignored & _).
  split; [reflexivity|]. split; [reflexivity|]. split.
  - destruct (parseAgentMarkdown reference_host SAMPLE_MARKDOWN "agents/X.AGENT.MD")
      as [d|e] eqn:E; [|vm_compute in E; discriminate].
    exists d. split; [reflexivity|].
    rewrite Hagent by reflexivity.
    change (loadFile reference_host fs "agents" shouting)
      with (parseAgentMarkdown reference_host SAMPLE_MARKDOWN "agents/X.AGENT.MD").
    by rewrite E.
  - apply Hignored. reflexivity.
Defined.

(* ================================================================== *)
(** * Further properties of the code *)

(* ================================================================== *)
(** ** Trimming and lower case *)

Lemma append_assoc (a b c : string) : (a ++ b) ++ c = a ++ b ++ c.
Proof.
  induction a as [|x a IH]; [reflexivity|]. by rewrite !append_cons, IH.
Qed.

Lemma append_nil_r (a : string) : a ++ "" = a.
Proof. induction a as [|x a IH]; [reflexivity|]. by rewrite append_cons, IH. Qed.

Lemma append_nil_l (a : string) : "" ++ a = a.
Proof. reflexivity. Qed.

Lemma trimStart_head s : startsIn space (Str.trimStart s) = false.
Proof.
  induction s as [|c r IH]; [reflexivity|]. cbn [Str.trimStart].
  destruct (Str.isSpace c) eqn:E; [exact IH|]. exact E.
Qed.

Lemma trimEnd_idem s : Str.trimEnd (Str.trimEnd s) = Str.trimEnd s.
Proof.
  induction s as [|c r IH]; [reflexivity|]. cbn [Str.trimEnd].
  destruct (Str.trimEnd r) as [|d t] eqn:E.
  - destruct (Str.isSpace c) eqn:Ec; [reflexivity|]. cbn. by rewrite Ec.
  - cbn [Str.trimEnd] in IH |- *. by rewrite IH.
Qed.

Lemma trimEnd_head s : startsIn space s = false -> startsIn space (Str.trimEnd s) = false.
Proof.
  destruct s as [|c r]; [reflexivity|]. cbn [startsIn Str.trimEnd]. unfold space.
  intros Hc. destruct (Str.trimEnd r); [by rewrite Hc|exact Hc].
Qed.

Lemma trim_idem s : Str.trim (Str.trim s) = Str.trim s.
Proof.
  unfold Str.trim.
  rewrite (trimStart_fixed (Str.trimEnd _)) by apply trimEnd_head, trimStart_head.
  apply trimEnd_idem.
Qed.

Lemma trimStart_length s : String.length (Str.trimStart s) <= String.length s.
Proof.
  induction s as [|c r IH]; [reflexivity|]. cbn [Str.trimStart].
  destruct (Str.isSpace c); cbn; lia.
Qed.

Lemma trimEnd_length s : String.length (Str.trimEnd s) <= String.length s.
Proof.
  induction s as [|c r IH]; [reflexivity|]. cbn [Str.trimEnd].
  destruct (Str.trimEnd r); [destruct (Str.isSpace c)|]; cbn in *; lia.
Qed.

(** A text that [trim] leaves as it is starts with no space and ends with
    none. *)
Lemma trim_fixed s :
  Str.trim s = s <-> startsIn space s = false /\ Str.trimEnd s = s.
Proof.
  split.
  - intros H. destruct s as [|c r]; [by split|].
    destruct (Str.isSpace c) eqn:Ec.
    + exfalso. unfold Str.trim in H. cbn [Str.trimStart] in H. rewrite Ec in H.
      pose proof (trimEnd_length (Str.trimStart r)).
      pose proof (trimStart_length r).
      rewrite H in *. cbn in *. lia.
    + split; [exact Ec|]. unfold Str.trim in H. cbn [Str.trimStart] in H.
      by rewrite Ec in H.
  - intros [Hs He]. unfold Str.trim. by rewrite trimStart_fixed.
Qed.

Lemma trimEnd_app a b :
  Str.trimEnd b <> "" -> Str.trimEnd (a ++ b) = a ++ Str.trimEnd b.
Proof.
  intros Hb. induction a as [|c a IH]; [reflexivity|].
  rewrite !append_cons. cbn [Str.trimEnd]. rewrite IH.
  destruct (a ++ Str.trimEnd b) eqn:E; [|reflexivity].
  destruct a; [|discriminate]. by destruct Hb.
Qed.

Lemma trimEnd_keeps a b :
  Str.trimEnd b = b /\ b <> "" -> Str.trimEnd (a ++ b) = a ++ b /\ a ++ b <> "".
Proof.
  intros [Hb Hne]. split.
  - rewrite trimEnd_app; by rewrite Hb.
  - destruct a; [exact Hne|discriminate].
Qed.

Lemma trimEnd_space a c :
  Str.isSpace c = true -> Str.trimEnd (a ++ String c "") = Str.trimEnd a.
Proof.
  intros Hc. induction a as [|x a IH].
  { change ("" ++ String c "") with (String c ""). cbn [Str.trimEnd]. by rewrite Hc. }
  rewrite append_cons. cbn [Str.trimEnd]. by rewrite IH.
Qed.

(** [trim] leaves a text alone that starts with a trimmed text and ends
    with a character that is no space. *)
Lemma trim_app a b :
  a <> "" -> Str.trim a = a -> Str.trimEnd b = b /\ b <> "" ->
  Str.trim (a ++ b) = a ++ b.
Proof.
  intros Ha Hta Hb. apply trim_fixed in Hta as [Hsa _].
  apply trim_fixed. split; [by apply startsIn_app|].
  by apply trimEnd_keeps.
Qed.

Ltac ends_unspaced :=
  repeat apply trimEnd_keeps; split; [vm_compute; reflexivity|discriminate].

Ltac flatten_text := unfold id; rewrite ?append_assoc, ?append_nil_l, ?append_nil_r.

Lemma trim_nonempty_join (parts : list string) :
  parts <> [] ->
  Forall (fun line => line <> "" /\ Str.trim line = line) parts ->
  Str.join " " parts <> "" /\ Str.trim (Str.join " " parts) = Str.join " " parts.
Proof.
  induction parts as [|p rest IH]; [done|]. intros _ Hall.
  apply Forall_cons in Hall as [[Hp Htp] Hrest].
  destruct rest as [|q rest]; [by split|].
  destruct IH as [Hj Htj]; [done|exact Hrest|].
  change (Str.join " " (p :: q :: rest)) with (p ++ " " ++ Str.join " " (q :: rest)).
  split.
  - destruct p; [by destruct Hp|discriminate].
  - apply trim_app; [exact Hp|exact Htp|]. apply trimEnd_keeps.
    apply trim_fixed in Htj as [_ Htj]. by split.
Qed.

Lemma lowerChar_idem c : Str.lowerChar (Str.lowerChar c) = Str.lowerChar c.
Proof. by destruct c as [[] [] [] [] [] [] [] []]. Qed.

Lemma isSpace_lowerChar c : Str.isSpace (Str.lowerChar c) = Str.isSpace c.
Proof. by destruct c as [[] [] [] [] [] [] [] []]. Qed.

Lemma toLowerCase_idem s : Str.toLowerCase (Str.toLowerCase s) = Str.toLowerCase s.
Proof.
  induction s as [|c r IH]; [reflexivity|]. cbn. by rewrite lowerChar_idem, IH.
Qed.

Lemma trimStart_toLowerCase s :
  Str.trimStart (Str.toLowerCase s) = Str.toLowerCase (Str.trimStart s).
Proof.
  induction s as [|c r IH]; [reflexivity|]. cbn [Str.toLowerCase Str.trimStart].
  rewrite isSpace_lowerChar. by destruct (Str.isSpace c).
Qed.

Lemma trimEnd_toLowerCase s :
  Str.trimEnd (Str.toLowerCase s) = Str.toLowerCase (Str.trimEnd s).
Proof.
  induction s as [|c r IH]; [reflexivity|]. cbn [Str.toLowerCase Str.trimEnd].
  rewrite IH, isSpace_lowerChar.
  destruct (Str.trimEnd r); cbn [Str.toLowerCase]; [by destruct (Str.isSpace c)|reflexivity].
Qed.

Lemma trim_toLowerCase s :
  Str.trim (Str.toLowerCase s) = Str.toLowerCase (Str.trim s).
Proof. unfold Str.trim. by rewrite trimStart_toLowerCase, trimEnd_toLowerCase. Qed.

(* ================================================================== *)
(** ** The sections of a document *)

Lemma collectSections_normalised markdown matches : forall sections,
  map_Forall normalised sections ->
  map_Forall normalised (collectSections markdown matches sections).
Proof.
  induction matches as [|m later IH]; intros sections H; [exact H|].
  cbn [collectSections]. apply IH. apply map_Forall_insert_2; [|exact H].
  split; [apply toLowerCase_idem|]. split; [|apply trim_idem].
  by rewrite trim_toLowerCase, trim_idem.
Qed.

Lemma extractSections_normalised markdown heading body :
  extractSections markdown !! heading = Some body -> normalised heading body.
Proof.
  intros H. eapply (collectSections_normalised markdown _ ∅); [|exact H].
  apply map_Forall_empty.
Qed.

(** X1.  [extractSections] stores every section under a normalized heading:
    the key is lower-case and has no space at either end, and the body has
    no space at either end. *)
Theorem sections_normalised (markdown heading body : string) :
  extractSections markdown !! heading = Some body ->
  Str.toLowerCase heading = heading
  /\ Str.trim heading = heading
  /\ Str.trim body = body.
Proof. apply extractSections_normalised. Qed.

(** X1 on a heading written in capitals with spaces around it. *)
Lemma sections_normalised_witness :
  let markdown := "# Agent: X
##   Run CONFIG  
   turns and time  

" in
  extractSections markdown !! "run config" = Some "turns and time"
  /\ Str.toLowerCase "run config" = "run config"
  /\ Str.trim "run config" = "run config"
  /\ Str.trim "turns and time" = "turns and time".
Proof.
  intros markdown.
  assert (extractSections markdown !! "run config" = Some "turns and time") as H
    by (vm_compute; reflexivity).
  split; [exact H|]. exact (sections_normalised markdown _ _ H).
Defined.

(* ================================================================== *)
(** ** Guidelines *)

Lemma filter_nil_iff {A} (p : A -> bool) (l : list A) :
  List.filter p l = [] <-> Forall (fun x => p x = false) l.
Proof.
  induction l as [|x l IH]; cbn; [by split|].
  destruct (p x) eqn:E; split.
  - discriminate.
  - intros H. apply Forall_cons in H as [H _]. congruence.
  - intros H. apply Forall_cons. split; [exact E|by apply IH].
  - intros H. apply Forall_cons in H as [_ H]. by apply IH.
Qed.

Lemma trimmed_nonempty (pieces : list string) (f : string -> string) :
  Forall (fun line => line <> "" /\ Str.trim line = line)
    (List.filter (fun line => negb (Str.isEmpty line))
       (map (fun piece => Str.trim (f piece)) pieces)).
Proof.
  induction pieces as [|p pieces IH]; cbn; [constructor|].
  destruct (Str.isEmpty (Str.trim (f p))) eqn:E; cbn; [exact IH|].
  constructor; [|exact IH]. split; [by apply isEmpty_false|apply trim_idem].
Qed.

(** X2.  The guidelines [extractGuidelines] returns are never an empty list
    and never hold an empty or untrimmed item; it returns none exactly when
    every line of the section is blank. *)
Theorem guidelines_shape (section : option string) :
  (forall items,
     extractGuidelines section = Some items ->
     items <> [] /\ Forall (fun item => item <> "" /\ Str.trim item = item) items)
  /\ (extractGuidelines section = None
      <-> Forall (fun line => Str.trim line = "") (Str.split "010" (default "" section))).
Proof.
  unfold extractGuidelines.
  destruct (noSection section) eqn:Hno.
  { split; [discriminate|]. split; [|reflexivity]. intros _.
    destruct section as [[|c r]|]; try discriminate; repeat constructor. }
  set (pieces := Str.split "010" (default "" section)).
  set (lines := List.filter _ (map Str.trim pieces)).
  set (bullets := List.filter _ _).
  assert (Forall (fun line => line <> "" /\ Str.trim line = line) lines) as Hlines
    by apply (trimmed_nonempty pieces (fun piece => piece)).
  assert (lines = [] <-> Forall (fun line => Str.trim line = "") pieces) as Hblank.
  { unfold lines. rewrite filter_nil_iff, Forall_fmap. apply Forall_iff. intros line. cbn.
    rewrite negb_false_iff. destruct (Str.trim line); cbn; split; congruence. }
  destruct bullets as [|bullet more] eqn:Hbullets.
  - destruct lines as [|line rest] eqn:Hl.
    + split; [discriminate|]. split; [intros _; by apply Hblank|reflexivity].
    + split.
      * intros items [= <-]. split; [discriminate|]. constructor; [|constructor].
        by apply (trim_nonempty_join (line :: rest)).
      * split; [discriminate|]. intros H. apply Hblank in H. discriminate.
  - split.
    + intros items [= <-]. split; [discriminate|]. rewrite <- Hbullets.
      apply trimmed_nonempty.
    + split; [discriminate|]. intros H. apply Hblank in H.
      exfalso. unfold bullets in Hbullets. rewrite H in Hbullets. discriminate.
Qed.

(** X2 on a section with bullets, on one without, and on a blank one. *)
Lemma guidelines_shape_witness :
  (let section := Some "Be kind.
- Cite  paths. 
--  Verify.
-" in
   extractGuidelines section = Some ["Cite  paths."; "Verify."]
   /\ Forall (fun item => item <> "" /\ Str.trim item = item) ["Cite  paths."; "Verify."])
  /\ extractGuidelines (Some "Be kind.
Be brief. ") = Some ["Be kind. Be brief."]
  /\ extractGuidelines (Some " 
 ") = None.
Proof.
  split; [|split].
  - intros section.
    assert (extractGuidelines section = Some ["Cite  paths."; "Verify."]) as H
      by (vm_compute; reflexivity).
    split; [exact H|]. by destruct (guidelines_shape section) as [Hshape _], (Hshape _ H).
  - vm_compute. reflexivity.
  - destruct (guidelines_shape (Some " 
 ")) as [_ Hnone].
    apply Hnone. repeat constructor.
Defined.

(* ================================================================== *)
(** ** Tool and server names *)

Lemma existsb_eqb_elem (v : string) (seen : list string) :
  existsb (String.eqb v) seen = true <-> v ∈ seen.
Proof.
  rewrite existsb_exists. split.
  - intros (x & Hin & Heq). apply String.eqb_eq in Heq as <-. by apply list_elem_of_In.
  - intros H. exists v. split; [by apply list_elem_of_In|apply String.eqb_refl].
Qed.

Lemma Set_add_spec (seen : list string) (v : string) :
  NoDup seen ->
  NoDup (JS.Set_add seen v)
  /\ (forall x, x ∈ JS.Set_add seen v <-> x ∈ seen \/ x = v).
Proof.
  intros Hnd. unfold JS.Set_add.
  destruct (existsb (String.eqb v) seen) eqn:E.
  - apply existsb_eqb_elem in E. split; [exact Hnd|].
    intros x. split; [auto|]. intros [H| ->]; assumption.
  - assert (v ∉ seen) as Hv.
    { intros H. apply existsb_eqb_elem in H. congruence. }
    split.
    + apply NoDup_app. split; [exact Hnd|]. split; [|apply NoDup_singleton].
      intros x Hx ->%list_elem_of_singleton. by apply Hv.
    + intros x. by rewrite elem_of_app, list_elem_of_singleton.
Qed.

Lemma dedupe_from (values : list string) : forall seen,
  NoDup seen ->
  NoDup (foldl JS.Set_add seen values)
  /\ (forall x, x ∈ foldl JS.Set_add seen values <-> x ∈ seen \/ x ∈ values).
Proof.
  induction values as [|v values IH]; intros seen Hnd; cbn [foldl].
  - split; [exact Hnd|]. intros x. rewrite elem_of_nil. tauto.
  - destruct (Set_add_spec seen v Hnd) as [Hnd' Hin].
    destruct (IH _ Hnd') as [Hnd'' Hin'']. split; [exact Hnd''|].
    intros x. rewrite Hin'', Hin, elem_of_cons. tauto.
Qed.

(** [Array.from(new Set(values))] has the elements of [values], each once. *)
Lemma dedupe_spec (values : list string) :
  NoDup (JS.dedupe values) /\ (forall x, x ∈ JS.dedupe values <-> x ∈ values).
Proof.
  destruct (dedupe_from values [] (NoDup_nil_2)) as [Hnd Hin].
  split; [exact Hnd|]. intros x. rewrite (Hin x), elem_of_nil. tauto.
Qed.

Lemma sanitizeString_trimmed rt value s :
  sanitizeString rt value = OK (Some s) -> Str.trim s = s.
Proof.
  unfold sanitizeString. destruct (optToString rt value) as [[t|]|]; try discriminate.
  intros [= <-]. apply trim_idem.
Qed.

Lemma parseStringArray_clean rt values names :
  parseStringArray rt values = OK (Some names) ->
  names <> [] /\ NoDup names
  /\ Forall (fun name => name <> "" /\ Str.trim name = name) names.
Proof.
  unfold parseStringArray. destruct values as [[| | | |items|]|]; try discriminate.
  intros H. bind_inv H. apply mapM_OK in Ha.
  set (sanitized := omap _ a) in H.
  assert (Forall (fun name => name <> "" /\ Str.trim name = name) sanitized) as Hclean.
  { unfold sanitized. clear H sanitized.
    induction Ha as [|item value items mapped Hitem _ IH]; cbn; [constructor|].
    destruct value as [[|c r]|]; cbn; try exact IH.
    constructor; [|exact IH]. split; [discriminate|].
    by apply (sanitizeString_trimmed rt item). }
  destruct sanitized as [|first more] eqn:E; [discriminate|].
  injection H as <-. destruct (dedupe_spec (first :: more)) as [Hnd Hin].
  split; [|split; [exact Hnd|]].
  - intros Hnil. assert (first ∈ JS.dedupe (first :: more)) as Hf
      by (apply Hin; left).
    rewrite Hnil in Hf. by apply elem_of_nil in Hf.
  - apply Forall_forall. intros x Hx. apply Hin in Hx.
    by apply (proj1 (Forall_forall _ _) Hclean).
Qed.

Lemma sanitize_nothing rt items :
  forallb namesNothing items = true ->
  exists mapped,
    mapM (sanitizeString rt) items = OK mapped
    /\ omap (fun value : option string => if JS.nonEmpty value then value else None)
         mapped = [].
Proof.
  induction items as [|item items IH]; intros H; [by exists []|].
  cbn [forallb] in H. apply andb_prop in H as [Hitem Hitems].
  destruct (IH Hitems) as (mapped & Hm & Ho).
  destruct item as [| | |s| |]; try discriminate.
  - exists (None :: mapped). cbn. by rewrite Hm.
  - exists (Some (Str.trim s) :: mapped). cbn. rewrite Hm. cbn.
    cbn in Hitem. destruct (Str.trim s); [by split|discriminate].
Qed.

Lemma parseStringArray_nothing rt value :
  givesNoTool value = true -> parseStringArray rt value = OK None.
Proof.
  destruct value as [[| | | |items|]|]; try reflexivity.
  cbn [givesNoTool]. intros H. destruct (sanitize_nothing rt items H) as (mapped & Hm & Ho).
  unfold parseStringArray. rewrite Hm. cbn. by rewrite Ho.
Qed.

Lemma buildConfigFromSections_tools rt name sections source config :
  buildConfigFromSections rt name sections source = OK config ->
  parseJsonSection rt sections source "tools" ≫= parseStringArray rt
    = OK (ParsedAgentConfig.tools config)
  /\ parseJsonSection rt sections source "mcp" ≫= parseStringArray rt
    = OK (ParsedAgentConfig.mcpServers config).
Proof.
  unfold buildConfigFromSections. intros H.
  repeat bind_inv H. injection H as <-. cbn. by rewrite Ha1, Ha2.
Qed.

(** X3.  The tool names of a loaded definition are a list that is not
    empty, holds no name twice, and holds no empty or untrimmed name. *)
Theorem tool_names_clean (rt : Host) (markdown source : string)
    (d : AgentDefinition.t) (config : ToolConfig.t) :
  parseAgentMarkdown rt markdown source = OK d ->
  AgentDefinition.toolConfig d = Some config ->
  ToolConfig.tools config <> []
  /\ NoDup (ToolConfig.tools config)
  /\ Forall (fun name => name <> "" /\ Str.trim name = name) (ToolConfig.tools config).
Proof.
  intros Hd Htools.
  apply parseAgentMarkdown_config in Hd as (parsed & Hc & ->).
  apply buildConfigFromSections_tools in Hc as [Hc _].
  cbn [buildAgentDefinition AgentDefinition.toolConfig] in Htools.
  apply bind_OK in Hc as (value & _ & Hc).
  destruct (ParsedAgentConfig.tools parsed) as [[|tool more]|] eqn:E; try discriminate.
  injection Htools as <-. cbn [ToolConfig.tools].
  by apply (parseStringArray_clean rt value).
Qed.

(** X3 on a document that lists a tool twice, with spaces, a blank and a
    [null]. *)
Lemma tool_names_clean_witness :
  let markdown := quoted "# Agent: T
## Tools
```json
[' ls ', 'grep', 'ls', '  ', null, 7]
```
" in
  exists d,
    parseAgentMarkdown reference_host markdown "t.md" = OK d
    /\ AgentDefinition.toolConfig d = Some {| ToolConfig.tools := ["ls"; "grep"; "7"] |}
    /\ NoDup ["ls"; "grep"; "7"]
    /\ Forall (fun name => name <> "" /\ Str.trim name = name) ["ls"; "grep"; "7"].
Proof.
  intros markdown.
  destruct (parseAgentMarkdown reference_host markdown "t.md") as [d|e] eqn:Hd;
    [|vm_compute in Hd; discriminate].
  assert (AgentDefinition.toolConfig d = Some {| ToolConfig.tools := ["ls"; "grep"; "7"] |})
    as Ht by (vm_compute in Hd; by injection Hd as <-).
  exists d. split; [reflexivity|]. split; [exact Ht|].
  exact (proj2 (tool_names_clean reference_host markdown "t.md" d _ Hd Ht)).
Defined.

(** X4.  A [## Tools] section whose JSON is not an array, or is an array of
    nothing but [null] and blank strings, or that is absent, gives a
    definition without a tool configuration: the document loads as if it
    named no tool. *)
Theorem tools_ignored (rt : Host) (markdown source : string)
    (d : AgentDefinition.t) (value : option json) :
  parseAgentMarkdown rt markdown source = OK d ->
  parseJsonSection rt (extractSections markdown) source "tools" = OK value ->
  givesNoTool value = true ->
  AgentDefinition.toolConfig d = None.
Proof.
  intros Hd Hvalue Hnot.
  apply parseAgentMarkdown_config in Hd as (parsed & Hc & ->).
  apply buildConfigFromSections_tools in Hc as [Hc _].
  rewrite Hvalue in Hc. cbn in Hc.
  rewrite parseStringArray_nothing in Hc by exact Hnot.
  injection Hc as Hc. cbn [buildAgentDefinition AgentDefinition.toolConfig].
  by rewrite <- Hc.
Qed.

(** X4 on a section that gives the tools as one string. *)
Lemma tools_ignored_witness :
  let markdown := quoted "# Agent: T
## Tools
```json
'ls, grep'
```
" in
  exists d,
    parseAgentMarkdown reference_host markdown "t.md" = OK d
    /\ parseJsonSection reference_host (extractSections markdown) "t.md" "tools"
       = OK (Some (JString "ls, grep"))
    /\ AgentDefinition.toolConfig d = None.
Proof.
  intros markdown.
  destruct (parseAgentMarkdown reference_host markdown "t.md") as [d|e] eqn:Hd;
    [|vm_compute in Hd; discriminate].
  assert (parseJsonSection reference_host (extractSections markdown) "t.md" "tools"
          = OK (Some (JString "ls, grep"))) as Hv by (vm_compute; reflexivity).
  exists d. split; [reflexivity|]. split; [exact Hv|].
  exact (tools_ignored reference_host markdown "t.md" d _ Hd Hv eq_refl).
Defined.

(* ================================================================== *)
(** ** Errors of the engine *)

Lemma bind_Throw {A B} (m : Result A) (f : A -> Result B) (e : Exn) :
  m ≫= f = Throw e <-> m = Throw e \/ exists a, m = OK a /\ f a = Throw e.
Proof.
  destruct m as [a|e']; cbn; split.
  - intros H. right. eauto.
  - intros [H|(a' & [= <-] & H)]; [discriminate|exact H].
  - intros [= <-]. by left.
  - intros [[= ->]|(a' & H & _)]; [reflexivity|discriminate].
Qed.

Lemma mapM_Throw {A B} (f : A -> Result B) (items : list A) (x : A) (e : Exn) :
  x ∈ items -> f x = Throw e ->
  exists y e', y ∈ items /\ f y = Throw e' /\ mapM f items = Throw e'.
Proof.
  intros Hx He. induction items as [|item items IH]; [by apply elem_of_nil in Hx|].
  cbn. destruct (f item) as [b|e'] eqn:E.
  - apply elem_of_cons in Hx as [->|Hx]; [congruence|].
    destruct (IH Hx) as (y & e'' & Hy & Hfy & Hm).
    exists y, e''. split; [by right|]. split; [exact Hfy|]. cbn. by rewrite Hm.
  - exists item, e'. split; [by left|]. by split.
Qed.

Lemma optTrim_Throw what v e : JS.optTrim what v = Throw e -> isTypeError e = true.
Proof. destruct v as [[]|]; cbn; try discriminate; by intros [= <-]. Qed.

Lemma optToLowerCase_Throw what v e :
  JS.optToLowerCase what v = Throw e -> isTypeError e = true.
Proof. destruct v as [[]|]; cbn; try discriminate; by intros [= <-]. Qed.

Lemma get_Throw v key e : JS.get v key = Throw e -> isTypeError e = true.
Proof. destruct v; cbn; try discriminate; by intros [= <-]. Qed.

Ltac throw_inv H :=
  lazymatch type of H with
  | mbind _ _ = Throw _ =>
      apply bind_Throw in H as [H|(? & _ & H)]; [throw_inv H|throw_inv H]
  | JS.get _ _ = Throw _ => by apply get_Throw in H
  | JS.optTrim _ _ = Throw _ => by apply optTrim_Throw in H
  | JS.optToLowerCase _ _ = Throw _ => by apply optToLowerCase_Throw in H
  | _ => idtac
  end.

Lemma sanitizeInput_Throw item e : sanitizeInput item = Throw e -> isTypeError e = true.
Proof.
  unfold sanitizeInput. intros H. throw_inv H. discriminate.
Qed.

Lemma parseInputs_Throw inputs e : parseInputs inputs = Throw e -> isTypeError e = true.
Proof.
  unfold parseInputs. destruct inputs as [inputs|]; [|discriminate].
  destruct (negb (JS.truthy inputs) || JS.lengthIsZero inputs); [discriminate|].
  destruct inputs; try by intros [= <-].
  intros H. apply bind_Throw in H as [H|(mapped & _ & H)].
  - revert e H. induction items as [|item items IH]; intros e H; [discriminate|].
    cbn in H. destruct (sanitizeInput item) eqn:E; cbn in H.
    + destruct (mapM sanitizeInput items) eqn:E'; cbn in H; [discriminate|].
      injection H as <-. by apply IH.
    + injection H as <-. by apply sanitizeInput_Throw in E.
  - by destruct (List.filter _ (List.filter _ mapped)).
Qed.

Lemma parseAgentMarkdown_inputs_error rt markdown source name e :
  extractAgentName markdown source = OK name ->
  parseJsonSection rt (extractSections markdown) source "inputs" ≫= parseInputs = Throw e ->
  parseAgentMarkdown rt markdown source = Throw e.
Proof.
  intros Hname He. unfold parseAgentMarkdown. rewrite Hname. cbn.
  unfold buildConfigFromSections. by rewrite He.
Qed.

(** X5.  A [## Inputs] section whose JSON is truthy, has no zero [length]
    and is not an array of objects (a value that is no array, or an array
    that holds a [null]) makes [parseAgentMarkdown] fail; when the document
    has its name, the failure is a [TypeError] of the engine, not a message
    of the loader. *)
Theorem inputs_must_be_array (rt : Host) (markdown source : string) (value : json) :
  parseJsonSection rt (extractSections markdown) source "inputs" = OK (Some value) ->
  JS.truthy value = true ->
  JS.lengthIsZero value = false ->
  (forall items, value = JArray items -> JNull ∈ items) ->
  succeeded (parseAgentMarkdown rt markdown source) = false
  /\ (succeeded (extractAgentName markdown source) = true ->
      exists message, parseAgentMarkdown rt markdown source = Throw (TypeError message)).
Proof.
  intros Hvalue Htruthy Hlength Hitems.
  assert (exists e, parseInputs (Some value) = Throw e) as (e & He).
  { unfold parseInputs. rewrite Htruthy, Hlength. cbn [negb orb].
    destruct value; try by eexists.
    destruct (mapM_Throw sanitizeInput items JNull
                (TypeError "Cannot read properties of null (reading 'name')"))
      as (y & e & _ & _ & Hm); [by apply Hitems|reflexivity|].
    exists e. by rewrite Hm. }
  assert (isTypeError e = true) as Hte by (by apply parseInputs_Throw in He).
  destruct (extractAgentName markdown source) as [name|e'] eqn:Hname.
  - rewrite (parseAgentMarkdown_inputs_error rt markdown source name e Hname)
      by (by rewrite Hvalue).
    split; [reflexivity|]. intros _. destruct e; try discriminate. by eexists.
  - rewrite (parseAgentMarkdown_no_name rt markdown source e' Hname).
    split; [reflexivity|discriminate].
Qed.

(** X5 on a section that gives one input as an object instead of an
    array. *)
Lemma inputs_must_be_array_witness :
  let markdown := quoted "# Agent: T
## Inputs
```json
{'name': 'path', 'type': 'string'}
```
" in
  parseJsonSection reference_host (extractSections markdown) "t.md" "inputs"
    = OK (Some (JObject [("name", JString "path"); ("type", JString "string")]))
  /\ succeeded (parseAgentMarkdown reference_host markdown "t.md") = false
  /\ exists message,
       parseAgentMarkdown reference_host markdown "t.md" = Throw (TypeError message).
Proof.
  intros markdown.
  assert (parseJsonSection reference_host (extractSections markdown) "t.md" "inputs"
          = OK (Some (JObject [("name", JString "path"); ("type", JString "string")])))
    as Hv by (vm_compute; reflexivity).
  split; [exact Hv|].
  destruct (inputs_must_be_array reference_host markdown "t.md" _ Hv eq_refl eq_refl)
    as [Hfail Herror]; [discriminate|].
  split; [exact Hfail|]. apply Herror. vm_compute. reflexivity.
Defined.

Lemma buildConfigFromSections_output rt name sections source config :
  buildConfigFromSections rt name sections source = OK config ->
  exists section,
    parseJsonSection rt sections source "output" = OK section
    /\ parseOutput section = OK (ParsedAgentConfig.output config).
Proof.
  unfold buildConfigFromSections. intros H.
  repeat bind_inv H. injection H as <-. cbn.
  apply bind_OK in Ha0 as (section & Hs & Ho). eauto.
Qed.

Lemma buildConfigFromSections_model rt name sections source config :
  buildConfigFromSections rt name sections source = OK config ->
  exists section,
    parseJsonSection rt sections source "model" = OK section
    /\ parseModel section = OK (ParsedAgentConfig.model config).
Proof.
  unfold buildConfigFromSections. intros H.
  repeat bind_inv H. injection H as <-. cbn.
  apply bind_OK in Ha3 as (section & Hs & Ho). eauto.
Qed.

Lemma get_optTrim_OK what value key text :
  JS.get value key ≫= JS.optTrim what = OK text ->
  text = declaredText (declaredField (Some value) key).
Proof.
  destruct value as [| | | | |fields]; cbn; try discriminate; try by intros [= <-].
  destruct (JS.assoc key fields) as [[]|]; cbn; try discriminate; by intros [= <-].
Qed.

Lemma declared_member section field :
  nothingDeclared section = false ->
  JS.member (default JNull section) field = declaredField section field.
Proof. destruct section as [[]|]; try discriminate; reflexivity. Qed.

Lemma nothingDeclared_field section field :
  nothingDeclared section = true -> declaredField section field = None.
Proof. destruct section as [[]|]; try discriminate; reflexivity. Qed.

(* ================================================================== *)
(** ** The model and the output *)

Lemma parseModel_OK section spec :
  parseModel section = OK spec ->
  (spec ≫= AgentModelSpec.model) = declaredText (declaredField section "model")
  /\ (spec ≫= AgentModelSpec.temperature) = JS.asNumber (declaredField section "temperature")
  /\ (spec ≫= AgentModelSpec.top_p) = JS.asNumber (declaredField section "top_p")
  /\ (spec ≫= AgentModelSpec.thinkingBudget)
     = JS.asNumber (declaredField section "thinkingBudget").
Proof.
  unfold parseModel. destruct section as [value|]; [|by intros [= <-]].
  destruct (JS.truthy value) eqn:Ht; cbn [negb].
  - rewrite <- !(declared_member (Some value) _) by (cbn; by rewrite Ht).
    intros H. bind_inv H. injection H as <-.
    apply get_optTrim_OK in Ha as ->. by repeat split.
  - rewrite !(nothingDeclared_field (Some value)) by (cbn; by rewrite Ht).
    intros [= <-]. by repeat split.
Qed.

(** X6.  The model of a loaded definition is the trimmed [model] of the
    [## Model] section, or the default model when that is missing or empty;
    temperature, [top_p] and thinking budget are each the number the
    section declares, or its own default when the field is missing or is
    not a number. *)
Theorem model_defaulting (rt : Host) (markdown source : string) (d : AgentDefinition.t) :
  parseAgentMarkdown rt markdown source = OK d ->
  exists section,
    parseJsonSection rt (extractSections markdown) source "model" = OK section
    /\ ModelConfig.model (AgentDefinition.modelConfig d)
       = JS.orElse (declaredText (declaredField section "model")) (DEFAULT_GEMINI_MODEL rt)
    /\ ModelConfig.temp (AgentDefinition.modelConfig d)
       = default DEFAULT_TEMPERATURE (JS.asNumber (declaredField section "temperature"))
    /\ ModelConfig.top_p (AgentDefinition.modelConfig d)
       = default DEFAULT_TOP_P (JS.asNumber (declaredField section "top_p"))
    /\ ModelConfig.thinkingBudget (AgentDefinition.modelConfig d)
       = default (DEFAULT_THINKING_MODE rt)
           (JS.asNumber (declaredField section "thinkingBudget")).
Proof.
  intros Hd.
  apply parseAgentMarkdown_config in Hd as (config & Hc & ->).
  apply buildConfigFromSections_model in Hc as (section & Hs & Hm).
  exists section. split; [exact Hs|].
  apply parseModel_OK in Hm as (Hname & Htemp & Htop & Hbudget).
  cbn [buildAgentDefinition AgentDefinition.modelConfig buildModelConfig
       ModelConfig.model ModelConfig.temp ModelConfig.top_p ModelConfig.thinkingBudget].
  by rewrite Hname, Htemp, Htop, Hbudget.
Qed.

(** X6 on a section that declares a temperature, a blank model and a
    [top_p] that is a string. *)
Lemma model_defaulting_witness :
  let markdown := quoted "# Agent: T
## Model
```json
{'model': '  ', 'temperature': 0.5, 'top_p': '0.9'}
```
" in
  exists d,
    parseAgentMarkdown reference_host markdown "t.md" = OK d
    /\ AgentDefinition.modelConfig d
       = {| ModelConfig.model := "gemini-2.5-pro";
            ModelConfig.temp := 0.5%float;
            ModelConfig.top_p := DEFAULT_TOP_P;
            ModelConfig.thinkingBudget := (-1)%float |}.
Proof.
  intros markdown.
  destruct (parseAgentMarkdown reference_host markdown "t.md") as [d|e] eqn:Hd;
    [|vm_compute in Hd; discriminate].
  exists d. split; [reflexivity|].
  destruct (model_defaulting reference_host markdown "t.md" d Hd)
    as (section & Hs & Hmodel & Htemp & Htop & Hbudget).
  assert (section = Some (JObject [("model", JString "  "); ("temperature", JNumber 0.5);
                                   ("top_p", JString "0.9")])) as ->
    by (vm_compute in Hs; by injection Hs as <-).
  clear Hd Hs. destruct (AgentDefinition.modelConfig d) as [model temp top_p budget].
  cbn [ModelConfig.model ModelConfig.temp ModelConfig.top_p ModelConfig.thinkingBudget]
    in Hmodel, Htemp, Htop, Hbudget.
  rewrite Hmodel, Htemp, Htop, Hbudget. vm_compute. reflexivity.
Defined.

Lemma get_optTrim_notText what fields key value :
  JS.assoc key fields = Some value -> notText value = true ->
  exists e, JS.get (JObject fields) key ≫= JS.optTrim what = Throw e.
Proof. cbn. intros -> H. destruct value; try discriminate; by eexists. Qed.

Lemma get_optToLowerCase_notText what fields key value :
  JS.assoc key fields = Some value -> notText value = true ->
  exists e, JS.get (JObject fields) key ≫= JS.optToLowerCase what = Throw e.
Proof. cbn. intros -> H. destruct value; try discriminate; by eexists. Qed.

Lemma bind_ret {A B} (a : A) (f : A -> Result B) : OK a ≫= f = f a.
Proof. reflexivity. Qed.

Lemma parseOutput_notText fields field value :
  field ∈ ["name"; "type"; "description"] ->
  JS.assoc field fields = Some value -> notText value = true ->
  succeeded (parseOutput (Some (JObject fields))) = false.
Proof.
  intros Hfield Hvalue Hnot. unfold parseOutput. cbn [JS.truthy negb].
  rewrite !elem_of_cons, elem_of_nil in Hfield.
  destruct Hfield as [->|[->|[->|[]]]].
  - destruct (get_optTrim_notText "output.name" _ _ _ Hvalue Hnot) as (e & ->).
    reflexivity.
  - destruct (_ ≫= JS.optTrim "output.name"); [|reflexivity].
    rewrite bind_ret; cbn beta.
    destruct (get_optToLowerCase_notText "output.type" _ _ _ Hvalue Hnot) as (e & ->).
    reflexivity.
  - destruct (_ ≫= JS.optTrim "output.name"); [|reflexivity].
    rewrite bind_ret; cbn beta.
    destruct (_ ≫= JS.optToLowerCase "output.type"); [|reflexivity].
    rewrite bind_ret; cbn beta.
    destruct (get_optTrim_notText "output.description" _ _ _ Hvalue Hnot) as (e & ->).
    reflexivity.
Qed.

Lemma parseModel_notText fields value :
  JS.assoc "model" fields = Some value -> notText value = true ->
  succeeded (parseModel (Some (JObject fields))) = false.
Proof.
  intros Hvalue Hnot. unfold parseModel. cbn [JS.truthy negb].
  destruct (get_optTrim_notText "model.model" _ _ _ Hvalue Hnot) as (e & ->).
  reflexivity.
Qed.

(** X7.  The fields the loader reads as text ([name], [type] and
    [description] of [## Output], [model] of [## Model]) must be strings or
    [null]: a document that gives one of them as a number, a boolean, an
    array or an object is not loaded. *)
Theorem text_fields_checked (rt : Host) (markdown source section field : string)
    (fields : list (string * json)) (value : json) :
  (section, field) ∈ textFields ->
  parseJsonSection rt (extractSections markdown) source section = OK (Some (JObject fields)) ->
  JS.assoc field fields = Some value ->
  notText value = true ->
  succeeded (parseAgentMarkdown rt markdown source) = false.
Proof.
  intros Hfield Hsection Hvalue Hnot.
  destruct (parseAgentMarkdown rt markdown source) as [d|e] eqn:Hd; [|reflexivity].
  exfalso. apply parseAgentMarkdown_config in Hd as (config & Hc & _).
  unfold textFields in Hfield. rewrite !elem_of_cons, elem_of_nil in Hfield.
  assert (section = "output" /\ field ∈ ["name"; "type"; "description"]
          \/ section = "model" /\ field = "model") as [[-> Hf]|[-> ->]].
  { destruct Hfield as [[= -> ->]|[[= -> ->]|[[= -> ->]|[[= -> ->]|[]]]]];
      [left|left|left|right]; split; try reflexivity;
      rewrite !elem_of_cons; auto. }
  - apply buildConfigFromSections_output in Hc as (out & Hs & Ho).
    rewrite Hsection in Hs. injection Hs as <-.
    pose proof (parseOutput_notText fields field value Hf Hvalue Hnot) as Hfail.
    by rewrite Ho in Hfail.
  - apply buildConfigFromSections_model in Hc as (out & Hs & Ho).
    rewrite Hsection in Hs. injection Hs as <-.
    pose proof (parseModel_notText fields value Hvalue Hnot) as Hfail.
    by rewrite Ho in Hfail.
Qed.

(** X7 on an output whose name is a number. *)
Lemma text_fields_checked_witness :
  let markdown := quoted "# Agent: T
## Output
```json
{'name': 7}
```
" in
  ("output", "name") ∈ textFields
  /\ parseJsonSection reference_host (extractSections markdown) "t.md" "output"
     = OK (Some (JObject [("name", JNumber 7)]))
  /\ succeeded (parseAgentMarkdown reference_host markdown "t.md") = false.
Proof.
  intros markdown.
  assert (("output", "name") ∈ textFields) as Hin by (unfold textFields; left).
  assert (parseJsonSection reference_host (extractSections markdown) "t.md" "output"
          = OK (Some (JObject [("name", JNumber 7)]))) as Hv by (vm_compute; reflexivity).
  split; [exact Hin|]. split; [exact Hv|].
  exact (text_fields_checked reference_host markdown "t.md" "output" "name" _ _
           Hin Hv eq_refl eq_refl).
Defined.

Lemma get_type_OK what value type :
  JS.get value "type" ≫= JS.optToLowerCase what = OK type ->
  bool_decide (type = Some "json") = declaresJson (Some value).
Proof.
  unfold declaresJson.
  destruct value as [| | | | |fields]; cbn; try discriminate; try by intros [= <-].
  destruct (JS.assoc "type" fields) as [[]|]; cbn; try discriminate;
    try by intros [= <-].
  intros [= <-]. destruct (String.eqb_spec (Str.toLowerCase s) "json") as [->|Hne].
  - by rewrite bool_decide_eq_true_2.
  - rewrite bool_decide_eq_false_2; [reflexivity|congruence].
Qed.

Lemma parseOutput_OK section spec :
  parseOutput section = OK spec ->
  match spec with
  | None => nothingDeclared section = true
  | Some output =>
      nothingDeclared section = false
      /\ AgentOutputSpec.name output
         = JS.orElse (declaredText (declaredField section "name")) "result"
      /\ AgentOutputSpec.description output
         = JS.orElse (declaredText (declaredField section "description")) ""
      /\ AgentOutputSpec.type output
         = (if declaresJson section then json_output else text)
      /\ (declaresJson section = true ->
          AgentOutputSpec.schema output = declaredField section "schema")
  end.
Proof.
  unfold parseOutput. destruct section as [value|]; [|by intros [= <-]].
  destruct (JS.truthy value) eqn:Ht; cbn [negb]; [|intros [= <-]; cbn; by rewrite Ht].
  intros H. repeat bind_inv H. injection H as <-.
  cbn [AgentOutputSpec.name AgentOutputSpec.description AgentOutputSpec.type
       AgentOutputSpec.schema nothingDeclared].
  rewrite Ht. split; [reflexivity|].
  apply get_optTrim_OK in Ha as ->. apply get_optTrim_OK in Ha1 as ->.
  repeat split.
  - by apply get_type_OK in Ha0 as ->.
  - intros Hjson. unfold declaresJson in Hjson.
    destruct value as [| | | | |fields]; try discriminate.
    cbn in Ha2. by injection Ha2 as <-.
Qed.

(** X8.  Every loaded definition has an output configuration, whose name
    and description are never empty: the name is the declared name or
    [result]; the description is the declared one, or a sentence chosen by
    whether the section is missing, declares [json], or declares something
    else. *)
Theorem output_config (rt : Host) (markdown source : string) (d : AgentDefinition.t) :
  parseAgentMarkdown rt markdown source = OK d ->
  exists section config,
    parseJsonSection rt (extractSections markdown) source "output" = OK section
    /\ AgentDefinition.outputConfig d = Some config
    /\ OutputConfig.outputName config
       = JS.orElse (declaredText (declaredField section "name")) "result"
    /\ OutputConfig.description config
       = JS.orElse (declaredText (declaredField section "description"))
           (if nothingDeclared section then "Final answer generated by the agent."
            else if declaresJson section
                 then "Structured JSON output generated by the agent."
                 else "Textual result generated by the agent.")
    /\ OutputConfig.outputName config <> ""
    /\ OutputConfig.description config <> "".
Proof.
  intros Hd.
  apply parseAgentMarkdown_config in Hd as (parsed & Hc & ->).
  apply buildConfigFromSections_output in Hc as (section & Hs & Ho).
  exists section. apply parseOutput_OK in Ho.
  cbn [buildAgentDefinition AgentDefinition.outputConfig].
  destruct (ParsedAgentConfig.output parsed) as [output|]; cbn [buildOutputConfig].
  - destruct Ho as (Hdecl & Hname & Hdesc & Htype & _).
    eexists. split; [exact Hs|]. split; [reflexivity|].
    cbn [OutputConfig.outputName OutputConfig.description].
    rewrite Hname, Hdesc, Htype, Hdecl.
    assert (forall a b, b <> "" -> JS.orElse a b <> "") as Hor
      by (intros [[]|] b Hb; cbn; congruence).
    repeat split.
    + destruct (declaredText (declaredField section "description")) as [[]|];
        cbn; by destruct (declaresJson section).
    + by apply Hor.
    + destruct (declaredText (declaredField section "description")) as [[]|];
        cbn; by destruct (declaresJson section).
  - eexists. split; [exact Hs|]. split; [reflexivity|].
    cbn [OutputConfig.outputName OutputConfig.description].
    rewrite !nothingDeclared_field by exact Ho. rewrite Ho. by repeat split.
Qed.

(** X8 on a document whose output declares the type [JSON] and nothing
    else. *)
Lemma output_config_witness :
  let markdown := quoted "# Agent: T
## Output
```json
{'type': 'JSON', 'name': ' '}
```
" in
  exists d config,
    parseAgentMarkdown reference_host markdown "t.md" = OK d
    /\ AgentDefinition.outputConfig d = Some config
    /\ OutputConfig.outputName config = "result"
    /\ OutputConfig.description config = "Structured JSON output generated by the agent.".
Proof.
  intros markdown.
  destruct (parseAgentMarkdown reference_host markdown "t.md") as [d|e] eqn:Hd;
    [|vm_compute in Hd; discriminate].
  destruct (output_config reference_host markdown "t.md" d Hd)
    as (section & config & Hs & Hc & Hname & Hdesc & _).
  exists d, config. split; [reflexivity|]. split; [exact Hc|].
  assert (section = Some (JObject [("type", JString "JSON"); ("name", JString " ")])) as ->
    by (vm_compute in Hs; by injection Hs as <-).
  clear Hd Hs. rewrite Hname, Hdesc. split; vm_compute; reflexivity.
Defined.

(** X9.  Whether the output of a loaded definition is structured depends
    on one thing, the [type] of the [## Output] section being [json] in any
    case: then the definition has the function that prints the output as
    JSON and the validator compiled from the declared schema; otherwise it
    has no such function and its validator is the one of strings, whatever
    schema the section declares. *)
Theorem json_output_switch (rt : Host) (markdown source : string) (d : AgentDefinition.t) :
  parseAgentMarkdown rt markdown source = OK d ->
  exists section,
    parseJsonSection rt (extractSections markdown) source "output" = OK section
    /\ AgentDefinition.processOutput d
       = (if declaresJson section then Some stringifyPretty else None)
    /\ (OutputConfig.schema <$> AgentDefinition.outputConfig d)
       = Some (if declaresJson section
               then buildZodSchema rt (declaredField section "schema")
               else ZodString).
Proof.
  intros Hd.
  apply parseAgentMarkdown_config in Hd as (parsed & Hc & ->).
  apply buildConfigFromSections_output in Hc as (section & Hs & Ho).
  exists section. split; [exact Hs|]. apply parseOutput_OK in Ho.
  cbn [buildAgentDefinition AgentDefinition.outputConfig AgentDefinition.processOutput].
  destruct (ParsedAgentConfig.output parsed) as [output|]; cbn [buildOutputConfig fmap option_fmap option_map OutputConfig.schema].
  - destruct Ho as (_ & _ & _ & Htype & Hschema). rewrite Htype.
    destruct (declaresJson section); [|by split].
    by rewrite Hschema.
  - assert (declaresJson section = false) as ->; [|by split].
    unfold declaresJson. by rewrite nothingDeclared_field.
Qed.

(** X9 on an output that declares a schema and the type [text]. *)
Lemma json_output_switch_witness :
  let markdown := quoted "# Agent: T
## Output
```json
{'type': 'text', 'schema': {'type': 'number'}}
```
" in
  exists d,
    parseAgentMarkdown reference_host markdown "t.md" = OK d
    /\ AgentDefinition.processOutput d = None
    /\ (OutputConfig.schema <$> AgentDefinition.outputConfig d) = Some ZodString.
Proof.
  intros markdown.
  destruct (parseAgentMarkdown reference_host markdown "t.md") as [d|e] eqn:Hd;
    [|vm_compute in Hd; discriminate].
  destruct (json_output_switch reference_host markdown "t.md" d Hd)
    as (section & Hs & Hp & Hschema).
  exists d. split; [reflexivity|].
  assert (declaresJson section = false) as Hno
    by (vm_compute in Hs; by injection Hs as <-).
  rewrite Hno in Hp, Hschema. split; assumption.
Defined.

Lemma sanitizeInput_flags item s :
  sanitizeInput item = OK s ->
  s_required s = declaredRequired item /\ s_description s = declaredDescription item.
Proof.
  unfold sanitizeInput, declaredRequired, declaredDescription. intros H.
  repeat bind_inv H. injection H as <-. cbn [s_required s_description].
  apply get_optTrim_OK in Ha2 as ->.
  destruct item; try discriminate; cbn in Ha1; injection Ha1 as <-; by split.
Qed.

(* ================================================================== *)
(** ** The entries of the inputs *)

(** The surviving input that is the last of its name is the one recorded. *)
Lemma recorded_input rt markdown source d items pre post item name :
  parseAgentMarkdown rt markdown source = OK d ->
  parseJsonSection rt (extractSections markdown) source "inputs"
    = OK (Some (JArray items)) ->
  List.filter survives items = (pre ++ item :: post)%list ->
  declaredName item = Some name ->
  Forall (fun later => declaredName later <> Some name) post ->
  exists s,
    sanitizeInput item = OK s
    /\ InputConfig.inputs (AgentDefinition.inputConfig d) !! name
       = Some (inputEntry (asAgentInputSpec s)).
Proof.
  intros Hd Hitems Hsplit Hname Hpost.
  pose proof (filter_survives_all items) as Hall. rewrite Hsplit in Hall.
  apply Forall_app in Hall as [_ Hall].
  apply Forall_cons in Hall as [_ Hall].
  apply parseAgentMarkdown_config in Hd as (config & Hc & ->).
  apply buildConfigFromSections_inputs in Hc.
  rewrite Hitems in Hc. cbn [mbind Result_bind] in Hc.
  apply parseInputs_array in Hc as (valid & Hvalid & Hr).
  rewrite Hsplit in Hvalid.
  apply Forall2_app_inv_l in Hvalid as (vpre & vrest & Hpre & Hrest & ->).
  apply Forall2_cons_inv_l in Hrest as (s & vpost & Hs & Hvpost & ->).
  exists s. split; [exact Hs|].
  cbn [buildAgentDefinition AgentDefinition.inputConfig].
  assert (ParsedAgentConfig.inputs config
          = Some (map asAgentInputSpec (vpre ++ s :: vpost)%list)) as ->
    by (rewrite Hr; destruct vpre; reflexivity).
  destruct (map asAgentInputSpec (vpre ++ s :: vpost)%list) as [|input more] eqn:E;
    [by destruct vpre|].
  rewrite buildInputConfig_some, <- E, map_app, map_cons, map_app. cbn [map].
  destruct (asAgentInputSpec_declared _ _ Hs) as [Hsn _].
  rewrite Hname in Hsn.
  change (AgentInputSpec.name (asAgentInputSpec s) = name) in Hsn.
  rewrite Hsn. apply fromEntries_last.
  clear - Hvpost Hpost Hall.
  induction Hvpost as [|later s' post vpost Hs' _ IH]; cbn [map]; [constructor|].
  apply Forall_cons in Hpost as [Hlater Hpost].
  apply Forall_cons in Hall as [Hsurv Hall].
  constructor; [|by apply IH].
  cbn [fst]. destruct (asAgentInputSpec_declared _ _ Hs') as [-> _].
  apply survives_declared in Hsurv as (n' & _ & Hn' & _).
  rewrite Hn' in Hlater |- *. cbn. congruence.
Qed.

(** X10.  The entry recorded for a declared input, the last survivor of its
    name, is required unless the declaration says otherwise: [required] is
    the declared value, or [true] when it is missing or [null]; the
    description is the declared string, trimmed, or empty. *)
Theorem input_entry_defaults (rt : Host) (markdown source : string)
    (d : AgentDefinition.t) (items pre post : list json) (item : json)
    (name : string) :
  parseAgentMarkdown rt markdown source = OK d ->
  parseJsonSection rt (extractSections markdown) source "inputs"
    = OK (Some (JArray items)) ->
  List.filter survives items = (pre ++ item :: post)%list ->
  declaredName item = Some name ->
  Forall (fun later => declaredName later <> Some name) post ->
  exists entry,
    InputConfig.inputs (AgentDefinition.inputConfig d) !! name = Some entry
    /\ InputConfig.required entry = JS.nullish (JS.member item "required") (JBool true)
    /\ InputConfig.description entry
       = match JS.member item "description" with
         | Some (JString words) => Str.trim words
         | _ => ""
         end.
Proof.
  intros Hd Hitems Hsplit Hname Hpost.
  destruct (recorded_input _ _ _ _ _ _ _ _ _ Hd Hitems Hsplit Hname Hpost)
    as (s & Hs & Hentry).
  eexists. split; [exact Hentry|].
  apply sanitizeInput_flags in Hs as [Hreq Hdesc].
  unfold inputEntry, asAgentInputSpec.
  cbn [InputConfig.required InputConfig.description AgentInputSpec.required
       AgentInputSpec.description].
  rewrite Hreq, Hdesc. split; [reflexivity|].
  unfold declaredDescription, declaredText.
  by destruct (JS.member item "description") as [[]|].
Qed.

(** X10 on an input that declares neither, after one of the same name that
    is dropped for its type. *)
Lemma input_entry_defaults_witness :
  let markdown := quoted "# Agent: T
## Inputs
```json
[{'name': 'path', 'type': 'date', 'required': false},
 {'name': 'path', 'type': 'string', 'description': ' Where to look. '},
 {'name': 'depth', 'type': 'integer', 'required': false}]
```
" in
  exists d entry,
    parseAgentMarkdown reference_host markdown "t.md" = OK d
    /\ InputConfig.inputs (AgentDefinition.inputConfig d) !! "path" = Some entry
    /\ InputConfig.required entry = JBool true
    /\ InputConfig.description entry = "Where to look.".
Proof.
  intros markdown.
  destruct (parseAgentMarkdown reference_host markdown "t.md") as [d|e] eqn:Hd;
    [|vm_compute in Hd; discriminate].
  set (path := JObject [("name", JString "path"); ("type", JString "string");
                        ("description", JString " Where to look. ")]).
  set (depth := JObject [("name", JString "depth"); ("type", JString "integer");
                         ("required", JBool false)]).
  set (dropped := JObject [("name", JString "path"); ("type", JString "date");
                           ("required", JBool false)]).
  assert (parseJsonSection reference_host (extractSections markdown) "t.md" "inputs"
          = OK (Some (JArray [dropped; path; depth]))) as Hv by (vm_compute; reflexivity).
  destruct (input_entry_defaults reference_host markdown "t.md" d
              [dropped; path; depth] [] [depth] path "path" Hd Hv)
    as (entry & Hentry & Hreq & Hdesc).
  - vm_compute. reflexivity.
  - vm_compute. reflexivity.
  - constructor; [vm_compute; discriminate|constructor].
  - exists d, entry. split; [reflexivity|]. split; [exact Hentry|].
    split; [exact Hreq|]. rewrite Hdesc. vm_compute. reflexivity.
Defined.

(* ================================================================== *)
(** ** The system prompt *)

Lemma buildSystemPrompt_generated config :
  JS.nonEmpty (ParsedAgentConfig.systemPrompt config) = false ->
  buildSystemPrompt config
  = generatedPrompt (ParsedAgentConfig.name config) (ParsedAgentConfig.role config)
      (ParsedAgentConfig.summary config) (ParsedAgentConfig.persona config)
      (ParsedAgentConfig.guidelines config).
Proof.
  intros Hno. unfold buildSystemPrompt, generatedPrompt, introduction. rewrite Hno.
  destruct (JS.nonEmpty (ParsedAgentConfig.role config)
            || JS.nonEmpty (ParsedAgentConfig.summary config));
    destruct (ParsedAgentConfig.persona config) as [[|c r]|];
    destruct (ParsedAgentConfig.guidelines config) as [[|line more]|];
    cbn [JS.nonEmpty personaBlock guidelinesBlock app Str.join default];
    fold closingSentence; flatten_text;
    (rewrite trim_app; [reflexivity|discriminate|reflexivity|ends_unspaced]).
Qed.

Lemma appendToolingContext_appends prompt tools mcpServers :
  prompt <> "" -> Str.trim prompt = prompt ->
  appendToolingContext prompt tools mcpServers
  = prompt ++ toolingContext tools mcpServers.
Proof.
  intros Hne Htrim. unfold appendToolingContext, toolingContext.
  destruct tools as [[|tool more]|], mcpServers as [[|server others]|];
    cbn [app Str.join]; rewrite ?append_nil_r; try reflexivity;
    flatten_text; (rewrite trim_app; [reflexivity|exact Hne|exact Htrim|ends_unspaced]).
Qed.

Lemma getText_trimmed sections key words :
  getText sections key = Some words -> words <> "" /\ Str.trim words = words.
Proof.
  unfold getText. destruct (noSection (sections !! key)); [discriminate|].
  destruct (Str.trim _) eqn:E; [discriminate|]. intros [= <-].
  split; [discriminate|]. rewrite <- E. apply trim_idem.
Qed.

Lemma buildConfigFromSections_texts rt name sections source config :
  buildConfigFromSections rt name sections source = OK config ->
  ParsedAgentConfig.name config = name
  /\ ParsedAgentConfig.summary config
     = match getText sections "summary" with
       | Some summary => Some summary
       | None => getText sections "role"
       end
  /\ ParsedAgentConfig.persona config = getText sections "persona"
  /\ ParsedAgentConfig.role config = getText sections "role"
  /\ ParsedAgentConfig.guidelines config = extractGuidelines (sections !! "guidelines")
  /\ ParsedAgentConfig.systemPrompt config = getText sections "system prompt".
Proof.
  unfold buildConfigFromSections. intros H.
  repeat bind_inv H. injection H as <-. by repeat split.
Qed.

Lemma toolingContext_toolConfig tools mcpServers :
  toolingContext tools mcpServers
  = toolingContext (ToolConfig.tools <$> buildToolConfig tools) mcpServers.
Proof. by destruct tools as [[|tool more]|]. Qed.

(** The system prompt of the definition: the text of the section if there
    is one, the generated prompt otherwise, and the tooling context. *)
Lemma systemPrompt_of_config rt config source :
  (forall words, ParsedAgentConfig.systemPrompt config = Some words ->
                 words <> "" /\ Str.trim words = words) ->
  PromptConfig.systemPrompt
    (AgentDefinition.promptConfig (buildAgentDefinition rt config source))
  = match ParsedAgentConfig.systemPrompt config with
    | Some words => words
    | None =>
        generatedPrompt (ParsedAgentConfig.name config) (ParsedAgentConfig.role config)
          (ParsedAgentConfig.summary config) (ParsedAgentConfig.persona config)
          (ParsedAgentConfig.guidelines config)
    end
    ++ toolingContext (ParsedAgentConfig.tools config)
         (ParsedAgentConfig.mcpServers config).
Proof.
  intros Hprompt.
  cbn [buildAgentDefinition AgentDefinition.promptConfig PromptConfig.systemPrompt].
  destruct (ParsedAgentConfig.systemPrompt config) as [words|] eqn:E.
  - destruct (Hprompt words eq_refl) as [Hne Htrim].
    assert (buildSystemPrompt config = words) as ->.
    { unfold buildSystemPrompt. rewrite E.
      destruct words; [by destruct Hne|exact Htrim]. }
    by apply appendToolingContext_appends.
  - assert (JS.nonEmpty (ParsedAgentConfig.systemPrompt config) = false) as Hno
      by (by rewrite E).
    pose proof (buildSystemPrompt_generated config Hno) as Hgen.
    rewrite <- Hgen. apply appendToolingContext_appends.
    + rewrite Hgen. discriminate.
    + unfold buildSystemPrompt. rewrite Hno. apply trim_idem.
Qed.

(** X11.  When the document has a [## System Prompt] with text, the system
    prompt of the definition is that text, followed by the sentences that
    list the tools and the MCP servers, if there are any; summary, persona
    and guidelines do not enter it. *)
Theorem explicit_system_prompt (rt : Host) (markdown source : string)
    (d : AgentDefinition.t) (words : string) :
  parseAgentMarkdown rt markdown source = OK d ->
  getText (extractSections markdown) "system prompt" = Some words ->
  exists servers,
    parseJsonSection rt (extractSections markdown) source "mcp" ≫= parseStringArray rt
      = OK servers
    /\ PromptConfig.systemPrompt (AgentDefinition.promptConfig d)
       = words ++ toolingContext (ToolConfig.tools <$> AgentDefinition.toolConfig d) servers.
Proof.
  intros Hd Hwords.
  apply parseAgentMarkdown_config in Hd as (config & Hc & ->).
  pose proof (buildConfigFromSections_texts _ _ _ _ _ Hc) as (_ & _ & _ & _ & _ & Hsp).
  apply buildConfigFromSections_tools in Hc as [_ Hmcp].
  exists (ParsedAgentConfig.mcpServers config). split; [exact Hmcp|].
  rewrite systemPrompt_of_config.
  - rewrite Hsp, Hwords. cbn [buildAgentDefinition AgentDefinition.toolConfig].
    by rewrite <- toolingContext_toolConfig.
  - rewrite Hsp. intros text. apply getText_trimmed.
Qed.

(** X11 on a document with a prompt, a tool and a server. *)
Lemma explicit_system_prompt_witness :
  let markdown := quoted "# Agent: T
## Persona
Calm.
## System Prompt
  Be exact.  
## Tools
```json
['ls']
```
## MCP
```json
['github']
```
" in
  exists d,
    parseAgentMarkdown reference_host markdown "t.md" = OK d
    /\ getText (extractSections markdown) "system prompt" = Some "Be exact."
    /\ PromptConfig.systemPrompt (AgentDefinition.promptConfig d)
       = "Be exact.

You can invoke the following tools when needed: ls.
You have access to these MCP servers: github. Use them when they can provide better context or direct actions.".
Proof.
  intros markdown.
  destruct (parseAgentMarkdown reference_host markdown "t.md") as [d|e] eqn:Hd;
    [|vm_compute in Hd; discriminate].
  assert (getText (extractSections markdown) "system prompt" = Some "Be exact.") as Hw
    by (vm_compute; reflexivity).
  exists d. split; [reflexivity|]. split; [exact Hw|].
  destruct (explicit_system_prompt reference_host markdown "t.md" d _ Hd Hw)
    as (servers & Hs & Hp).
  assert (AgentDefinition.toolConfig d = Some {| ToolConfig.tools := ["ls"] |}) as Ht
    by (vm_compute in Hd; by injection Hd as <-).
  assert (servers = Some ["github"]) as -> by (vm_compute in Hs; by injection Hs as <-).
  rewrite Hp, Ht. vm_compute. reflexivity.
Defined.

(** X12.  When the document has no text under [## System Prompt], the system
    prompt is written by the loader: [You are **name**,] and the role, or
    else the summary, or else [a specialized assistant], with a full stop;
    the persona and the guidelines as bullets, if any, each after an empty
    line; the closing sentence; and the sentences that list the tools and
    the MCP servers. *)
Theorem generated_system_prompt (rt : Host) (markdown source : string)
    (d : AgentDefinition.t) :
  parseAgentMarkdown rt markdown source = OK d ->
  getText (extractSections markdown) "system prompt" = None ->
  let sections := extractSections markdown in
  let role := getText sections "role" in
  let summary :=
    match getText sections "summary" with
    | Some summary => Some summary
    | None => role
    end in
  exists servers,
    parseJsonSection rt sections source "mcp" ≫= parseStringArray rt = OK servers
    /\ PromptConfig.systemPrompt (AgentDefinition.promptConfig d)
       = generatedPrompt (AgentDefinition.name d) role summary
           (getText sections "persona") (extractGuidelines (sections !! "guidelines"))
         ++ toolingContext (ToolConfig.tools <$> AgentDefinition.toolConfig d) servers.
Proof.
  intros Hd Hnone sections role summary.
  apply parseAgentMarkdown_config in Hd as (config & Hc & ->).
  pose proof (buildConfigFromSections_texts _ _ _ _ _ Hc)
    as (Hname & Hsummary & Hpersona & Hrole & Hguidelines & Hsp).
  apply buildConfigFromSections_tools in Hc as [_ Hmcp].
  exists (ParsedAgentConfig.mcpServers config). split; [exact Hmcp|].
  rewrite systemPrompt_of_config.
  - rewrite Hsp, Hnone, Hsummary, Hpersona, Hrole, Hguidelines.
    cbn [buildAgentDefinition AgentDefinition.toolConfig AgentDefinition.name].
    by rewrite <- toolingContext_toolConfig.
  - rewrite Hsp, Hnone. discriminate.
Qed.

(** X12 on a document with a summary, a persona and two guidelines. *)
Lemma generated_system_prompt_witness :
  let markdown := "# Agent: T
## Summary
Maps code.
## Persona
Calm.
## Guidelines
- Cite paths.
- Verify.
" in
  exists d,
    parseAgentMarkdown reference_host markdown "t.md" = OK d
    /\ getText (extractSections markdown) "system prompt" = None
    /\ PromptConfig.systemPrompt (AgentDefinition.promptConfig d)
       = "You are **T**, Maps code..

Persona:
Calm.

Follow these guidelines:
- Cite paths.
- Verify.

Think step-by-step, justify your reasoning, and provide actionable, concrete outputs.".
Proof.
  intros markdown.
  destruct (parseAgentMarkdown reference_host markdown "t.md") as [d|e] eqn:Hd;
    [|vm_compute in Hd; discriminate].
  assert (getText (extractSections markdown) "system prompt" = None) as Hn
    by (vm_compute; reflexivity).
  exists d. split; [reflexivity|]. split; [exact Hn|].
  pose proof (generated_system_prompt reference_host markdown "t.md" d Hd Hn) as H.
  cbv zeta in H. destruct H as (servers & Hs & Hp).
  assert (AgentDefinition.toolConfig d = None /\ AgentDefinition.name d = "T") as [Ht Hname]
    by (vm_compute in Hd; injection Hd as <-; split; reflexivity).
  assert (servers = None) as -> by (vm_compute in Hs; by injection Hs as <-).
  rewrite Hp, Ht, Hname. vm_compute. reflexivity.
Defined.

(* ================================================================== *)
(** ** Definitions that load *)

Lemma extractAgentName_nonempty markdown source name :
  extractAgentName markdown source = OK name -> name <> "".
Proof.
  unfold extractAgentName. destruct (String_match _ _ _); [|discriminate].
  destruct (Str.isEmpty _) eqn:E; [discriminate|]. intros [= <-].
  by apply isEmpty_false.
Qed.

Lemma orElse_nonempty (a : option string) (b : string) : b <> "" -> JS.orElse a b <> "".
Proof. intros Hb. destruct a as [[|c r]|]; cbn; congruence. Qed.

Lemma fromEntries_nonempty {V} (entry : string * V) (entries : list (string * V)) :
  JS.Object_fromEntries (entry :: entries) <> ∅.
Proof.
  assert (exists front last, entry :: entries = (front ++ [last])%list)
    as (front & [key value] & ->).
  { destruct (exists_last (l := entry :: entries)) as (front & last & E); [done|].
    eauto. }
  intros H.
  pose proof (fromEntries_last front [] key value (Forall_nil_2 _)) as Hlast.
  rewrite H in Hlast. by rewrite lookup_empty in Hlast.
Qed.

Lemma buildInputConfig_nonempty inputs :
  InputConfig.inputs (buildInputConfig inputs) <> ∅.
Proof.
  unfold buildInputConfig. cbn [InputConfig.inputs].
  destruct inputs as [[|input more]|]; cbn [map]; apply fromEntries_nonempty.
Qed.

(** X13.  Every definition [parseAgentMarkdown] returns is complete: its
    name, which is also its display name, its description, its system
    prompt and its query are not empty, and it has at least one input. *)
Theorem definition_well_formed (rt : Host) (markdown source : string)
    (d : AgentDefinition.t) :
  parseAgentMarkdown rt markdown source = OK d ->
  AgentDefinition.name d <> ""
  /\ AgentDefinition.displayName d = AgentDefinition.name d
  /\ AgentDefinition.description d <> ""
  /\ PromptConfig.systemPrompt (AgentDefinition.promptConfig d) <> ""
  /\ PromptConfig.query (AgentDefinition.promptConfig d) <> ""
  /\ InputConfig.inputs (AgentDefinition.inputConfig d) <> ∅.
Proof.
  intros Hd. pose proof (parseAgentMarkdown_name _ _ _ _ Hd) as Hname.
  apply extractAgentName_nonempty in Hname.
  split; [exact Hname|].
  apply parseAgentMarkdown_config in Hd as (config & Hc & ->).
  pose proof (buildConfigFromSections_texts _ _ _ _ _ Hc) as (_ & _ & _ & _ & _ & Hsp).
  pose proof (buildConfigFromSections_query _ _ _ _ _ Hc) as Hq.
  split; [reflexivity|]. split; [|split; [|split]].
  - cbn [buildAgentDefinition AgentDefinition.description].
    apply orElse_nonempty, orElse_nonempty. discriminate.
  - rewrite systemPrompt_of_config
      by (rewrite Hsp; intros words; apply getText_trimmed).
    rewrite Hsp. destruct (getText _ "system prompt") as [words|] eqn:E.
    + apply getText_trimmed in E as [Hne _].
      destruct words; [by destruct Hne|discriminate].
    + discriminate.
  - cbn [buildAgentDefinition AgentDefinition.promptConfig PromptConfig.query].
    rewrite Hq. destruct (getText _ "query") as [words|] eqn:E; [|discriminate].
    by apply getText_trimmed in E as [Hne _].
  - apply buildInputConfig_nonempty.
Qed.

(** X13 on the sample document. *)
Lemma definition_well_formed_witness :
  exists d,
    parseAgentMarkdown reference_host SAMPLE_MARKDOWN "sample.agent.md" = OK d
    /\ AgentDefinition.name d <> ""
    /\ AgentDefinition.displayName d = AgentDefinition.name d
    /\ AgentDefinition.description d <> ""
    /\ PromptConfig.systemPrompt (AgentDefinition.promptConfig d) <> ""
    /\ PromptConfig.query (AgentDefinition.promptConfig d) <> ""
    /\ InputConfig.inputs (AgentDefinition.inputConfig d) <> ∅.
Proof.
  destruct (parseAgentMarkdown reference_host SAMPLE_MARKDOWN "sample.agent.md")
    as [d|e] eqn:Hd; [|vm_compute in Hd; discriminate].
  exists d. split; [reflexivity|].
  exact (definition_well_formed reference_host SAMPLE_MARKDOWN "sample.agent.md" d Hd).
Defined.

(** X14.  The description of a loaded definition is the text of [## Summary],
    or else the text of [## Role], or else a sentence that names the source
    of the document. *)
Theorem description_fallback (rt : Host) (markdown source : string)
    (d : AgentDefinition.t) :
  parseAgentMarkdown rt markdown source = OK d ->
  AgentDefinition.description d
  = match getText (extractSections markdown) "summary" with
    | Some summary => summary
    | None =>
        match getText (extractSections markdown) "role" with
        | Some role => role
        | None => "Custom agent defined in " ++ source
        end
    end.
Proof.
  intros Hd.
  apply parseAgentMarkdown_config in Hd as (config & Hc & ->).
  pose proof (buildConfigFromSections_texts _ _ _ _ _ Hc)
    as (_ & Hsummary & _ & Hrole & _ & _).
  cbn [buildAgentDefinition AgentDefinition.description]. rewrite Hsummary, Hrole.
  destruct (getText _ "summary") as [summary|] eqn:Es.
  - apply getText_trimmed in Es as [Hne _]. by destruct summary.
  - destruct (getText _ "role") as [role|] eqn:Er; [|reflexivity].
    apply getText_trimmed in Er as [Hne _]. by destruct role.
Qed.

(** X14 on a document with a role and a summary that is blank, and on one
    with neither. *)
Lemma description_fallback_witness :
  (let markdown := "# Agent: T
## Summary
   
## Role
a careful reviewer
" in
   exists d,
     parseAgentMarkdown reference_host markdown "t.md" = OK d
     /\ AgentDefinition.description d = "a careful reviewer")
  /\ (exists d,
        parseAgentMarkdown reference_host "# Agent: T" "t.md" = OK d
        /\ AgentDefinition.description d = "Custom agent defined in t.md").
Proof.
  split.
  - intros markdown.
    destruct (parseAgentMarkdown reference_host markdown "t.md") as [d|e] eqn:Hd;
      [|vm_compute in Hd; discriminate].
    exists d. split; [reflexivity|].
    rewrite (description_fallback reference_host markdown "t.md" d Hd).
    vm_compute. reflexivity.
  - destruct (parseAgentMarkdown reference_host "# Agent: T" "t.md") as [d|e] eqn:Hd;
      [|vm_compute in Hd; discriminate].
    exists d. split; [reflexivity|].
    rewrite (description_fallback reference_host "# Agent: T" "t.md" d Hd).
    vm_compute. reflexivity.
Defined.

(* ================================================================== *)
(** ** Free text without fences *)

Lemma fence_needs_backtick s : forall skip i p,
  avoids (only "`") s = true ->
  scan flags_g FENCED_BLOCK_REGEX skip i p s = [].
Proof.
  induction s as [|c r IH]; intros skip i p Hs.
  - destruct skip; reflexivity.
  - cbn [avoids] in Hs. apply andb_true_iff in Hs as [Hc Hr].
    destruct skip as [|skip]; cbn [scan]; [|by apply IH].
    assert (attempt flags_g FENCED_BLOCK_REGEX i p (String c r) = None) as ->.
    { unfold attempt, FENCED_BLOCK_REGEX. cbn [cat str run rest].
      unfold litMatches. cbn [ignoreCase flags_g].
      unfold only in Hc. apply negb_true_iff in Hc.
      rewrite Ascii.eqb_sym in Hc. by rewrite Hc. }
    by apply IH.
Qed.

Lemma getText_plain sections key body :
  sections !! key = Some body ->
  body <> "" -> Str.trim body = body ->
  avoids (only "`") body = true ->
  getText sections key = Some body.
Proof.
  intros Hbody Hne Htrim Hplain. unfold getText. rewrite Hbody.
  destruct body as [|c r]; [by destruct Hne|]. cbn [noSection default].
  unfold String_replaceAll, String_matchAll. rewrite fence_needs_backtick by exact Hplain.
  cbn [splice]. unfold Str.slice. rewrite Nat.sub_0_r, substring_all.
  unfold id. by rewrite Htrim.
Qed.

(** X15.  A [## Query] whose body holds no backtick is taken as it stands:
    the query of the definition is the body of the section, placeholders
    such as [${path}] included. *)
Theorem plain_query_kept (rt : Host) (markdown source : string)
    (d : AgentDefinition.t) (body : string) :
  parseAgentMarkdown rt markdown source = OK d ->
  extractSections markdown !! "query" = Some body ->
  body <> "" ->
  avoids (only "`") body = true ->
  PromptConfig.query (AgentDefinition.promptConfig d) = body.
Proof.
  intros Hd Hbody Hne Hplain.
  apply parseAgentMarkdown_config in Hd as (config & Hc & ->).
  apply buildConfigFromSections_query in Hc.
  cbn [buildAgentDefinition AgentDefinition.promptConfig PromptConfig.query].
  rewrite Hc, (getText_plain _ _ body); try done.
  unfold extractSections in Hbody.
  by eapply (collectSections_normalised markdown _ ∅ (map_Forall_empty _)) in Hbody
    as (_ & _ & Htrim).
Qed.

(** X15 on a query with a placeholder. *)
Lemma plain_query_kept_witness :
  let markdown := "# Agent: T
## Query
 Map ${path} now.  
" in
  exists d,
    parseAgentMarkdown reference_host markdown "t.md" = OK d
    /\ extractSections markdown !! "query" = Some "Map ${path} now."
    /\ PromptConfig.query (AgentDefinition.promptConfig d) = "Map ${path} now.".
Proof.
  intros markdown.
  destruct (parseAgentMarkdown reference_host markdown "t.md") as [d|e] eqn:Hd;
    [|vm_compute in Hd; discriminate].
  assert (extractSections markdown !! "query" = Some "Map ${path} now.") as Hq
    by (vm_compute; reflexivity).
  exists d. split; [reflexivity|]. split; [exact Hq|].
  apply (plain_query_kept reference_host markdown "t.md" d _ Hd Hq);
    [discriminate|reflexivity].
Defined.

(* ================================================================== *)
(** ** The depth of a schema *)

Lemma nesting_item items item :
  item ∈ items -> nesting item < nesting (JArray items).
Proof.
  cbn [nesting]. induction items as [|x items IH]; intros H; [by apply elem_of_nil in H|].
  apply elem_of_cons in H as [->|H]; cbn [foldr]; [lia|].
  specialize (IH H). lia.
Qed.

Lemma nesting_field fields key value :
  (key, value) ∈ fields -> nesting value < nesting (JObject fields).
Proof.
  cbn [nesting]. induction fields as [|x fields IH]; intros H; [by apply elem_of_nil in H|].
  apply elem_of_cons in H as [<-|H]; cbn [foldr snd]; [lia|].
  specialize (IH H). lia.
Qed.

Lemma assoc_elem key fields value :
  JS.assoc key fields = Some value -> exists k, (k, value) ∈ fields.
Proof.
  induction fields as [|[k v] fields IH]; cbn; [discriminate|].
  destruct (String.eqb k key).
  - intros [= <-]. exists k. by left.
  - intros H. destruct (IH H) as (k' & Hk). exists k'. by right.
Qed.

Lemma nesting_member schema key value :
  JS.member schema key = Some value -> nesting value < nesting schema.
Proof.
  destruct schema; cbn [JS.member]; try discriminate.
  intros H. apply assoc_elem in H as (k & Hk). by eapply nesting_field.
Qed.

Lemma nesting_entry value key inner :
  (key, inner) ∈ JS.Object_entries value -> nesting inner < nesting value.
Proof.
  destruct value; cbn [JS.Object_entries]; try (by intros H; apply elem_of_nil in H).
  - intros H. apply elem_of_lookup_imap in H as (i & x & [= _ <-] & Hx).
    apply nesting_item. by eapply list_elem_of_lookup_2.
  - apply nesting_field.
Qed.

Lemma forOf_total {A S} (body : S -> A -> Result S) (items : list A) :
  (forall acc x, x ∈ items -> exists acc', body acc x = OK acc') ->
  forall acc, exists r, forOf body items acc = OK r.
Proof.
  induction items as [|x items IH]; intros Hbody acc; cbn [forOf]; [eauto|].
  destruct (Hbody acc x) as (acc' & ->); [by left|].
  apply IH. intros acc'' y Hy. apply Hbody. by right.
Qed.

Lemma forOf_Throw {A S} (body : S -> A -> Result S) (items : list A) : forall acc e,
  forOf body items acc = Throw e ->
  exists acc' x, x ∈ items /\ body acc' x = Throw e.
Proof.
  induction items as [|x items IH]; intros acc e; cbn [forOf]; [discriminate|].
  destruct (body acc x) as [acc'|e'] eqn:E.
  - intros H. destruct (IH _ _ H) as (acc'' & y & Hy & Hb).
    exists acc'', y. split; [by right|exact Hb].
  - intros [= <-]. exists acc, x. split; [by left|exact E].
Qed.

Lemma jsonSchemaToZod_total depth : forall schema,
  nesting schema < depth -> exists compiled, jsonSchemaToZod depth schema = OK compiled.
Proof.
  induction depth as [|depth IH]; intros schema Hdepth; [lia|].
  cbn [jsonSchemaToZod].
  repeat (match goal with |- context [if isCase ?t ?l then _ else _] =>
            destruct (isCase t l); [eauto|] end); eauto.
  - destruct (JS.member schema "items") as [items|] eqn:Hitems; [|eauto].
    destruct (JS.isObject items); [|eauto].
    apply nesting_member in Hitems.
    destruct (IH items) as (element & ->); [lia|]. cbn. eauto.
  - destruct (JS.member schema "properties") as [properties|] eqn:Hp; [|eauto].
    destruct (JS.isObject properties); [|eauto].
    apply nesting_member in Hp.
    match goal with |- context [forOf ?body ?items ?start] =>
      assert (forall acc x, x ∈ items -> exists acc', body acc x = OK acc') as Hbody;
      [|destruct (forOf_total body items Hbody start) as (shape & ->); cbn; by eauto]
    end.
    intros acc [key value] Hentry. apply nesting_entry in Hentry.
    destruct (JS.isObject value); [|cbn; eauto].
    destruct (IH value) as (compiled & ->); [lia|]. cbn. eauto.
Qed.

Lemma jsonSchemaToZod_Throw depth : forall schema e,
  jsonSchemaToZod depth schema = Throw e -> e = stackExhausted.
Proof.
  induction depth as [|depth IH]; intros schema e; [by intros [= <-]|].
  cbn [jsonSchemaToZod].
  repeat (match goal with |- context [if isCase ?t ?l then _ else _] =>
            destruct (isCase t l); [try by intros ?|] end); try by intros ?.
  - destruct (JS.member schema "items") as [items|]; [|by intros ?].
    destruct (JS.isObject items); [|by intros ?].
    intros H. apply bind_Throw in H as [H|(? & _ & H)]; [by eapply IH|discriminate].
  - destruct (JS.member schema "properties") as [properties|]; [|by intros ?].
    destruct (JS.isObject properties); [|by intros ?].
    intros H. apply bind_Throw in H as [H|(? & _ & H)]; [|discriminate].
    apply forOf_Throw in H as (acc & [key value] & _ & H).
    apply bind_Throw in H as [H|(? & _ & H)]; [|discriminate].
    destruct (JS.isObject value); [by eapply IH|discriminate].
Qed.

(** X16.  The schema compiler has no failure of its own: [jsonSchemaToZod]
    throws nothing but the [RangeError] of an exhausted call stack, and only
    on a schema nested at least as deep as the stack admits calls.  On an
    object nested less deep it returns a validator, which is the one
    [buildZodSchema] gives. *)
Theorem schema_compiles (rt : Host) (schema : json) :
  (forall e,
     jsonSchemaToZod (stack_depth rt) schema = Throw e ->
     e = RangeError "Maximum call stack size exceeded"
     /\ stack_depth rt <= nesting schema)
  /\ (JS.isObject schema = true ->
      nesting schema < stack_depth rt ->
      jsonSchemaToZod (stack_depth rt) schema = OK (buildZodSchema rt (Some schema))).
Proof.
  split.
  - intros e He. split; [by apply jsonSchemaToZod_Throw in He|].
    destruct (Nat.le_gt_cases (stack_depth rt) (nesting schema)) as [H|H]; [exact H|].
    apply jsonSchemaToZod_total in H as (compiled & H). congruence.
  - intros Hobject Hdepth.
    destruct (jsonSchemaToZod_total _ _ Hdepth) as (compiled & Hc).
    unfold buildZodSchema. rewrite Hc.
    by destruct schema.
Qed.

(** X16 on an array of strings, with the stack of the reference host and
    with a stack of one call. *)
Lemma schema_compiles_witness :
  let schema := JObject [("type", JString "array");
                         ("items", JObject [("type", JString "string")])] in
  let shallow :=
    {| JSON_parse := JSON_parse reference_host;
       Number_toString := Number_toString reference_host;
       path_join := path_join reference_host;
       DEFAULT_GEMINI_MODEL := DEFAULT_GEMINI_MODEL reference_host;
       DEFAULT_THINKING_MODE := DEFAULT_THINKING_MODE reference_host;
       stack_depth := 1 |} in
  buildZodSchema reference_host (Some schema) = ZodArray ZodString
  /\ jsonSchemaToZod (stack_depth shallow) schema
     = Throw (RangeError "Maximum call stack size exceeded")
  /\ stack_depth shallow <= nesting schema.
Proof.
  intros schema shallow. split.
  - destruct (schema_compiles reference_host schema) as [_ Hcompiles].
    assert (jsonSchemaToZod (stack_depth reference_host) schema = OK (ZodArray ZodString))
      as Hc by (vm_compute; reflexivity).
    rewrite Hcompiles in Hc; [congruence|reflexivity|].
    apply Nat.ltb_lt. vm_compute. reflexivity.
  - destruct (schema_compiles shallow schema) as [Hthrows _].
    destruct (jsonSchemaToZod (stack_depth shallow) schema) as [compiled|e] eqn:He;
      [vm_compute in He; discriminate|].
    destruct (Hthrows e eq_refl) as [-> Hdeep]. by split.
Defined.

(* ================================================================== *)
(** ** Replacing matches, from left to right *)

Lemma scan_scanWith fl r s : forall skip i p,
  scan fl r skip i p s = scanWith (attempt fl r) skip i p s.
Proof.
  induction s as [|c s IH]; intros skip i p; destruct skip; cbn [scan scanWith];
    try reflexivity.
  - destruct (attempt fl r i p (String c s)); by rewrite IH.
  - by rewrite IH.
Qed.

Lemma substring_zero n s : substring n 0 s = "".
Proof. revert n. induction s as [|c s IH]; intros [|n]; cbn; auto. Qed.

Lemma substring_snoc pre c s : forall from n,
  from + n = String.length pre ->
  substring from (S n) (pre ++ String c s) = substring from n (pre ++ String c s) ++ String c "".
Proof.
  induction pre as [|x pre IH]; intros from n H.
  - destruct from; [|discriminate]. destruct n; [|discriminate].
    change ("" ++ String c s) with (String c s).
    change (substring 0 1 (String c s)) with (String c (substring 0 0 s)).
    by rewrite substring_zero.
  - rewrite append_cons. destruct from as [|from].
    + cbn in H. destruct n as [|n]; [discriminate|]. injection H as H.
      change (substring 0 (S (S n)) (String x (pre ++ String c s)))
        with (String x (substring 0 (S n) (pre ++ String c s))).
      change (substring 0 (S n) (String x (pre ++ String c s)))
        with (String x (substring 0 n (pre ++ String c s))).
      rewrite append_cons. f_equal. by apply IH.
    + cbn in H. injection H as H.
      change (substring (S from) ?k (String x ?t)) with (substring from k t).
      by apply IH.
Qed.

Lemma splice_scanWith attemptAt
    (attempt_sound : forall i p s m,
       attemptAt i p s = Some m ->
       m_index m = i /\ 1 <= String.length (m_text m) <= String.length s)
    by_ s : forall pre p from skip,
  from <= String.length pre + skip ->
  (0 < skip -> from = String.length pre + skip) ->
  skip <= String.length s ->
  splice (pre ++ s) from (scanWith attemptAt skip (String.length pre) p s) by_
  = substring from (String.length pre + skip - from) (pre ++ s)
    ++ rewriteWith (matchLengthOf attemptAt) by_ skip (String.length pre) p s.
Proof.
  induction s as [|c s IH]; intros pre p from skip Hfrom Hskip Hlen.
  - cbn in Hlen. assert (skip = 0) as -> by lia. cbn [scanWith rewriteWith].
    unfold matchLengthOf.
    destruct (attemptAt (String.length pre) p "") as [m|] eqn:E.
    { apply attempt_sound in E. cbn in E. lia. }
    cbn [splice fmap option_fmap option_map]. unfold Str.slice.
    rewrite append_nil_r, Nat.add_0_r. by rewrite append_nil_r.
  - assert (pre ++ String c s = (pre ++ String c "") ++ s) as Hassoc
      by (by rewrite append_assoc).
    assert (String.length (pre ++ String c "") = S (String.length pre)) as Hpre
      by (rewrite length_app; cbn; lia).
    destruct skip as [|skip]; cbn [scanWith rewriteWith].
    + unfold matchLengthOf at 1.
      destruct (attemptAt (String.length pre) p (String c s)) as [m|] eqn:E;
        cbn [fmap option_fmap option_map].
      * apply attempt_sound in E as [Hi Hm]. cbn [String.length] in Hm.
        cbn [splice]. unfold m_end, Str.slice. rewrite Hi, Nat.add_0_r.
        f_equal. f_equal.
        rewrite Hassoc, <- Hpre.
        rewrite IH by (rewrite ?Hpre; lia). rewrite Hpre.
        replace (S (String.length pre) + (String.length (m_text m) - 1)
                 - (String.length pre + String.length (m_text m))) with 0 by lia.
        by rewrite substring_zero.
      * rewrite Hassoc at 1. rewrite <- Hpre.
        rewrite IH by (rewrite ?Hpre; lia). rewrite Hpre, <- Hassoc.
        rewrite !Nat.add_0_r.
        replace (S (String.length pre) - from) with (S (String.length pre - from)) by lia.
        rewrite substring_snoc by lia. by rewrite append_assoc.
    + rewrite Hassoc, <- Hpre.
      rewrite IH by (rewrite ?Hpre; cbn in Hlen; lia). rewrite Hpre.
      by replace (S (String.length pre) + skip - from)
        with (String.length pre + S skip - from) by lia.
Qed.

Lemma replaceAll_rewriteWith attemptAt
    (attempt_sound : forall i p s m,
       attemptAt i p s = Some m ->
       m_index m = i /\ 1 <= String.length (m_text m) <= String.length s)
    by_ s :
  splice s 0 (scanWith attemptAt 0 0 None s) by_
  = rewriteWith (matchLengthOf attemptAt) by_ 0 0 None s.
Proof.
  pose proof (splice_scanWith attemptAt attempt_sound by_ s "" None 0 0) as H.
  change ("" ++ s) with s in H. change (String.length "") with 0 in H.
  rewrite substring_zero in H. apply H; lia.
Qed.

(* ================================================================== *)
(** ** Runs of characters *)

Lemma within_cons cls c s : within cls (String c s) = cls c && within cls s.
Proof. unfold within. cbn [avoids]. by rewrite negb_involutive. Qed.

Lemma span_spec cls s :
  s = (span cls s).1 ++ (span cls s).2
  /\ within cls (span cls s).1 = true
  /\ startsIn cls (span cls s).2 = false.
Proof.
  induction s as [|c s (IH1 & IH2 & IH3)]; [by repeat split|].
  cbn [span]. destruct (cls c) eqn:E.
  - destruct (span cls s) as [run after]. cbn [fst snd] in *.
    rewrite append_cons, within_cons, E, <- IH1. by repeat split.
  - by repeat split.
Qed.

Lemma span_length cls c s :
  cls c = true ->
  String.length (span cls (String c s)).1 = S (String.length (span cls s).1).
Proof. intros H. cbn [span]. rewrite H. by destruct (span cls s). Qed.

Lemma span_stops cls s : startsIn cls s = false -> span cls s = ("", s).
Proof. destruct s as [|c s]; [reflexivity|]. cbn. by intros ->. Qed.

(* ================================================================== *)
(** ** What the patterns of [slugify] match *)

Lemma repeat_needs_one cls greedy i p s g k :
  startsIn cls s = false -> repeat cls greedy 1 i p s g k = None.
Proof. destruct s as [|c s]; [reflexivity|]. cbn. by intros ->. Qed.

(** A repetition whose continuation needs the end of the input fails on an
    input that has a character outside the class. *)
Lemma repeat_fails cls greedy (k : Cont) s : forall min i p g,
  within cls s = false ->
  (forall x, rest x <> "" -> k x = None) ->
  repeat cls greedy min i p s g k = None.
Proof.
  induction s as [|c s IH]; intros min i p g Hs Hk; [discriminate|].
  rewrite within_cons in Hs. cbn [repeat].
  assert (k {| index := i; prev := p; rest := String c s; group := g |} = None) as ->
    by (by apply Hk).
  destruct (cls c) eqn:E.
  - rewrite IH by (cbn in Hs; assumption). by destruct min, greedy.
  - by destruct min, greedy.
Qed.

Lemma attempt_run fl cls i p s :
  attempt fl (cat [plus cls]) i p s
  = if startsIn cls s then Some (matched i (span cls s).1) else None.
Proof.
  unfold attempt. cbn [cat plus run index prev rest group].
  destruct (startsIn cls s) eqn:E.
  - destruct (span_spec cls s) as (Hs & Hrun & Hafter).
    assert (1 <= String.length (span cls s).1) as Hlen.
    { destruct s as [|c s]; [discriminate|]. cbn in E. rewrite span_length by exact E. lia. }
    rewrite Hs at 1.
    erewrite repeat_greedy_all; [|exact Hrun|exact Hafter|exact Hlen|reflexivity].
    cbn [index group]. rewrite advance_index.
    replace (i + String.length (span cls s).1 - i) with (String.length (span cls s).1) by lia.
    rewrite Hs at 2. by rewrite substring_prefix.
  - by rewrite repeat_needs_one.
Qed.

Lemma attempt_leading cls i p s :
  attempt flags_g (cat [Bol; plus cls]) i p s
  = match p with
    | None => if startsIn cls s then Some (matched i (span cls s).1) else None
    | Some _ => None
    end.
Proof.
  destruct p as [c|]; [reflexivity|].
  exact (attempt_run flags_g cls i None s).
Qed.

Lemma attempt_trailing cls i p s :
  attempt flags_g (cat [plus cls; Eol]) i p s
  = if startsIn cls s && within cls s then Some (matched i s) else None.
Proof.
  unfold attempt. cbn [cat plus run index prev rest group].
  destruct (startsIn cls s) eqn:E; cbn [andb]; [|by rewrite repeat_needs_one].
  destruct (within cls s) eqn:Hw.
  - assert (1 <= String.length s) as Hlen by (destruct s; [discriminate|cbn; lia]).
    rewrite <- (append_nil_r s) at 1.
    erewrite repeat_greedy_all; [|exact Hw|reflexivity|exact Hlen|reflexivity].
    cbn [index group]. rewrite advance_index.
    replace (i + String.length s - i) with (String.length s) by lia.
    by rewrite substring_all.
  - rewrite repeat_fails; [reflexivity|exact Hw|].
    intros x Hx. unfold atLineEnd. cbn [multiline flags_g andb].
    by destruct (rest x).
Qed.

Lemma rewriteWith_ext f g by_ :
  (forall i p s, f i p s = g i p s) ->
  forall s skip i p, rewriteWith f by_ skip i p s = rewriteWith g by_ skip i p s.
Proof.
  intros Hfg. induction s as [|c s IH]; intros skip i p; destruct skip;
    cbn [rewriteWith]; rewrite ?Hfg, ?IH; try reflexivity.
  destruct (g i p (String c s)); by rewrite ?IH.
Qed.

Lemma startsIn_length cls s :
  startsIn cls s = true -> 1 <= String.length (span cls s).1 <= String.length s.
Proof.
  intros H. destruct (span_spec cls s) as (Hs & _ & _).
  split.
  - destruct s as [|c s]; [discriminate|]. cbn in H. rewrite span_length by exact H. lia.
  - rewrite Hs at 2. rewrite length_app. lia.
Qed.

Lemma replaceAll_runs cls s by_ :
  String_replaceAll flags_g (cat [plus cls]) s by_
  = rewriteWith (runLength cls) by_ 0 0 None s.
Proof.
  unfold String_replaceAll, String_matchAll. rewrite scan_scanWith.
  rewrite replaceAll_rewriteWith.
  - apply rewriteWith_ext. intros i p t. unfold matchLengthOf, runLength.
    rewrite attempt_run. by destruct (startsIn cls t).
  - intros i p t m. rewrite attempt_run.
    destruct (startsIn cls t) eqn:E; [|discriminate]. intros [= <-].
    split; [reflexivity|]. by apply startsIn_length.
Qed.

Lemma attemptEither_edges cls i p s :
  attemptEither flags_g (cat [Bol; plus cls]) (cat [plus cls; Eol]) i p s
  = match p with
    | None => if startsIn cls s then Some (matched i (span cls s).1) else None
    | Some _ => if startsIn cls s && within cls s then Some (matched i s) else None
    end.
Proof.
  unfold attemptEither. rewrite attempt_leading, attempt_trailing.
  destruct p as [c|]; [reflexivity|]. by destruct (startsIn cls s).
Qed.

Lemma replaceAll_edges cls s by_ :
  String_replaceAllEither flags_g (cat [Bol; plus cls]) (cat [plus cls; Eol]) s by_
  = rewriteWith (edgeLength cls) by_ 0 0 None s.
Proof.
  unfold String_replaceAllEither. rewrite replaceAll_rewriteWith.
  - apply rewriteWith_ext. intros i p t. unfold matchLengthOf, edgeLength.
    rewrite attemptEither_edges.
    destruct p; [destruct (startsIn cls t && within cls t)|destruct (startsIn cls t)];
      reflexivity.
  - intros i p t m. rewrite attemptEither_edges. destruct p as [c|].
    + destruct (startsIn cls t) eqn:E; [|discriminate].
      destruct (within cls t); [|discriminate]. intros [= <-].
      split; [reflexivity|]. cbn. destruct t; [discriminate|cbn; lia].
    + destruct (startsIn cls t) eqn:E; [|discriminate]. intros [= <-].
      split; [reflexivity|]. by apply startsIn_length.
Qed.

Lemma runLength_taken cls i p c s :
  cls c = true ->
  runLength cls i p (String c s) = Some (S (String.length (span cls s).1)).
Proof. intros H. unfold runLength. cbn [startsIn]. by rewrite H, span_length. Qed.

Lemma runLength_none cls i p c s :
  cls c = false -> runLength cls i p (String c s) = None.
Proof. intros H. unfold runLength. cbn [startsIn]. by rewrite H. Qed.

Lemma rewrite_runs cls by_ s : forall i p,
  rewriteWith (runLength cls) by_ 0 i p s = replaceRuns cls by_ false s
  /\ rewriteWith (runLength cls) by_ (String.length (span cls s).1) i p s
     = replaceRuns cls by_ true s.
Proof.
  induction s as [|c s IH]; intros i p; [by split|].
  destruct (IH (S i) (Some c)) as [IH0 IHrun].
  destruct (cls c) eqn:E.
  - rewrite span_length by exact E. cbn [rewriteWith replaceRuns].
    rewrite runLength_taken by exact E. rewrite E.
    cbn [Nat.sub]. rewrite Nat.sub_0_r, IHrun. by split.
  - rewrite span_stops by (cbn; exact E).
    cbn [fst String.length rewriteWith replaceRuns].
    rewrite runLength_none by exact E. rewrite E, IH0. by split.
Qed.

Lemma rewrite_skips_all cls by_ s : forall skip i p,
  String.length s <= skip -> rewriteWith (edgeLength cls) by_ skip i p s = "".
Proof.
  induction s as [|c s IH]; intros skip i p Hlen.
  - destruct skip; [|reflexivity]. cbn. by destruct p.
  - destruct skip as [|skip]; [cbn in Hlen; lia|]. cbn [rewriteWith].
    apply IH. cbn in Hlen. lia.
Qed.

Lemma rewrite_inner cls s : forall i q,
  rewriteWith (edgeLength cls) "" 0 i (Some q) s = dropTrailing cls s.
Proof.
  induction s as [|c s IH]; intros i q; [reflexivity|].
  cbn [rewriteWith dropTrailing]. unfold edgeLength at 1. fold (within cls (String c s)).
  assert (startsIn cls (String c s) && within cls (String c s) = within cls (String c s))
    as -> by (rewrite within_cons; cbn; by destruct (cls c)).
  destruct (within cls (String c s)).
  - rewrite rewrite_skips_all; [reflexivity|cbn; lia].
  - by rewrite IH.
Qed.

Lemma dropLeading_span cls s : dropLeading cls s = (span cls s).2.
Proof.
  induction s as [|c s IH]; [reflexivity|]. cbn [dropLeading span].
  destruct (cls c); [|reflexivity]. rewrite IH. by destruct (span cls s).
Qed.

Lemma rewrite_after_run cls s : forall i q,
  rewriteWith (edgeLength cls) "" (String.length (span cls s).1) i (Some q) s
  = dropTrailing cls (span cls s).2.
Proof.
  induction s as [|c s IH]; intros i q; [reflexivity|].
  destruct (cls c) eqn:E.
  - rewrite span_length by exact E. cbn [rewriteWith]. rewrite IH.
    cbn [span]. rewrite E. by destruct (span cls s).
  - rewrite span_stops by exact E. cbn [fst snd String.length]. apply rewrite_inner.
Qed.

Lemma rewrite_edges cls s :
  rewriteWith (edgeLength cls) "" 0 0 None s = dropTrailing cls (dropLeading cls s).
Proof.
  destruct s as [|c s]; [reflexivity|].
  cbn [rewriteWith dropLeading]. unfold edgeLength at 1. cbn [startsIn].
  destruct (cls c) eqn:E.
  - rewrite span_length by exact E. cbn [Nat.sub]. rewrite Nat.sub_0_r.
    rewrite rewrite_after_run, dropLeading_span. reflexivity.
  - rewrite rewrite_inner. cbn [dropTrailing]. fold (within cls (String c s)).
    rewrite within_cons, E. reflexivity.
Qed.

Lemma slugify_normalized rt cli name :
  slugify rt cli name
  = if (0 <? String.length (normalizedName name))%nat then normalizedName name
    else "agent-" ++ Number_toString rt (Date_now cli).
Proof.
  unfold slugify, NON_ALNUM_REGEX, LEADING_HYPHENS_REGEX, TRAILING_HYPHENS_REGEX.
  rewrite replaceAll_edges, rewrite_edges.
  rewrite (replaceAll_runs (fun c => negb (lowerAlnum c))).
  by destruct (rewrite_runs (fun c => negb (lowerAlnum c)) "-" (Str.toLowerCase name) 0 None)
    as [-> _].
Qed.

(* ================================================================== *)
(** ** Slugs *)

Lemma lowerAlnum_not_hyphen c : lowerAlnum c = true -> only "-" c = false.
Proof. unfold only. destruct (Ascii.eqb_spec c "-") as [->|]; [discriminate|reflexivity]. Qed.

Lemma lowerAlnum_lower c : lowerAlnum c = true -> Str.lowerChar c = c.
Proof. destruct c as [[] [] [] [] [] [] [] []]; try discriminate; reflexivity. Qed.

Lemma replaceRuns_keep cls by_ inRun c r :
  cls c = false ->
  replaceRuns cls by_ inRun (String c r) = String c (replaceRuns cls by_ false r).
Proof. intros H. cbn [replaceRuns]. by rewrite H. Qed.

Lemma replaceRuns_first cls by_ c r :
  cls c = true ->
  replaceRuns cls by_ false (String c r) = by_ ++ replaceRuns cls by_ true r.
Proof. intros H. cbn [replaceRuns]. by rewrite H. Qed.

Lemma replaceRuns_next cls by_ c r :
  cls c = true ->
  replaceRuns cls by_ true (String c r) = replaceRuns cls by_ true r.
Proof. intros H. cbn [replaceRuns]. by rewrite H. Qed.

Lemma notLowerAlnum_false c : lowerAlnum c = true -> notLowerAlnum c = false.
Proof. unfold notLowerAlnum. by intros ->. Qed.

Lemma notLowerAlnum_true c : lowerAlnum c = false -> notLowerAlnum c = true.
Proof. unfold notLowerAlnum. by intros ->. Qed.

Lemma hyphen_cons (s : string) : "-" ++ s = String "-" s.
Proof. reflexivity. Qed.

Lemma replaceRuns_hyphenated t :
  hyphenated false (replaceRuns notLowerAlnum "-" false t) = true
  /\ hyphenated true (replaceRuns notLowerAlnum "-" true t) = true.
Proof.
  induction t as [|c t [IH0 IH1]]; [by split|].
  destruct (lowerAlnum c) eqn:E.
  - rewrite !replaceRuns_keep by (by apply notLowerAlnum_false).
    cbn [hyphenated]. rewrite E. by split.
  - rewrite replaceRuns_first, replaceRuns_next by (by apply notLowerAlnum_true).
    split; [|exact IH1]. rewrite hyphen_cons. cbn [hyphenated].
    change (lowerAlnum "-") with false. cbn. exact IH1.
Qed.

Lemma hyphenated_no_leading s : hyphenated true s = true -> dropLeading (only "-") s = s.
Proof.
  destruct s as [|c s]; [reflexivity|]. cbn [hyphenated dropLeading].
  destruct (lowerAlnum c) eqn:E.
  - by rewrite lowerAlnum_not_hyphen.
  - rewrite andb_false_r. discriminate.
Qed.

Lemma dropLeading_hyphenated s :
  hyphenated false s = true -> hyphenated true (dropLeading (only "-") s) = true.
Proof.
  destruct s as [|c s]; [reflexivity|]. cbn [hyphenated dropLeading].
  destruct (lowerAlnum c) eqn:E.
  - rewrite lowerAlnum_not_hyphen by exact E. cbn [hyphenated]. by rewrite E.
  - cbn [negb]. rewrite andb_true_r. intros [Hc Hs]%andb_true_iff.
    unfold only. rewrite Hc. by rewrite hyphenated_no_leading.
Qed.

Lemma dropTrailing_nil cls s : dropTrailing cls s = "" <-> within cls s = true.
Proof.
  destruct s as [|c s]; [by split|]. cbn [dropTrailing]. fold (within cls (String c s)).
  destruct (within cls (String c s)); split; try discriminate; reflexivity.
Qed.

Lemma within_hyphen_cons c s :
  within (only "-") (String c s) = Ascii.eqb c "-" && within (only "-") s.
Proof. by rewrite within_cons. Qed.

Lemma dropTrailing_slug s : forall hyphen,
  hyphenated hyphen s = true ->
  dropTrailing (only "-") s = "" \/ isSlugAfter hyphen (dropTrailing (only "-") s) = true.
Proof.
  induction s as [|c s IH]; intros hyphen H; [by left|].
  cbn [dropTrailing]. fold (within (only "-") (String c s)).
  destruct (within (only "-") (String c s)) eqn:Hw; [by left|]. right.
  cbn [hyphenated] in H. cbn [isSlugAfter].
  destruct (lowerAlnum c) eqn:E.
  - destruct (IH false H) as [->|IH']; [reflexivity|exact IH'].
  - apply andb_true_iff in H as [[Hc Hh]%andb_true_iff Hs]. rewrite Hc, Hh.
    cbn [andb]. destruct (IH true Hs) as [Hnil|IH']; [|exact IH'].
    apply dropTrailing_nil in Hnil. rewrite within_hyphen_cons, Hc, Hnil in Hw.
    discriminate.
Qed.

Lemma normalizedName_slug name :
  normalizedName name = "" \/ isSlug (normalizedName name) = true.
Proof.
  unfold normalizedName, isSlug. apply dropTrailing_slug, dropLeading_hyphenated.
  apply replaceRuns_hyphenated.
Qed.

Lemma within_dropLeading cls s : within cls (dropLeading cls s) = within cls s.
Proof.
  induction s as [|c s IH]; [reflexivity|]. cbn [dropLeading].
  destruct (cls c) eqn:E; [|reflexivity]. by rewrite within_cons, E.
Qed.

Lemma within_replaceRuns t : forall inRun,
  within (only "-") (replaceRuns notLowerAlnum "-" inRun t) = avoids lowerAlnum t.
Proof.
  induction t as [|c t IH]; intros inRun; [reflexivity|].
  cbn [avoids]. destruct (lowerAlnum c) eqn:E; cbn [negb andb].
  - rewrite replaceRuns_keep by (by apply notLowerAlnum_false).
    by rewrite within_cons, lowerAlnum_not_hyphen.
  - destruct inRun.
    + rewrite replaceRuns_next by (by apply notLowerAlnum_true). apply IH.
    + rewrite replaceRuns_first by (by apply notLowerAlnum_true).
      rewrite hyphen_cons, within_cons. cbn. apply IH.
Qed.

Lemma normalizedName_nil name : normalizedName name = "" <-> hasAlnum name = false.
Proof.
  unfold normalizedName, hasAlnum.
  rewrite dropTrailing_nil, within_dropLeading, within_replaceRuns.
  by destruct (avoids lowerAlnum (Str.toLowerCase name)).
Qed.

Lemma slug_lower s : forall hyphen,
  isSlugAfter hyphen s = true -> Str.toLowerCase s = s.
Proof.
  induction s as [|c s IH]; intros hyphen H; [reflexivity|].
  cbn [isSlugAfter] in H. cbn [Str.toLowerCase].
  destruct (lowerAlnum c) eqn:E.
  - by rewrite lowerAlnum_lower, (IH false).
  - apply andb_true_iff in H as [[Hc _]%andb_true_iff Hs].
    apply Ascii.eqb_eq in Hc as ->. by rewrite (IH true).
Qed.

Lemma slug_runs s : forall hyphen,
  isSlugAfter hyphen s = true -> replaceRuns notLowerAlnum "-" hyphen s = s.
Proof.
  induction s as [|c s IH]; intros hyphen H; [reflexivity|].
  cbn [isSlugAfter] in H. destruct (lowerAlnum c) eqn:E.
  - rewrite replaceRuns_keep by (by apply notLowerAlnum_false). by rewrite (IH false).
  - apply andb_true_iff in H as [[Hc Hh]%andb_true_iff Hs].
    apply Ascii.eqb_eq in Hc as ->. destruct hyphen; [discriminate|].
    rewrite replaceRuns_first by reflexivity. by rewrite (IH true), hyphen_cons.
Qed.

Lemma slug_no_leading s : isSlug s = true -> dropLeading (only "-") s = s.
Proof.
  unfold isSlug. destruct s as [|c s]; [reflexivity|]. cbn [isSlugAfter dropLeading].
  destruct (lowerAlnum c) eqn:E; [by rewrite lowerAlnum_not_hyphen|].
  rewrite andb_false_r. discriminate.
Qed.

Lemma slug_not_hyphens s : isSlugAfter true s = true -> within (only "-") s = false.
Proof.
  destruct s as [|c s]; [discriminate|]. cbn [isSlugAfter]. rewrite within_cons.
  destruct (lowerAlnum c) eqn:E; [by rewrite lowerAlnum_not_hyphen|].
  rewrite andb_false_r. discriminate.
Qed.

Lemma slug_no_trailing s : forall hyphen,
  isSlugAfter hyphen s = true -> dropTrailing (only "-") s = s.
Proof.
  induction s as [|c s IH]; intros hyphen H; [reflexivity|].
  cbn [isSlugAfter] in H. cbn [dropTrailing]. fold (within (only "-") (String c s)).
  rewrite within_cons. destruct (lowerAlnum c) eqn:E.
  - rewrite lowerAlnum_not_hyphen by exact E. cbn [andb]. by rewrite (IH false).
  - apply andb_true_iff in H as [_ Hs].
    rewrite (slug_not_hyphens s Hs), andb_false_r. by rewrite (IH true).
Qed.

Lemma slug_normalized s : isSlug s = true -> normalizedName s = s.
Proof.
  intros H. unfold normalizedName.
  rewrite (slug_lower s true H).
  (* a slug starts with a letter or a digit, so no run is open at its start *)
  assert (replaceRuns notLowerAlnum "-" false s = s) as ->.
  { unfold isSlug in H. destruct s as [|c s]; [reflexivity|].
    cbn [isSlugAfter] in H. destruct (lowerAlnum c) eqn:E.
    - rewrite replaceRuns_keep by (by apply notLowerAlnum_false).
      by rewrite (slug_runs s false).
    - rewrite andb_false_r in H. discriminate. }
  rewrite slug_no_leading by exact H. by apply (slug_no_trailing s true).
Qed.

Lemma length_positive s : (0 <? String.length s)%nat = negb (Str.isEmpty s).
Proof. by destruct s. Qed.

Lemma slugify_cases rt cli name :
  slugify rt cli name
  = if hasAlnum name then normalizedName name else "agent-" ++ Number_toString rt (Date_now cli).
Proof.
  rewrite slugify_normalized, length_positive.
  destruct (hasAlnum name) eqn:E.
  - destruct (normalizedName name) eqn:En; [|reflexivity].
    apply normalizedName_nil in En. congruence.
  - apply normalizedName_nil in E. by rewrite E.
Qed.

Lemma slugify_slug rt cli name :
  hasAlnum name = true -> isSlug (slugify rt cli name) = true.
Proof.
  intros H. rewrite slugify_cases, H.
  destruct (normalizedName_slug name) as [Hnil|Hslug]; [|exact Hslug].
  apply normalizedName_nil in Hnil. congruence.
Qed.

(** X17.  [slugify] never returns an empty text.  For a name that has a
    letter of [a-z] or a digit once lower-cased, it returns a slug: words of
    lower-case letters and digits with single hyphens between them, none at
    the start or the end.  For any other name it returns [agent-] followed
    by the time. *)
Theorem slug_shape (rt : Host) (cli : Cli) (name : string) :
  (hasAlnum name = true -> isSlug (slugify rt cli name) = true)
  /\ (hasAlnum name = false -> slugify rt cli name = "agent-" ++ Number_toString rt (Date_now cli))
  /\ slugify rt cli name <> "".
Proof.
  rewrite slugify_cases. destruct (hasAlnum name) eqn:E.
  - destruct (normalizedName_slug name) as [Hnil|Hslug].
    + apply normalizedName_nil in Hnil. congruence.
    + split; [done|]. split; [done|]. intros Hnil. by rewrite Hnil in Hslug.
  - split; [done|]. split; [done|]. discriminate.
Qed.

(** X17 on a name with capitals, punctuation and hyphens at both ends, and
    on one without letters or digits. *)
Lemma slug_shape_witness :
  let cli := example_cli false None in
  slugify reference_host cli "--Code  Cartographer (v2)!" = "code-cartographer-v2"
  /\ isSlug (slugify reference_host cli "--Code  Cartographer (v2)!") = true
  /\ slugify reference_host cli "?!" = "agent-1730000000000".
Proof.
  intros cli.
  destruct (slug_shape reference_host cli "--Code  Cartographer (v2)!") as (Hslug & _ & _).
  destruct (slug_shape reference_host cli "?!") as (_ & Hfallback & _).
  split; [vm_compute; reflexivity|]. split; [apply Hslug; reflexivity|].
  rewrite Hfallback by reflexivity. vm_compute. reflexivity.
Defined.

Lemma slug_hasAlnum s : isSlug s = true -> hasAlnum s = true.
Proof.
  intros H. destruct (hasAlnum s) eqn:E; [reflexivity|].
  apply normalizedName_nil in E. rewrite slug_normalized in E by exact H.
  by rewrite E in H.
Qed.

(** X18.  [slugify] keeps a slug as it is, so slugifying twice gives what
    slugifying once gives, for every name that has a letter of [a-z] or a
    digit once lower-cased. *)
Theorem slug_kept (rt : Host) (cli later : Cli) :
  (forall slug, isSlug slug = true -> slugify rt cli slug = slug)
  /\ (forall name,
        hasAlnum name = true ->
        slugify rt later (slugify rt cli name) = slugify rt cli name).
Proof.
  assert (forall time slug, isSlug slug = true -> slugify rt time slug = slug) as Hkept.
  { intros time slug H. rewrite slugify_cases, slug_hasAlnum by exact H.
    by apply slug_normalized. }
  split; [apply Hkept|]. intros name H. apply Hkept.
  rewrite slugify_cases, H.
  destruct (normalizedName_slug name) as [Hnil|Hslug]; [|exact Hslug].
  apply normalizedName_nil in Hnil. congruence.
Qed.

(** X18 on a slug and on a name. *)
Lemma slug_kept_witness :
  let cli := example_cli false None in
  slugify reference_host cli "code-cartographer-v2" = "code-cartographer-v2"
  /\ slugify reference_host cli (slugify reference_host cli "Code Cartographer")
     = slugify reference_host cli "Code Cartographer".
Proof.
  intros cli. destruct (slug_kept reference_host cli cli) as [Hslug Hname].
  split; [apply Hslug|apply Hname]; reflexivity.
Defined.

Lemma avoids_app cls a b : avoids cls (a ++ b) = avoids cls a && avoids cls b.
Proof.
  induction a as [|c a IH]; [reflexivity|]. rewrite append_cons. cbn [avoids].
  by rewrite IH, andb_assoc.
Qed.

Lemma slug_no_separator s : forall hyphen,
  isSlugAfter hyphen s = true -> avoids isSeparator s = true.
Proof.
  induction s as [|c s IH]; intros hyphen H; [reflexivity|].
  cbn [isSlugAfter] in H. cbn [avoids].
  destruct (lowerAlnum c) eqn:E.
  - rewrite (IH false H), andb_true_r.
    destruct c as [[] [] [] [] [] [] [] []]; try discriminate; reflexivity.
  - apply andb_true_iff in H as [[Hc _]%andb_true_iff Hs].
    apply Ascii.eqb_eq in Hc as ->. by rewrite (IH true Hs).
Qed.

(** X19.  The file name [generate-agent] gives to an agent is one the
    directory loader takes for an agent file, whatever the name; and for a
    name that has a letter of [a-z] or a digit once lower-cased, it holds no
    separator of a path, so the file lies in the destination directory. *)
Theorem generated_file_name (rt : Host) (cli : Cli) (name : string) :
  let fileName := slugify rt cli name ++ ".agent.md" in
  isAgentFile {| Dirent.name := fileName; Dirent.isFile := true |} = true
  /\ (hasAlnum name = true -> avoids isSeparator fileName = true).
Proof.
  intros fileName. split.
  - unfold isAgentFile, fileName. cbn [Dirent.isFile Dirent.name andb].
    apply endsWith_iff. exists (Str.toLowerCase (slugify rt cli name)).
    by rewrite toLowerCase_app.
  - intros H. unfold fileName. rewrite avoids_app, andb_true_r.
    eapply slug_no_separator, slugify_slug, H.
Qed.

(** X19 on a name that holds separators. *)
Lemma generated_file_name_witness :
  let cli := example_cli false None in
  let fileName := slugify reference_host cli "../etc/Passwd" ++ ".agent.md" in
  fileName = "etc-passwd.agent.md"
  /\ isAgentFile {| Dirent.name := fileName; Dirent.isFile := true |} = true
  /\ avoids isSeparator fileName = true.
Proof.
  intros cli fileName.
  destruct (generated_file_name reference_host cli "../etc/Passwd") as [Hfile Hinside].
  split; [vm_compute; reflexivity|]. split; [exact Hfile|]. apply Hinside. reflexivity.
Defined.

(* ================================================================== *)
(** ** [formatMarkdown] *)

Lemma trimmed_no_newline s : Str.endsWith (Str.trim s) nl = false.
Proof.
  destruct (Str.endsWith (Str.trim s) nl) eqn:E; [|reflexivity]. exfalso.
  apply endsWith_iff in E as (stem & E).
  pose proof (trim_idem s) as H. apply trim_fixed in H as [_ H].
  rewrite E in H. unfold nl in H. rewrite trimEnd_space in H by reflexivity.
  pose proof (trimEnd_length stem) as Hlen. rewrite H, length_app in Hlen.
  cbn in Hlen. lia.
Qed.

Lemma trim_newline t : Str.trim t = t -> Str.trim (t ++ nl) = t.
Proof.
  intros H. apply trim_fixed in H as [Hs He]. unfold Str.trim.
  destruct t as [|c t]; [reflexivity|].
  rewrite trimStart_fixed by (by apply startsIn_app).
  unfold nl. by rewrite trimEnd_space.
Qed.

Lemma formatMarkdown_trim s : formatMarkdown s = Str.trim s ++ nl.
Proof. unfold formatMarkdown. by rewrite trimmed_no_newline. Qed.

(** X20.  [formatMarkdown] gives the trimmed text followed by one newline,
    always: its test for a text that already ends in a newline never holds,
    since a trimmed text does not.  Formatting changes nothing but the space
    at the ends, and formatting twice gives what formatting once gives. *)
Theorem formatMarkdown_newline (markdown : string) :
  formatMarkdown markdown = Str.trim markdown ++ nl
  /\ Str.trim (formatMarkdown markdown) = Str.trim markdown
  /\ formatMarkdown (formatMarkdown markdown) = formatMarkdown markdown.
Proof.
  pose proof formatMarkdown_trim as Hformat.
  assert (Str.trim (formatMarkdown markdown) = Str.trim markdown) as Htrim
    by (rewrite Hformat; apply trim_newline, trim_idem).
  split; [apply Hformat|]. split; [exact Htrim|].
  by rewrite (Hformat (formatMarkdown markdown)), Htrim, Hformat.
Qed.

(** X20 on a text with empty lines at both ends. *)
Lemma formatMarkdown_newline_witness :
  let markdown := "
# Agent: T

" in
  formatMarkdown markdown = "# Agent: T" ++ nl
  /\ formatMarkdown (formatMarkdown markdown) = formatMarkdown markdown.
Proof.
  intros markdown. destruct (formatMarkdown_newline markdown) as (Hformat & _ & Htwice).
  split; [rewrite Hformat; vm_compute; reflexivity|exact Htwice].
Defined.

(* ================================================================== *)
(** ** Replacing a text by a text *)

Lemma GetSubstitution_plain matched before after template :
  avoids (only "$") template = true ->
  Text.GetSubstitution matched before after template = template.
Proof.
  induction template as [|c r IH]; [reflexivity|]. cbn [avoids Text.GetSubstitution].
  unfold only at 1. intros [Hc Hr]%andb_true_iff. apply negb_true_iff in Hc.
  by rewrite Hc, IH.
Qed.

Lemma prefix_length needle s :
  String.prefix needle s = true -> String.length needle <= String.length s.
Proof.
  revert s. induction needle as [|a needle IH]; intros s; [cbn; lia|].
  destruct s as [|b s]; cbn; [discriminate|].
  destruct (Ascii.ascii_dec a b); [|discriminate].
  intros H. apply IH in H. lia.
Qed.

Lemma positions_scan needle by_ s t : forall skip i p from,
  needle <> "" ->
  avoids (only "$") by_ = true ->
  Text.assemble needle by_ s from (Text.positions needle skip i t)
  = splice s from (scanWith (attemptText needle) skip i p t) by_.
Proof.
  intros skip i p from Hneedle Hby. revert skip i p from.
  assert (Nat.max 1 (String.length needle) - 1 = String.length needle - 1) as Hmax
    by (destruct needle; [done|cbn; lia]).
  induction t as [|c t IH]; intros skip i p from.
  - destruct skip; cbn [Text.positions scanWith]; [|reflexivity].
    unfold attemptText. destruct (String.prefix needle ""); [|reflexivity].
    cbn [Text.assemble splice]. unfold Text.substitution, m_end.
    by rewrite GetSubstitution_plain.
  - destruct skip; cbn [Text.positions scanWith]; [|apply IH].
    unfold attemptText. destruct (String.prefix needle (String c t)); [|apply IH].
    cbn [Text.assemble splice]. unfold Text.substitution, m_end.
    rewrite GetSubstitution_plain by exact Hby. cbn [m_index m_text matched].
    by rewrite Hmax, (IH _ _ (Some c)).
Qed.

Lemma replaceAll_text s needle by_ :
  needle <> "" ->
  avoids (only "$") by_ = true ->
  Text.replaceAll s needle by_ = rewriteWith (textLength needle) by_ 0 0 None s.
Proof.
  intros Hneedle Hby. unfold Text.replaceAll.
  rewrite (positions_scan needle by_ s s 0 0 None 0 Hneedle Hby).
  rewrite replaceAll_rewriteWith.
  - apply rewriteWith_ext. intros i p t. unfold matchLengthOf, attemptText, textLength.
    by destruct (String.prefix needle t).
  - intros i p t m. unfold attemptText.
    destruct (String.prefix needle t) eqn:E; [|discriminate]. intros [= <-].
    split; [reflexivity|]. cbn [m_text matched]. split.
    + destruct needle; [done|cbn; lia].
    + by apply prefix_length.
Qed.

(** Where the search stands does not matter to a text pattern. *)
Lemma rewriteText_anywhere needle by_ s : forall skip i p,
  rewriteWith (textLength needle) by_ skip i p s
  = rewriteWith (textLength needle) by_ skip 0 None s.
Proof.
  induction s as [|c s IH]; intros skip i p; destruct skip; cbn [rewriteWith];
    try reflexivity.
  - unfold textLength. destruct (String.prefix needle (String c s));
      by rewrite IH, (IH _ 1 (Some c)).
  - by rewrite IH, (IH _ 1 (Some c)).
Qed.

Lemma clash_prefix needle s after :
  clash needle s = true -> String.prefix needle (s ++ after) = false.
Proof.
  revert s. induction needle as [|a needle IH]; intros s; [discriminate|].
  destruct s as [|b s]; [discriminate|]. rewrite append_cons. cbn.
  destruct (Ascii.eqb_spec a b) as [->|Hne].
  - destruct (Ascii.ascii_dec b b); [apply IH|done].
  - by destruct (Ascii.ascii_dec a b).
Qed.

Lemma rewriteText_clear needle by_ s after :
  clearOf needle s = true ->
  rewriteWith (textLength needle) by_ 0 0 None (s ++ after)
  = s ++ rewriteWith (textLength needle) by_ 0 0 None after.
Proof.
  induction s as [|c s IH]; [reflexivity|]. cbn [clearOf].
  intros [Hc Hs]%andb_true_iff. rewrite !append_cons. cbn [rewriteWith].
  unfold textLength at 1. rewrite <- append_cons, clash_prefix by exact Hc.
  by rewrite rewriteText_anywhere, IH.
Qed.

Lemma rewriteText_skip needle by_ s after : forall i p,
  rewriteWith (textLength needle) by_ (String.length s) i p (s ++ after)
  = rewriteWith (textLength needle) by_ 0 0 None after.
Proof.
  induction s as [|c s IH]; intros i p; [apply rewriteText_anywhere|].
  rewrite append_cons. cbn [String.length rewriteWith]. apply IH.
Qed.

Lemma prefix_app needle after : String.prefix needle (needle ++ after) = true.
Proof.
  induction needle as [|a needle IH]; [by destruct after|]. rewrite append_cons. cbn.
  by destruct (Ascii.ascii_dec a a).
Qed.

Lemma rewriteText_match needle by_ after :
  needle <> "" ->
  rewriteWith (textLength needle) by_ 0 0 None (needle ++ after)
  = by_ ++ rewriteWith (textLength needle) by_ 0 0 None after.
Proof.
  intros Hne. destruct needle as [|a needle]; [done|].
  rewrite append_cons. cbn [rewriteWith]. unfold textLength at 1.
  rewrite <- append_cons, prefix_app. cbn [String.length Nat.sub].
  by rewrite Nat.sub_0_r, rewriteText_skip.
Qed.

Lemma rewriteText_end needle by_ s :
  clearOf needle s = true -> needle <> "" ->
  rewriteWith (textLength needle) by_ 0 0 None s = s.
Proof.
  intros Hs Hne. rewrite <- (append_nil_r s) at 1. rewrite rewriteText_clear by exact Hs.
  cbn [rewriteWith]. unfold textLength. destruct needle; [done|]. cbn. apply append_nil_r.
Qed.

Lemma avoids_clear first needle s :
  avoids (only first) s = true -> clearOf (String first needle) s = true.
Proof.
  induction s as [|c s IH]; [reflexivity|]. cbn [avoids clearOf clash].
  unfold only at 1. intros [Hc Hs]%andb_true_iff. apply negb_true_iff in Hc.
  rewrite Ascii.eqb_sym, Hc. by rewrite IH.
Qed.

(** X21.  The prompt [generate-agent] sends is the template with its two
    placeholders for the name and its one placeholder for the idea filled
    in, and nothing else changed, for every name that holds no [$] and no
    opening brace and every idea that holds no [$]. *)
Theorem prompt_filled :
  exists opening between heading remainder : string,
    PROMPT_TEMPLATE
    = opening ++ "{{AGENT_NAME}}" ++ between ++ "{{USER_IDEA}}" ++ heading ++ "{{AGENT_NAME}}"
      ++ remainder
    /\ forall name idea,
         avoids (only "$") name = true ->
         avoids (only "{") name = true ->
         avoids (only "$") idea = true ->
         buildPrompt PROMPT_TEMPLATE name idea
         = opening ++ name ++ between ++ idea ++ heading ++ name ++ remainder.
Proof.
  set (opening := substring 0 159 PROMPT_TEMPLATE).
  set (between := substring 173 16 PROMPT_TEMPLATE).
  set (heading := substring 202 362 PROMPT_TEMPLATE).
  set (remainder := substring 578 2014 PROMPT_TEMPLATE).
  exists opening, between, heading, remainder.
  assert (PROMPT_TEMPLATE
          = opening ++ "{{AGENT_NAME}}" ++ between ++ "{{USER_IDEA}}" ++ heading
            ++ "{{AGENT_NAME}}" ++ remainder) as Htemplate by (vm_compute; reflexivity).
  split; [exact Htemplate|]. intros name idea Hname Hbrace Hidea.
  unfold buildPrompt. rewrite Htemplate.
  assert (clearOf "{{AGENT_NAME}}" opening = true) as H1 by (vm_compute; reflexivity).
  assert (clearOf "{{AGENT_NAME}}" (between ++ "{{USER_IDEA}}" ++ heading) = true) as H2
    by (vm_compute; reflexivity).
  assert (clearOf "{{AGENT_NAME}}" remainder = true) as H3 by (vm_compute; reflexivity).
  assert (clearOf "{{USER_IDEA}}" opening = true) as H4 by (vm_compute; reflexivity).
  assert (clearOf "{{USER_IDEA}}" between = true) as H5 by (vm_compute; reflexivity).
  assert (clearOf "{{USER_IDEA}}" heading = true) as H6 by (vm_compute; reflexivity).
  assert (clearOf "{{USER_IDEA}}" remainder = true) as H7 by (vm_compute; reflexivity).
  assert (clearOf "{{USER_IDEA}}" name = true) as H8 by (by apply avoids_clear).
  clearbody opening between heading remainder.
  rewrite (replaceAll_text _ "{{AGENT_NAME}}") by done.
  rewrite rewriteText_clear by exact H1.
  rewrite rewriteText_match by done.
  rewrite <- (append_assoc between), <- (append_assoc (between ++ "{{USER_IDEA}}")).
  rewrite (append_assoc between).
  rewrite rewriteText_clear by exact H2.
  rewrite rewriteText_match by done.
  rewrite rewriteText_end by done.
  rewrite (replaceAll_text _ "{{USER_IDEA}}") by done.
  rewrite !append_assoc.
  rewrite rewriteText_clear by exact H4.
  rewrite rewriteText_clear by exact H8.
  rewrite rewriteText_clear by exact H5.
  rewrite rewriteText_match by done.
  rewrite rewriteText_clear by exact H6.
  rewrite rewriteText_clear by exact H8.
  by rewrite rewriteText_end.
Qed.

(** X21 on a name and an idea. *)
Lemma prompt_filled_witness :
  exists opening between heading remainder : string,
    PROMPT_TEMPLATE
    = opening ++ "{{AGENT_NAME}}" ++ between ++ "{{USER_IDEA}}" ++ heading
      ++ "{{AGENT_NAME}}" ++ remainder
    /\ buildPrompt PROMPT_TEMPLATE "Code Cartographer" "Maps source trees."
       = opening ++ "Code Cartographer" ++ between ++ "Maps source trees." ++ heading
         ++ "Code Cartographer" ++ remainder.
Proof.
  destruct prompt_filled as (opening & between & heading & remainder & Htemplate & Hfilled).
  exists opening, between, heading, remainder. split; [exact Htemplate|].
  apply Hfilled; reflexivity.
Defined.

(* ================================================================== *)
(** ** What [generate-agent] does *)

(** No effect of a list of other effects. *)
Ltac not_listed H :=
  rewrite ?elem_of_cons, ?elem_of_nil in H; exfalso;
  repeat (destruct H as [H|H]; [discriminate|]); first [discriminate|exact H].

Lemma handleGenerateAgent_effects rt cli args :
  (handleGenerateAgent rt cli args).1 = []
  \/ exists response d,
       modelAnswers rt cli args response
       /\ parseAgentMarkdown rt (Str.trim response) "generated agent" = OK d
       /\ Str.trim response <> ""
       /\ (GenerateAgentArgs.overwrite args = true
           \/ fileExists cli (outputPathOf rt cli args) = false)
       /\ ((handleGenerateAgent rt cli args
            = ([Mkdir (resolveDestinationDirectory cli args)], (handleGenerateAgent rt cli args).2)
            /\ succeeded (handleGenerateAgent rt cli args).2 = false)
           \/ exists created reload,
                handleGenerateAgent rt cli args
                = ([ Mkdir (resolveDestinationDirectory cli args);
                     WriteFile (outputPathOf rt cli args) (Str.trim response ++ nl);
                     ConsoleLog created; ConsoleLog reload ], OK tt)).
Proof.
  unfold handleGenerateAgent. fold (outputPathOf rt cli args).
  destruct (Str.isEmpty (Str.trim (GenerateAgentArgs.name args))); [by left|].
  destruct (Str.isEmpty (Str.trim (GenerateAgentArgs.prompt args))); [by left|].
  destruct (negb (GenerateAgentArgs.overwrite args) && fileExists cli (outputPathOf rt cli args))
    eqn:Hexists; [by left|].
  match goal with |- context [match ?m with OK _ => _ | Throw _ => _ end] =>
    destruct m as [raw|e] eqn:Hraw end; [|by left].
  repeat bind_inv Hraw.
  destruct (negb (JS.nonEmpty (Config.authType a0))); [discriminate|].
  bind_inv Hraw.
  destruct (negb (JS.nonEmpty (Str.trim <$> a3))) eqn:Hcontent; [discriminate|].
  bind_inv Hraw. injection Hraw as <-.
  destruct a3 as [response|]; [|discriminate]. cbn [fmap option_fmap option_map default] in *.
  unfold id in *.
  destruct (mkdir cli _); [|by left].
  right. exists response, a4.
  split; [exists a0; by split|]. split; [exact Ha4|].
  split; [by destruct (Str.trim response)|]. split.
  { apply andb_false_iff in Hexists as [H|H]; [left|right; exact H].
    by destruct (GenerateAgentArgs.overwrite args). }
  rewrite formatMarkdown_trim, trim_idem.
  destruct (writeFile cli _ _); [right; by eexists _, _|left; by split].
Qed.

Lemma generateAgentCommand_run rt cli args :
  generateAgentCommand rt cli args
  = ((handleGenerateAgent rt cli args).1
     ++ match (handleGenerateAgent rt cli args).2 with
        | OK _ => [Exit 0]
        | Throw error =>
            [ConsoleError ("Failed to generate agent: " ++ exn_message error); Exit 1]
        end)%list.
Proof.
  unfold generateAgentCommand.
  by destruct (handleGenerateAgent rt cli args) as [effects [[]|error]].
Qed.

(** X22.  [generate-agent] writes at most one file, and only what the model
    answered: the file is the one named after the slug of the name in the
    destination directory; it did not exist, unless [--overwrite] was
    given; the model of the session has answered the filled template; the
    trimmed answer loads as an agent definition; and the content of the
    file is the trimmed answer and a newline. *)
Theorem generate_writes_validated (rt : Host) (cli : Cli) (args : GenerateAgentArgs.t)
    (path content : string) :
  WriteFile path content ∈ generateAgentCommand rt cli args ->
  path = outputPathOf rt cli args
  /\ (GenerateAgentArgs.overwrite args = true \/ fileExists cli path = false)
  /\ (exists response d,
        modelAnswers rt cli args response
        /\ parseAgentMarkdown rt (Str.trim response) "generated agent" = OK d
        /\ content = Str.trim response ++ nl)
  /\ List.filter isWrite (generateAgentCommand rt cli args) = [WriteFile path content].
Proof.
  rewrite generateAgentCommand_run. intros Hin.
  destruct (handleGenerateAgent_effects rt cli args)
    as [Hnone|(response & d & Hanswer & Hd & Hne & Hfresh
               & [[Hrun Hfail]|(created & reload & Hrun)])].
  - exfalso. rewrite Hnone in Hin. cbn [app] in Hin.
    destruct (handleGenerateAgent rt cli args).2; not_listed Hin.
  - exfalso. rewrite Hrun in Hin. cbn [fst snd app] in Hin.
    destruct (handleGenerateAgent rt cli args).2; [discriminate|]. not_listed Hin.
  - rewrite Hrun in Hin |- *. cbn [fst snd app] in Hin |- *.
    rewrite !elem_of_cons, elem_of_nil in Hin.
    destruct Hin as [Hin|[Hin|[Hin|[Hin|[Hin|[]]]]]]; try discriminate.
    injection Hin as -> ->. split; [reflexivity|]. split; [exact Hfresh|].
    split; [by exists response, d|reflexivity].
Qed.

(** X22 on a session in which the model answers a document with empty lines
    around it. *)
Lemma generate_writes_validated_witness :
  let cli := example_cli false (Some "
# Agent: Code Cartographer
## Summary
Maps code.

") in
  let args := {| GenerateAgentArgs.name := " Code Cartographer ";
                 GenerateAgentArgs.prompt := "Maps code.";
                 GenerateAgentArgs.directory := None;
                 GenerateAgentArgs.overwrite := false;
                 GenerateAgentArgs.global := false |} in
  let path := "/work/agents/code-cartographer.agent.md" in
  let content := "# Agent: Code Cartographer
## Summary
Maps code.
" in
  WriteFile path content ∈ generateAgentCommand reference_host cli args
  /\ path = outputPathOf reference_host cli args
  /\ (exists response,
        modelAnswers reference_host cli args response
        /\ content = Str.trim response ++ nl)
  /\ List.filter isWrite (generateAgentCommand reference_host cli args)
     = [WriteFile path content].
Proof.
  intros cli args path content.
  assert (generateAgentCommand reference_host cli args !! 1 = Some (WriteFile path content))
    as Hsecond by (vm_compute; reflexivity).
  pose proof (list_elem_of_lookup_2 _ _ _ Hsecond) as Hin.
  split; [exact Hin|].
  destruct (generate_writes_validated reference_host cli args path content Hin)
    as (Hpath & _ & (response & d & Hanswer & _ & Hcontent) & Hone).
  split; [exact Hpath|]. split; [by exists response|exact Hone].
Defined.

(** X23.  [generate-agent] refuses, with one line on the error stream and
    the exit code 1 and without any other effect, a name that is blank, a
    prompt that is blank, and, without [--overwrite], a file that exists
    already.  It exits with the code 0 exactly when it has written the
    file. *)
Theorem generate_refusals (rt : Host) (cli : Cli) (args : GenerateAgentArgs.t) :
  let failed message := [ConsoleError ("Failed to generate agent: " ++ message); Exit 1] in
  (Str.trim (GenerateAgentArgs.name args) = "" ->
   generateAgentCommand rt cli args = failed "Agent name cannot be empty.")
  /\ (Str.trim (GenerateAgentArgs.name args) <> "" ->
      Str.trim (GenerateAgentArgs.prompt args) = "" ->
      generateAgentCommand rt cli args = failed "Prompt cannot be empty.")
  /\ (Str.trim (GenerateAgentArgs.name args) <> "" ->
      Str.trim (GenerateAgentArgs.prompt args) <> "" ->
      GenerateAgentArgs.overwrite args = false ->
      succeeded (access cli (outputPathOf rt cli args)) = true ->
      generateAgentCommand rt cli args
      = failed ("Agent file already exists at " ++ outputPathOf rt cli args
                ++ ". Use --overwrite to replace it."))
  /\ (Exit 0 ∈ generateAgentCommand rt cli args
      <-> exists content,
            WriteFile (outputPathOf rt cli args) content ∈ generateAgentCommand rt cli args).
Proof.
  intros failed. split; [|split; [|split]].
  - intros Hname. unfold generateAgentCommand, handleGenerateAgent. by rewrite Hname.
  - intros Hname Hprompt. unfold generateAgentCommand, handleGenerateAgent.
    rewrite Hprompt. by destruct (Str.trim (GenerateAgentArgs.name args)).
  - intros Hname Hprompt Hover Haccess.
    unfold generateAgentCommand, handleGenerateAgent. fold (outputPathOf rt cli args).
    rewrite Hover. unfold fileExists.
    destruct (access cli (outputPathOf rt cli args)); [|discriminate].
    destruct (Str.trim (GenerateAgentArgs.name args)); [done|].
    by destruct (Str.trim (GenerateAgentArgs.prompt args)).
  - rewrite generateAgentCommand_run.
    destruct (handleGenerateAgent_effects rt cli args)
      as [Hnone|(raw & d & _ & _ & _ & _ & [[Hrun Hfail]|(created & reload & Hrun)])].
    + rewrite Hnone. cbn [app].
      destruct (handleGenerateAgent rt cli args) as [effects [[]|e]] eqn:Hrun;
        cbn [fst snd] in *.
      * exfalso. subst effects. revert Hrun. unfold handleGenerateAgent.
        repeat match goal with
               | |- context [if ?b then _ else _] => destruct b; try discriminate
               | |- context [match ?m with OK _ => _ | Throw _ => _ end] =>
                   destruct m; try discriminate
               end.
      * split; [intros Hin|intros (content & Hin)]; not_listed Hin.
    + rewrite Hrun. cbn [fst snd app].
      destruct (handleGenerateAgent rt cli args).2; [discriminate|].
      split; [intros Hin|intros (content & Hin)]; not_listed Hin.
    + rewrite Hrun. cbn [fst snd app]. split.
      * intros _. eexists. rewrite !elem_of_cons. right. left. reflexivity.
      * intros _. rewrite !elem_of_cons. auto 10.
Qed.

(** X23 on a session in which the file exists. *)
Lemma generate_refusals_witness :
  let cli := example_cli true (Some "# Agent: Code Cartographer") in
  let args := {| GenerateAgentArgs.name := " Code Cartographer ";
                 GenerateAgentArgs.prompt := "Maps code.";
                 GenerateAgentArgs.directory := Some "bots";
                 GenerateAgentArgs.overwrite := false;
                 GenerateAgentArgs.global := false |} in
  generateAgentCommand reference_host cli args
  = [ ConsoleError "Failed to generate agent: Agent file already exists at /work/bots/code-cartographer.agent.md. Use --overwrite to replace it.";
      Exit 1 ].
Proof.
  intros cli args.
  pose proof (generate_refusals reference_host cli args) as H. cbv zeta in H.
  destruct H as (_ & _ & Hexists & _).
  rewrite Hexists; [vm_compute; reflexivity| | |reflexivity|reflexivity];
    vm_compute; discriminate.
Defined.

(* ================================================================== *)
(** ** What [agent init] writes *)

Lemma replace_mission mission :
  Text.replace TOML_TEMPLATE "{mission}" mission
  = "[agent]" ++ nl ++ "mission = " ++ Str.dq
    ++ Text.GetSubstitution "{mission}" ("[agent]" ++ nl ++ "mission = " ++ Str.dq)
         (Str.dq ++ nl ++ "tools = []" ++ nl) mission
    ++ Str.dq ++ nl ++ "tools = []" ++ nl.
Proof. reflexivity. Qed.

(** X24.  For a mission that holds no [$], [agent init] writes two files
    into the resolved directory when it succeeds, in this order: the
    configuration, which is the template with the mission between the
    quotes, and the script.  When it fails it has written nothing, or the
    configuration only. *)
Theorem init_writes (rt : Host) (cli : Cli) (args : AgentInitArgs.t) :
  let directory := path_resolve cli (cwd cli) (AgentInitArgs.dir args) in
  let written := List.filter isWrite (initCommand rt cli args).1 in
  avoids (only "$") (AgentInitArgs.mission args) = true ->
  (succeeded (initCommand rt cli args).2 = true ->
   written = [ WriteFile (path_join rt directory "coco-agent.toml")
                 (tomlFor (AgentInitArgs.mission args));
               WriteFile (path_join rt directory "index.js") AGENT_TEMPLATE ])
  /\ (succeeded (initCommand rt cli args).2 = false ->
      written = []
      \/ written = [ WriteFile (path_join rt directory "coco-agent.toml")
                       (tomlFor (AgentInitArgs.mission args)) ]).
Proof.
  intros directory written Hmission. unfold written, initCommand.
  rewrite replace_mission, GetSubstitution_plain by exact Hmission.
  fold (tomlFor (AgentInitArgs.mission args)).
  fold directory. unfold getAgentConfigPath, getAgentScriptPath,
    AGENT_CONFIG_FILENAME, AGENT_SCRIPT_FILENAME.
  destruct (mkdir cli directory); [|split; [discriminate|by left]].
  destruct (writeFile cli (path_join rt directory "coco-agent.toml") _);
    [|split; [discriminate|by left]].
  destruct (writeFile cli (path_join rt directory "index.js") _);
    [split; [reflexivity|discriminate]|split; [discriminate|by right]].
Qed.

(** X24 on a directory and a mission. *)
Lemma init_writes_witness :
  let cli := example_cli false None in
  let args := {| AgentInitArgs.dir := "bots/scout";
                 AgentInitArgs.mission := "Scout the code." |} in
  List.filter isWrite (initCommand reference_host cli args).1
  = [ WriteFile "/work/bots/scout/coco-agent.toml" (tomlFor "Scout the code.");
      WriteFile "/work/bots/scout/index.js" AGENT_TEMPLATE ].
Proof.
  intros cli args.
  pose proof (init_writes reference_host cli args) as H. cbv zeta in H.
  destruct (H eq_refl) as [Hsucceeds _].
  etransitivity; [apply Hsucceeds; reflexivity|vm_compute; reflexivity].
Defined.

(* ================================================================== *)
(** ** The planning tool *)

Lemma join_nothing_app (a b : list string) :
  Str.join "" (a ++ b)%list = Str.join "" a ++ Str.join "" b.
Proof.
  induction a as [|x a IH]; [reflexivity|].
  assert (forall l, Str.join "" (x :: l) = x ++ Str.join "" l) as Hcons.
  { intros [|y l]; [by rewrite append_nil_r|reflexivity]. }
  cbn [app]. by rewrite !Hcons, IH, append_assoc.
Qed.

Lemma chunkText_texts chunk : chunkText chunk = Str.join "" (textsOf (Chunk chunk)).
Proof.
  unfold chunkText, textsOf.
  destruct (GenerateContentResponse.candidates chunk) as [[|first more]|]; try reflexivity.
  cbn. destruct (Candidate.content first) as [content|]; [|reflexivity]. cbn.
  destruct (Content.parts content) as [parts|]; [|reflexivity]. cbn.
  by destruct (Str.join "" _).
Qed.

Lemma accumulate_texts events : forall textResponse,
  foldl (fun (textResponse : string) (resp : StreamEvent) =>
           match resp with
           | Chunk chunk =>
               let text := chunkText chunk in
               if negb (Str.isEmpty text) then textResponse ++ text else textResponse
           | _ => textResponse
           end) textResponse events
  = textResponse ++ Str.join "" (flat_map textsOf events).
Proof.
  induction events as [|event events IH]; intros textResponse; cbn [foldl flat_map].
  - by rewrite append_nil_r.
  - rewrite IH, join_nothing_app. destruct event as [chunk|].
    + cbn zeta. rewrite chunkText_texts.
      destruct (Str.join "" (textsOf (Chunk chunk))); cbn [Str.isEmpty negb].
      * reflexivity.
      * by rewrite append_assoc.
    + reflexivity.
Qed.

(** X25.  The planning tool answers with one part of text, or throws.
    Without a query (no call, no arguments, a [query] that is missing or
    falsy) it answers, with a text that does not depend on where it runs.
    With a query it answers that it has no runtime when the configuration or
    the chat is missing.  Otherwise it catches nothing: it throws what the
    conversion of the query to a text throws, or what the stream of the chat
    throws; and when both succeed, it has sent one message under the prompt
    id followed by [-plan] and answers [Okay, I have a plan:] and, on the
    next line, the texts of the first candidates of the chunks of the stream,
    in order, other events and parts without text left out. *)
Theorem planning_tool_answers (rt : Host) (this : Runtime.t)
    (functionCalls : option (list FunctionCall.t)) :
  (queryOf functionCalls = None ->
   exists words, forall other, callTool rt other functionCalls = OK (say words))
  /\ (forall query,
        queryOf functionCalls = Some query ->
        match Runtime.config this, Runtime.chat this with
        | Some currentConfig, Some currentChat =>
            match ToString rt query with
            | Throw e => callTool rt this functionCalls = Throw e
            | OK words =>
                match GeminiChat.sendMessageStream currentChat
                        (Config.getModel currentConfig) (say (planningPrompt words))
                        (JS.orElse (Runtime.getStore this) "sequential-thinking-plan"
                         ++ "-plan")
                with
                | Throw e => callTool rt this functionCalls = Throw e
                | OK events => callTool rt this functionCalls = OK (say (planOf events))
                end
            end
        | _, _ => callTool rt this functionCalls = OK (say noRuntime)
        end)
  /\ (forall answer, callTool rt this functionCalls = OK answer ->
        exists words, answer = say words).
Proof.
  split; [|split].
  - unfold queryOf, callTool.
    destruct functionCalls as [[|call more]|]; try (intros _; by eexists).
    destruct (FunctionCall.args call) as [args|]; [|intros _; by eexists].
    destruct (JS.assoc "query" args) as [query|]; [|intros _; by eexists].
    destruct (JS.truthy query); [discriminate|]. intros _. by eexists.
  - intros query. unfold queryOf, callTool.
    destruct functionCalls as [[|call more]|]; try discriminate.
    destruct (FunctionCall.args call) as [args|]; [|discriminate].
    destruct (JS.assoc "query" args) as [declared|]; [|discriminate].
    destruct (JS.truthy declared); [|discriminate]. intros [= ->]. cbn [negb].
    destruct (Runtime.config this) as [currentConfig|]; [|reflexivity].
    destruct (Runtime.chat this) as [currentChat|]; [|reflexivity].
    destruct (ToString rt query) as [words|e]; [|reflexivity].
    cbn [mbind Result_bind Content.parts default]. unfold id, say.
    destruct (GeminiChat.sendMessageStream currentChat _ _ _) as [events|e];
      [|reflexivity].
    exact (f_equal (fun plan => OK (say ("Okay, I have a plan:" ++ nl ++ plan)))
             (accumulate_texts events "")).
  - intros answer. unfold callTool.
    destruct functionCalls as [[|call more]|]; try (intros [= <-]; by eexists).
    destruct (FunctionCall.args call) as [args|]; [|intros [= <-]; by eexists].
    destruct (JS.assoc "query" args) as [query|]; [|intros [= <-]; by eexists].
    destruct (negb (JS.truthy query)); [intros [= <-]; by eexists|].
    destruct (Runtime.config this), (Runtime.chat this); try (intros [= <-]; by eexists).
    intros H. repeat bind_inv H. injection H as <-. by eexists.
Qed.

(** X25 on a stream of two chunks with another event between them, on a
    stream that fails, and on a call without arguments. *)
Lemma planning_tool_answers_witness :
  let chunk words :=
    Chunk {| GenerateContentResponse.candidates :=
               Some [ {| Candidate.content :=
                           Some {| Content.role := Some "model";
                                   Content.parts :=
                                     Some [ {| Part.text := None |};
                                            {| Part.text := Some words |} ] |} |} ] |} in
  let events := [chunk "1. Read the loader."; Retry; chunk " 2. Call complete_task."] in
  let currentConfig :=
    {| Config.initialize := OK tt;
       Config.refreshAuth := fun _ => OK tt;
       Config.authType := None;
       Config.getModel := "gemini-2.5-pro";
       Config.generateContent := fun _ _ _ => OK None |} in
  let running stream :=
    {| Runtime.config := Some currentConfig;
       Runtime.chat := Some {| GeminiChat.sendMessageStream := fun _ _ _ => stream |};
       Runtime.getStore := None |} in
  let call := {| FunctionCall.name := Some "sequential_thinking";
                 FunctionCall.args := Some [("query", JString "Explain the loader")] |} in
  let bare := {| FunctionCall.name := Some "sequential_thinking";
                 FunctionCall.args := None |} in
  callTool reference_host (running (OK events)) (Some [call])
  = OK (say ("Okay, I have a plan:" ++ nl ++ "1. Read the loader. 2. Call complete_task."))
  /\ callTool reference_host (running (Throw (Error "stream closed"))) (Some [call])
     = Throw (Error "stream closed")
  /\ exists words, callTool reference_host (running (OK events)) (Some [bare]) = OK (say words).
Proof.
  intros chunk events currentConfig running call bare.
  split; [|split].
  - exact (proj1 (proj2 (planning_tool_answers reference_host (running (OK events))
                           (Some [call])))
             (JString "Explain the loader") eq_refl).
  - exact (proj1 (proj2 (planning_tool_answers reference_host
                           (running (Throw (Error "stream closed"))) (Some [call])))
             (JString "Explain the loader") eq_refl).
  - destruct (proj1 (planning_tool_answers reference_host (running (OK events))
                       (Some [bare])) eq_refl) as (words & Hanswer).
    exists words. apply Hanswer.
Defined.

